(** * Danmaku crawler: models, bundle store and crawl orchestration

    A shallow embedding of the crawling and caching core of the
    [danmaku_analysis] package ([models.py], [persistence.py],
    [crawler.py], [config.py], and the settings and the [fetch] command
    of [cli.py]) together with the properties of its behaviour.

    Conventions.
    - A Python [str] is a [string] of bytes (UTF-8); character classes
      (white space, digits) are the ASCII ones.
    - A Python [int] is a [Z]; a Python [float] is a binary64 value of
      [spec_float], rounded with the Standard Library's [SpecFloat].
    - A decoded JSON document is a [pyval]; a [dict] is an association
      list in insertion order.
    - Exceptions are values of [exn]; code that can raise returns an
      [outcome].  The crawler's I/O runs in the monad [M] over a [world]
      holding the log of network and timer events and the files of the
      raw-data directory. *)

From Stdlib Require Import ZArith QArith Ascii String List Bool Lia.
From Stdlib Require Import DecimalString.
From Stdlib Require Import Floats.SpecFloat.
From stdpp Require Import base option list gmap strings.
From stdpp Require sorting.

Set Warnings "-register-all,-clear-no-such-hyp".
Local Open Scope Z_scope.

(* ===================================================================== *)
(** * Python values and exceptions *)
(* ===================================================================== *)

Module Py.

(** Binary64 parameters. *)
Definition prec : Z := 53.
Definition emax : Z := 1024.

Inductive pyval : Type :=
| PNone
| PBool (b : bool)
| PInt (n : Z)
| PFloat (f : spec_float)
| PStr (s : string)
| PList (l : list pyval)
| PDict (d : list (string * pyval)).

Inductive exn : Type :=
| ValueError (msg : string)
| TypeError (msg : string)
| KeyError (key : string)
| AttributeError (msg : string)
| OverflowError (msg : string)
| HTTPStatusError (status : Z)
| TransportError (kind : string)
| JSONDecodeError
| ParseError
| FileNotFoundError (path : string)
| IllTyped (what : string).

(** [IllTyped] is not a Python exception: it marks a run that stores a
    value outside the annotated type of a dataclass field, which the typed
    records below cannot represent. *)

Inductive outcome (A : Type) : Type :=
| Ok (a : A)
| Raise (e : exn).
Arguments Ok {A} a.
Arguments Raise {A} e.

Definition obind {A B} (x : outcome A) (k : A -> outcome B) : outcome B :=
  match x with
  | Ok a => k a
  | Raise e => Raise e
  end.

Global Instance outcome_bind : MBind outcome := fun A B k x => obind x k.
Global Instance outcome_ret : MRet outcome := fun A a => Ok a.

Fixpoint omapM {A B} (f : A -> outcome B) (l : list A) : outcome (list B) :=
  match l with
  | [] => Ok []
  | x :: l' =>
      obind (f x) (fun y => obind (omapM f l') (fun ys => Ok (y :: ys)))
  end.

(** ** Truthiness, [dict] access *)

Definition float_is_zero (f : spec_float) : bool :=
  match f with
  | S754_zero _ => true
  | _ => false
  end.

Definition str_nonempty (s : string) : bool :=
  match s with
  | EmptyString => false
  | String _ _ => true
  end.

Definition truthy (v : pyval) : bool :=
  match v with
  | PNone => false
  | PBool b => b
  | PInt n => negb (n =? 0)
  | PFloat f => negb (float_is_zero f)
  | PStr s => str_nonempty s
  | PList l => match l with [] => false | _ => true end
  | PDict d => match d with [] => false | _ => true end
  end.

Fixpoint dict_lookup (k : string) (d : list (string * pyval)) : option pyval :=
  match d with
  | [] => None
  | (k', v) :: d' => if String.eqb k k' then Some v else dict_lookup k d'
  end.

(** [d.get(k)] on a [dict] [d]. *)
Definition dict_get (k : string) (d : list (string * pyval)) : pyval :=
  match dict_lookup k d with
  | Some v => v
  | None => PNone
  end.

(** [d[k]] on a [dict] [d]. *)
Definition dict_item (k : string) (d : list (string * pyval)) : outcome pyval :=
  match dict_lookup k d with
  | Some v => Ok v
  | None => Raise (KeyError k)
  end.

(** [v.get(k)] on an arbitrary value: only a [dict] has the method. *)
Definition py_get (k : string) (v : pyval) : outcome pyval :=
  match v with
  | PDict d => Ok (dict_get k d)
  | _ => Raise (AttributeError "object has no attribute 'get'")
  end.

(** [v[k]] with a [str] key on an arbitrary value. *)
Definition py_item (k : string) (v : pyval) : outcome pyval :=
  match v with
  | PDict d => dict_item k d
  | _ => Raise (TypeError "indices must be integers or object is not subscriptable")
  end.

(** Iteration over a value ([for x in v]): a [dict] yields its keys and a
    [str] its characters. *)
Definition py_iter (v : pyval) : outcome (list pyval) :=
  match v with
  | PList l => Ok l
  | PDict d => Ok (map (fun kv => PStr (fst kv)) d)
  | PStr s => Ok (map (fun c => PStr (String c EmptyString)) (list_ascii_of_string s))
  | _ => Raise (TypeError "object is not iterable")
  end.

(** ** Strings: characters, [strip], [split] *)

Definition is_space (c : ascii) : bool :=
  let n := Z.of_nat (nat_of_ascii c) in
  ((9 <=? n) && (n <=? 13)) || ((28 <=? n) && (n <=? 32)).

Definition digit_of (c : ascii) : option Z :=
  let n := Z.of_nat (nat_of_ascii c) in
  if (48 <=? n) && (n <=? 57) then Some (n - 48) else None.

Definition is_digit (c : ascii) : bool :=
  match digit_of c with Some _ => true | None => false end.

Definition lower (c : ascii) : ascii :=
  let n := nat_of_ascii c in
  if ((65 <=? Z.of_nat n) && (Z.of_nat n <=? 90)) then ascii_of_nat (n + 32) else c.

Fixpoint lstrip (cs : list ascii) : list ascii :=
  match cs with
  | c :: cs' => if is_space c then lstrip cs' else cs
  | [] => []
  end.

Definition strip (cs : list ascii) : list ascii :=
  rev (lstrip (rev (lstrip cs))).

(** [s.split(sep)] for a one-character separator: never empty. *)
Fixpoint split (sep : ascii) (s : string) : list string :=
  match s with
  | EmptyString => [EmptyString]
  | String c s' =>
      if Ascii.eqb c sep then EmptyString :: split sep s'
      else match split sep s' with
           | w :: ws => String c w :: ws
           | [] => [String c EmptyString]
           end
  end.

(** [s.count(c)] for a character [c]. *)
Fixpoint count_char (c : ascii) (s : string) : nat :=
  match s with
  | EmptyString => O
  | String c' s' => (if Ascii.eqb c' c then 1 else 0) + count_char c s'
  end.

(** ** Numeric literals: [int(str)] and [float(str)] *)

(** A run [digit ("_"? digit)*]; returns the digits and the rest. *)
Fixpoint digit_run (cs : list ascii) : list Z * list ascii :=
  match cs with
  | [] => ([], [])
  | c :: rest =>
      match digit_of c with
      | None => ([], cs)
      | Some d =>
          match rest with
          | u :: ((c2 :: _) as rest2) =>
              if Ascii.eqb u "_" && is_digit c2
              then let (ds, r) := digit_run rest2 in (d :: ds, r)
              else let (ds, r) := digit_run rest in (d :: ds, r)
          | _ => let (ds, r) := digit_run rest in (d :: ds, r)
          end
      end
  end.

Definition digits_value (ds : list Z) : Z :=
  fold_left (fun acc d => 10 * acc + d) ds 0.

(** An optional sign; [true] is minus. *)
Definition read_sign (cs : list ascii) : bool * list ascii :=
  match cs with
  | c :: rest =>
      if Ascii.eqb c "-" then (true, rest)
      else if Ascii.eqb c "+" then (false, rest)
      else (false, cs)
  | [] => (false, [])
  end.

Definition int_of_str (s : string) : outcome Z :=
  let (neg, cs) := read_sign (strip (list_ascii_of_string s)) in
  match digit_run cs with
  | (d :: ds, []) =>
      let n := digits_value (d :: ds) in Ok (if neg then - n else n)
  | _ => Raise (ValueError "invalid literal for int() with base 10")
  end.

(** The binary64 nearest to [(-1)^neg * m * 10^e], ties to even. *)
Definition float_of_decimal (neg : bool) (m e : Z) : spec_float :=
  if m <=? 0 then S754_zero neg
  else if 0 <=? e then
    binary_normalize prec emax (if neg then - (m * 10 ^ e) else m * 10 ^ e) 0 neg
  else
    let '(q, e', l) := SFdiv_core_binary prec emax m 0 (10 ^ (- e)) 0 in
    binary_round_aux prec emax neg q e' l.

Definition float_of_Z (n : Z) : spec_float :=
  binary_normalize prec emax n 0 false.

Definition lower_all (cs : list ascii) : string :=
  string_of_list_ascii (map lower cs).

Definition read_exponent (cs : list ascii) : option (Z * list ascii) :=
  match cs with
  | c :: rest =>
      if Ascii.eqb (lower c) "e" then
        let (neg, r1) := read_sign rest in
        match digit_run r1 with
        | (d :: ds, r2) =>
            let n := digits_value (d :: ds) in
            Some (if neg then - n else n, r2)
        | _ => None
        end
      else Some (0, cs)
  | [] => Some (0, [])
  end.

Definition float_of_str (s : string) : outcome spec_float :=
  let bad := Raise (ValueError "could not convert string to float") in
  let (neg, cs) := read_sign (strip (list_ascii_of_string s)) in
  let word := lower_all cs in
  if String.eqb word "inf" || String.eqb word "infinity" then Ok (S754_infinity neg)
  else if String.eqb word "nan" then Ok S754_nan
  else
    let (ip, r1) := digit_run cs in
    let (fp, r2) :=
      match r1 with
      | c :: rest => if Ascii.eqb c "." then digit_run rest else ([], r1)
      | [] => ([], [])
      end in
    match ip ++ fp with
    | [] => bad
    | _ =>
        match read_exponent r2 with
        | Some (ex, []) =>
            Ok (float_of_decimal neg (digits_value (ip ++ fp))
                  (ex - Z.of_nat (length fp)))
        | _ => bad
        end
    end.

(** Truncation of a finite float towards zero. *)
Definition float_trunc (f : spec_float) : outcome Z :=
  match f with
  | S754_zero _ => Ok 0
  | S754_nan => Raise (ValueError "cannot convert float NaN to integer")
  | S754_infinity _ => Raise (OverflowError "cannot convert float infinity to integer")
  | S754_finite s m e =>
      let a := if 0 <=? e then Z.pos m * 2 ^ e else Z.pos m / 2 ^ (- e) in
      Ok (if s then - a else a)
  end.

(** [int(v)]. *)
Definition py_int (v : pyval) : outcome Z :=
  match v with
  | PInt n => Ok n
  | PBool b => Ok (if b then 1 else 0)
  | PFloat f => float_trunc f
  | PStr s => int_of_str s
  | _ => Raise (TypeError "int() argument must be a string or a real number")
  end.

(** [float(v)]. *)
Definition py_float (v : pyval) : outcome spec_float :=
  match v with
  | PInt n => Ok (float_of_Z n)
  | PBool b => Ok (float_of_Z (if b then 1 else 0))
  | PFloat f => Ok f
  | PStr s => float_of_str s
  | _ => Raise (TypeError "float() argument must be a string or a real number")
  end.

(** The rational a float stands for (0 for a NaN or an infinity). *)
Definition float_to_Q (f : spec_float) : Q :=
  match f with
  | S754_finite s m e =>
      let a := if 0 <=? e then inject_Z (Z.pos m * 2 ^ e)
               else Qmake (Z.pos m) (Z.to_pos (2 ^ (- e))) in
      Qred (if s then Qopp a else a)
  | _ => 0%Q
  end.

Definition str_of_Z (n : Z) : string :=
  NilZero.string_of_int (Z.to_int n).

(** [str(v)] for [None], [bool], [int] and [str]; the [repr] of a float
    and of a container is not modelled. *)
Definition py_str (v : pyval) : outcome string :=
  match v with
  | PStr s => Ok s
  | PInt n => Ok (str_of_Z n)
  | PBool true => Ok "True"
  | PBool false => Ok "False"
  | PNone => Ok "None"
  | _ => Raise (IllTyped "str() of a float or a container")
  end.

End Py.


(* ===================================================================== *)
(** * [datetime]: calendar, [fromtimestamp], [isoformat], [fromisoformat] *)
(* ===================================================================== *)

Module Datetime.
Import Py.

(** A [datetime.datetime]; [utcoffset] is the offset of an aware value in
    minutes ([Some 0] for [timezone.utc]) and [None] for a naive one. *)
Record datetime : Type := mkDatetime {
  year : Z; month : Z; day : Z;
  hour : Z; minute : Z; second : Z; microsecond : Z;
  utcoffset : option Z
}.

Definition is_leap (y : Z) : bool :=
  ((y mod 4 =? 0) && negb (y mod 100 =? 0)) || (y mod 400 =? 0).

Definition days_in_month (y m : Z) : Z :=
  if m =? 2 then (if is_leap y then 29 else 28)
  else if (m =? 4) || (m =? 6) || (m =? 9) || (m =? 11) then 30
  else 31.

(** The range checks of the [datetime] constructor. *)
Definition valid (d : datetime) : bool :=
  (1 <=? year d) && (year d <=? 9999) &&
  (1 <=? month d) && (month d <=? 12) &&
  (1 <=? day d) && (day d <=? days_in_month (year d) (month d)) &&
  (0 <=? hour d) && (hour d <? 24) &&
  (0 <=? minute d) && (minute d <? 60) &&
  (0 <=? second d) && (second d <? 60) &&
  (0 <=? microsecond d) && (microsecond d <? 1000000) &&
  match utcoffset d with
  | None => true
  | Some o => (-1440 <? o) && (o <? 1440)
  end.

(** Proleptic Gregorian date of a day count relative to 1970-01-01. *)
Definition civil_from_days (days : Z) : Z * Z * Z :=
  let z := days + 719468 in
  let era := z / 146097 in
  let doe := z - era * 146097 in
  let yoe := (doe - doe / 1460 + doe / 36524 - doe / 146096) / 365 in
  let doy := doe - (365 * yoe + yoe / 4 - yoe / 100) in
  let mp := (5 * doy + 2) / 153 in
  let d := doy - (153 * mp + 2) / 5 + 1 in
  let m := if mp <? 10 then mp + 3 else mp - 9 in
  let y := yoe + era * 400 in
  (if m <=? 2 then y + 1 else y, m, d).

(** The aware UTC datetime [us] microseconds after the epoch. *)
Definition of_epoch_micros (us : Z) : outcome datetime :=
  let secs := us / 1000000 in
  let '(y, m, d) := civil_from_days (secs / 86400) in
  let sod := secs mod 86400 in
  if (1 <=? y) && (y <=? 9999) then
    Ok (mkDatetime y m d (sod / 3600) (sod mod 3600 / 60) (sod mod 60)
          (us mod 1000000) (Some 0))
  else Raise (ValueError "year is out of range").

(** Nearest integer, ties to even, of [(-1)^s * m * 2^e]. *)
Definition round_half_even (f : spec_float) : Z :=
  match f with
  | S754_finite s m e =>
      let a :=
        if 0 <=? e then Z.pos m * 2 ^ e
        else
          let d := 2 ^ (- e) in
          let q := Z.pos m / d in
          let r := Z.pos m mod d in
          match 2 * r ?= d with
          | Lt => q
          | Gt => q + 1
          | Eq => if Z.even q then q else q + 1
          end in
      if s then - a else a
  | _ => 0
  end.

(** Microseconds of a float time stamp: the integral part is exact, the
    fractional part is scaled by [1e6] in binary64 and rounded half to
    even, as the runtime's conversion does. *)
Definition micros_of_float (f : spec_float) : outcome Z :=
  match f with
  | S754_nan => Raise (ValueError "Invalid value NaN (not a number)")
  | S754_infinity _ => Raise (OverflowError "timestamp out of range")
  | S754_zero _ => Ok 0
  | S754_finite s m e =>
      if 0 <=? e then Ok ((if s then - 1 else 1) * Z.pos m * 2 ^ e * 1000000)
      else
        let d := 2 ^ (- e) in
        let ip := Z.pos m / d in
        let fr := binary_normalize prec emax (Z.pos m mod d) e false in
        let us := round_half_even (SFmul prec emax fr (float_of_Z 1000000)) in
        Ok ((if s then - 1 else 1) * (ip * 1000000 + us))
  end.

(** [datetime.fromtimestamp(t, tz=timezone.utc)]. *)
Definition fromtimestamp_utc (t : pyval) : outcome datetime :=
  match t with
  | PInt n => of_epoch_micros (n * 1000000)
  | PBool b => of_epoch_micros ((if b then 1 else 0) * 1000000)
  | PFloat f => obind (micros_of_float f) of_epoch_micros
  | _ => Raise (TypeError "an integer is required")
  end.

(** ** ISO 8601 text *)

Definition digit_char (d : Z) : ascii := ascii_of_nat (Z.to_nat (48 + d)).

(** [w] decimal digits of [n], most significant first. *)
Fixpoint pad (w : nat) (n : Z) : list ascii :=
  match w with
  | O => []
  | S w' => pad w' (n / 10) ++ [digit_char (n mod 10)]
  end.

Definition offset_text (o : option Z) : list ascii :=
  match o with
  | None => []
  | Some m =>
      (if m <? 0 then "-"%char else "+"%char)
        :: pad 2 (Z.abs m / 60) ++ ":"%char :: pad 2 (Z.abs m mod 60)
  end.

(** [d.isoformat()]. *)
Definition isoformat (d : datetime) : string :=
  string_of_list_ascii
    (pad 4 (year d) ++ "-"%char :: pad 2 (month d) ++ "-"%char :: pad 2 (day d)
       ++ "T"%char :: pad 2 (hour d) ++ ":"%char :: pad 2 (minute d)
       ++ ":"%char :: pad 2 (second d)
       ++ (if microsecond d =? 0 then [] else "."%char :: pad 6 (microsecond d))
       ++ offset_text (utcoffset d)).

(** Exactly [w] digits, then the rest. *)
Fixpoint take_digits (w : nat) (acc : Z) (cs : list ascii) : option (Z * list ascii) :=
  match w with
  | O => Some (acc, cs)
  | S w' =>
      match cs with
      | c :: rest =>
          match digit_of c with
          | Some d => take_digits w' (10 * acc + d) rest
          | None => None
          end
      | [] => None
      end
  end.

Definition expect (c : ascii) (cs : list ascii) : option (list ascii) :=
  match cs with
  | c' :: rest => if Ascii.eqb c' c then Some rest else None
  | [] => None
  end.

Definition parse_fraction (cs : list ascii) : option (Z * list ascii) :=
  match cs with
  | c :: rest => if Ascii.eqb c "." then take_digits 6 0 rest else Some (0, cs)
  | [] => Some (0, [])
  end.

Definition parse_offset (cs : list ascii) : option (option Z) :=
  match cs with
  | [] => Some None
  | c :: rest =>
      let sign := if Ascii.eqb c "-" then Some (-1)
                  else if Ascii.eqb c "+" then Some 1 else None in
      s ← sign;
      '(hh, r1) ← take_digits 2 0 rest;
      r2 ← expect ":" r1;
      '(mm, r3) ← take_digits 2 0 r2;
      match r3 with
      | [] => if (hh <? 24) && (mm <? 60) then Some (Some (s * (60 * hh + mm))) else None
      | _ => None
      end
  end.

Definition parse_iso (cs : list ascii) : option datetime :=
  '(y, r) ← take_digits 4 0 cs;
  r ← expect "-" r;
  '(mo, r) ← take_digits 2 0 r;
  r ← expect "-" r;
  '(d, r) ← take_digits 2 0 r;
  r ← expect "T" r;
  '(h, r) ← take_digits 2 0 r;
  r ← expect ":" r;
  '(mi, r) ← take_digits 2 0 r;
  r ← expect ":" r;
  '(s, r) ← take_digits 2 0 r;
  '(us, r) ← parse_fraction r;
  off ← parse_offset r;
  let dt := mkDatetime y mo d h mi s us off in
  if valid dt then Some dt else None.

(** [datetime.fromisoformat(s)], on the texts [isoformat] produces:
    [YYYY-MM-DDTHH:MM:SS[.ffffff][+HH:MM]]. *)
Definition fromisoformat (s : string) : outcome datetime :=
  match parse_iso (list_ascii_of_string s) with
  | Some d => Ok d
  | None => Raise (ValueError "Invalid isoformat string")
  end.

End Datetime.

(* ===================================================================== *)
(** * [models.py] *)
(* ===================================================================== *)

Module Models.
Import Py Datetime.

Definition _parse_timestamp (seconds : pyval) : outcome datetime :=
  fromtimestamp_utc seconds.

Definition _safe_int (value : pyval) : outcome (option Z) :=
  match py_int value with
  | Ok n => Ok (Some n)
  | Raise (TypeError _) => Ok None
  | Raise (ValueError _) => Ok None
  | Raise e => Raise e
  end.

Record VideoMetadata : Type := mkVideoMetadata {
  aid : Z;
  bvid : string;
  cid : Z;
  title : string;
  keyword : string;
  duration : option Z;
  publish_time : option datetime;
  owner_name : option string;
  view_count : option Z;
  danmaku_count : option Z;
  like_count : option Z;
  ranking_index : option Z
}.

Record DanmakuRecord : Type := mkDanmakuRecord {
  video_bvid : string;
  video_cid : Z;
  content : string;
  appear_time : spec_float;
  send_time : datetime;
  mode : Z;
  font_size : Z;
  font_color : Z;
  author_hash : option string;
  weight : option Z;
  pool : option Z
}.

Record VideoDanmakuBundle : Type := mkBundle {
  video : VideoMetadata;
  danmaku : list DanmakuRecord
}.

(** A [<d>] element of the comment document: [node.attrib.get("p")] and
    [node.text]. *)
Record xml_node : Type := mkNode {
  attrib_p : option string;
  text : option string
}.

(** ** Field narrowing

    The dataclasses are not checked at run time.  A value of the annotated
    type is stored in the typed record; any other value is [IllTyped]. *)

Definition as_int (what : string) (v : pyval) : outcome Z :=
  match v with PInt n => Ok n | _ => Raise (IllTyped what) end.

Definition as_str (what : string) (v : pyval) : outcome string :=
  match v with PStr s => Ok s | _ => Raise (IllTyped what) end.

Definition as_float (what : string) (v : pyval) : outcome spec_float :=
  match v with PFloat f => Ok f | _ => Raise (IllTyped what) end.

Definition as_opt_int (what : string) (v : pyval) : outcome (option Z) :=
  match v with
  | PNone => Ok None
  | PInt n => Ok (Some n)
  | _ => Raise (IllTyped what)
  end.

Definition as_opt_str (what : string) (v : pyval) : outcome (option string) :=
  match v with
  | PNone => Ok None
  | PStr s => Ok (Some s)
  | _ => Raise (IllTyped what)
  end.

Definition of_opt_int (o : option Z) : pyval :=
  match o with Some n => PInt n | None => PNone end.

Definition of_opt_str (o : option string) : pyval :=
  match o with Some s => PStr s | None => PNone end.

(** [x or d]. *)
Definition py_or (x d : pyval) : pyval := if truthy x then x else d.

(** ** [VideoMetadata.from_view_api] *)

Definition from_view_api (payload : pyval) (keyword : string) (cid : Z)
    (ranking_index : option Z) : outcome VideoMetadata :=
  stat0 ← py_get "stat" payload;
  let stat := py_or stat0 (PDict []) in
  owner0 ← py_get "owner" payload;
  let owner := py_or owner0 (PDict []) in
  pubdate ← py_get "pubdate" payload;
  publish_time ←
    (if truthy pubdate
     then (t ← _parse_timestamp pubdate; Ok (Some t))
     else Ok None);
  aid0 ← py_item "aid" payload;
  aid ← py_int aid0;
  bvid0 ← py_item "bvid" payload;
  bvid ← py_str bvid0;
  title ←
    match payload with
    | PDict d =>
        match dict_lookup "title" d with
        | Some v => py_str v
        | None => Ok EmptyString
        end
    | _ => Raise (AttributeError "object has no attribute 'get'")
    end;
  duration0 ← py_get "duration" payload;
  duration ← py_int (py_or duration0 (PInt 0));
  name0 ← py_get "name" owner;
  owner_name ← as_opt_str "owner_name" name0;
  view0 ← py_get "view" stat;
  view_count ← as_opt_int "view_count" view0;
  dm0 ← py_get "danmaku" stat;
  danmaku_count ← as_opt_int "danmaku_count" dm0;
  like0 ← py_get "like" stat;
  like_count ← as_opt_int "like_count" like0;
  Ok {| aid := aid; bvid := bvid; cid := cid; title := title;
        keyword := keyword;
        duration := if duration =? 0 then None else Some duration;
        publish_time := publish_time;
        owner_name := owner_name;
        view_count := view_count;
        danmaku_count := danmaku_count;
        like_count := like_count;
        ranking_index := ranking_index |}.

(** ** [DanmakuRecord.from_xml_node] *)

Definition MalformedRecord : exn := ValueError "Unexpected danmaku payload".

(** The fields of the payload: [node.attrib.get("p")], or the empty string
    when that is falsy, split at the commas. *)
Definition attrs_of (node : xml_node) : list string :=
  split "," (match attrib_p node with
             | Some s => if str_nonempty s then s else EmptyString
             | None => EmptyString
             end).

Definition from_xml_node (node : xml_node) (bvid : string) (cid : Z)
    : outcome DanmakuRecord :=
  let attrs := attrs_of node in
  let attr (i : nat) := nth i attrs EmptyString in
  if Z.of_nat (length attrs) <? 7 then Raise MalformedRecord
  else
    appear_time ← float_of_str (attr 0%nat);
    mode ← int_of_str (attr 1%nat);
    font_size ← int_of_str (attr 2%nat);
    font_color ← int_of_str (attr 3%nat);
    send_ts ← float_of_str (attr 4%nat);
    let author_hash := if str_nonempty (attr 5%nat) then Some (attr 5%nat) else None in
    pool ← _safe_int (PStr (attr 6%nat));
    weight ←
      (if 7 <? Z.of_nat (length attrs)
       then _safe_int (PStr (attr 7%nat)) else Ok None);
    send_time ← _parse_timestamp (PFloat send_ts);
    Ok {| video_bvid := bvid; video_cid := cid;
          content := match text node with
                     | Some s => s
                     | None => EmptyString
                     end;
          appear_time := appear_time;
          send_time := send_time;
          mode := mode; font_size := font_size; font_color := font_color;
          author_hash := author_hash;
          weight := weight; pool := pool |}.

(** ** [VideoDanmakuBundle.to_dict] *)

Definition record_to_dict (record : DanmakuRecord) : pyval :=
  PDict [ ("video_bvid", PStr (video_bvid record));
          ("video_cid", PInt (video_cid record));
          ("content", PStr (content record));
          ("appear_time", PFloat (appear_time record));
          ("send_time", PStr (isoformat (send_time record)));
          ("mode", PInt (mode record));
          ("font_size", PInt (font_size record));
          ("font_color", PInt (font_color record));
          ("author_hash", of_opt_str (author_hash record));
          ("weight", of_opt_int (weight record));
          ("pool", of_opt_int (pool record)) ].

Definition to_dict (self : VideoDanmakuBundle) : pyval :=
  let v := video self in
  PDict [ ("video",
           PDict [ ("aid", PInt (aid v));
                   ("bvid", PStr (bvid v));
                   ("cid", PInt (cid v));
                   ("title", PStr (title v));
                   ("keyword", PStr (keyword v));
                   ("duration", of_opt_int (duration v));
                   ("publish_time",
                    match publish_time v with
                    | Some t => PStr (isoformat t)
                    | None => PNone
                    end);
                   ("owner_name", of_opt_str (owner_name v));
                   ("view_count", of_opt_int (view_count v));
                   ("danmaku_count", of_opt_int (danmaku_count v));
                   ("like_count", of_opt_int (like_count v));
                   ("ranking_index", of_opt_int (ranking_index v)) ]);
          ("danmaku", PList (map record_to_dict (danmaku self))) ].

(** ** [VideoDanmakuBundle.from_dict] *)

(** [datetime.fromisoformat(v)]: the argument must be a [str]. *)
Definition fromisoformat_val (v : pyval) : outcome datetime :=
  match v with
  | PStr s => fromisoformat s
  | _ => Raise (TypeError "fromisoformat: argument must be str")
  end.

Definition record_from_dict (item : pyval) : outcome DanmakuRecord :=
  v_bvid ← py_item "video_bvid" item;
  video_bvid ← as_str "video_bvid" v_bvid;
  v_cid ← py_item "video_cid" item;
  video_cid ← as_int "video_cid" v_cid;
  v_content ← py_item "content" item;
  content ← as_str "content" v_content;
  v_appear ← py_item "appear_time" item;
  appear_time ← as_float "appear_time" v_appear;
  v_send ← py_item "send_time" item;
  send_time ← fromisoformat_val v_send;
  v_mode ← py_item "mode" item;
  mode ← as_int "mode" v_mode;
  v_size ← py_item "font_size" item;
  font_size ← as_int "font_size" v_size;
  v_color ← py_item "font_color" item;
  font_color ← as_int "font_color" v_color;
  v_hash ← py_get "author_hash" item;
  author_hash ← as_opt_str "author_hash" v_hash;
  v_weight ← py_get "weight" item;
  weight ← as_opt_int "weight" v_weight;
  v_pool ← py_get "pool" item;
  pool ← as_opt_int "pool" v_pool;
  Ok {| video_bvid := video_bvid; video_cid := video_cid; content := content;
        appear_time := appear_time; send_time := send_time; mode := mode;
        font_size := font_size; font_color := font_color;
        author_hash := author_hash; weight := weight; pool := pool |}.

Definition metadata_from_dict (video : pyval) : outcome VideoMetadata :=
  v_aid ← py_item "aid" video;
  aid ← as_int "aid" v_aid;
  v_bvid ← py_item "bvid" video;
  bvid ← as_str "bvid" v_bvid;
  v_cid ← py_item "cid" video;
  cid ← as_int "cid" v_cid;
  v_title ← py_item "title" video;
  title ← as_str "title" v_title;
  v_keyword ← py_item "keyword" video;
  keyword ← as_str "keyword" v_keyword;
  v_duration ← py_get "duration" video;
  duration ← as_opt_int "duration" v_duration;
  v_publish ← py_get "publish_time" video;
  publish_time ←
    (if truthy v_publish
     then (raw ← py_item "publish_time" video;
           t ← fromisoformat_val raw; Ok (Some t))
     else Ok None);
  v_owner ← py_get "owner_name" video;
  owner_name ← as_opt_str "owner_name" v_owner;
  v_view ← py_get "view_count" video;
  view_count ← as_opt_int "view_count" v_view;
  v_dm ← py_get "danmaku_count" video;
  danmaku_count ← as_opt_int "danmaku_count" v_dm;
  v_like ← py_get "like_count" video;
  like_count ← as_opt_int "like_count" v_like;
  v_rank ← py_get "ranking_index" video;
  ranking_index ← as_opt_int "ranking_index" v_rank;
  Ok {| aid := aid; bvid := bvid; cid := cid; title := title;
        keyword := keyword; duration := duration;
        publish_time := publish_time; owner_name := owner_name;
        view_count := view_count; danmaku_count := danmaku_count;
        like_count := like_count; ranking_index := ranking_index |}.

Definition from_dict (payload : pyval) : outcome VideoDanmakuBundle :=
  video ← py_item "video" payload;
  danmaku_list ←
    match payload with
    | PDict d =>
        match dict_lookup "danmaku" d with
        | Some v => Ok v
        | None => Ok (PList [])
        end
    | _ => Raise (AttributeError "object has no attribute 'get'")
    end;
  metadata ← metadata_from_dict video;
  items ← py_iter danmaku_list;
  records ← omapM record_from_dict items;
  Ok {| video := metadata; danmaku := records |}.

End Models.

(* ===================================================================== *)
(** * [persistence.py] *)
(* ===================================================================== *)

Module Persistence.
Import Py Models.

(** What a file of the raw-data directory holds: the JSON text of a
    document ([json.dumps] and [json.loads] are inverse on the value
    trees of [pyval]), or text that is not JSON. *)
Inductive file : Type :=
| JsonText (doc : pyval)
| Garbled.

(** The raw-data directory, by file name. *)
Abbreviation store := (gmap string file).

(** [raw_dir / f"{bvid}.json"], relative to [raw_dir]. *)
Definition bundle_path (bvid : string) : string := bvid +:+ ".json".

Definition dump_bundle (bundle : VideoDanmakuBundle) (fs : store) : string * store :=
  let json_path := bundle_path (bvid (video bundle)) in
  (json_path, <[json_path := JsonText (to_dict bundle)]> fs).

Definition load_bundle (fs : store) (path : string) : outcome VideoDanmakuBundle :=
  match fs !! path with
  | None => Raise (FileNotFoundError path)
  | Some Garbled => Raise JSONDecodeError
  | Some (JsonText doc) => from_dict doc
  end.

End Persistence.

(* ===================================================================== *)
(** * [config.py] *)
(* ===================================================================== *)

Module Config.
Import Py.

(** The knobs of [CrawlerConfig] the crawler reads.  A float duration is a
    rational number of seconds. *)
Record CrawlerConfig : Type := mkConfig {
  keywords : list string;
  max_videos : Z;
  order : string;
  pages_per_keyword : option Z;
  concurrent_requests : Z;
  retry_attempts : Z;
  user_agent : string;
  sleep_interval : Q;
  enable_cache : bool;
  referer : string;
  accept_language : string
}.

Definition build_headers (self : CrawlerConfig) : list (string * string) :=
  [ ("User-Agent", user_agent self);
    ("Referer", referer self);
    ("Accept", "application/json, text/plain, */*");
    ("Accept-Language", accept_language self);
    ("Connection", "keep-alive") ].

(** The defaults of the dataclass. *)
Definition default_config : CrawlerConfig :=
  {| keywords := ["大语言模型"; "大模型"; "LLM"];
     max_videos := 360;
     order := "totalrank";
     pages_per_keyword := None;
     concurrent_requests := 2;
     retry_attempts := 3;
     user_agent := "Mozilla/5.0 (Macintosh; Intel Mac OS X 14_0) AppleWebKit/537.36 (KHTML, like Gecko) Chrome/120.0.0.0 Safari/537.36";
     sleep_interval := 2 # 5;
     enable_cache := true;
     referer := "https://www.bilibili.com";
     accept_language := "zh-CN,zh;q=0.9,en;q=0.8" |}.

End Config.

(* ===================================================================== *)
(** * [crawler.py] *)
(* ===================================================================== *)

Module Crawler.
Import Py Datetime Models Persistence Config.

Definition SEARCH_API : string := "https://api.bilibili.com/x/web-interface/search/type".
Definition VIEW_API : string := "https://api.bilibili.com/x/web-interface/view".
Definition DM_LIST_API : string := "https://api.bilibili.com/x/v1/dm/list.so".

(** ** The network and the world *)

Record request : Type := mkRequest {
  url : string;
  params : list (string * pyval);
  headers : option (list (string * string))
}.

(** A response: its status and what its body decodes to, as JSON
    ([response.json()]) and as a comment document (the [<d>] children of
    the root of [ET.fromstring(response.text)]); [None] when the body is
    not of that form. *)
Record response : Type := mkResponse {
  status_code : Z;
  body_json : option pyval;
  body_xml : option (list xml_node)
}.

(** What [client.get] does: it raises, or it returns a response. *)
Inductive attempt : Type :=
| Fails (e : exn)
| Responds (r : response).

Inductive event : Type :=
| Sleep (seconds : Q)
| Get (r : request).

Record world : Type := mkWorld {
  log : list event;
  files : gmap string file
}.

(** The upstream service: its answer to a request may depend on everything
    that happened before. *)
Definition network : Type := list event -> request -> attempt.

(** Computations of the crawler: they change the world and return or
    raise. *)
Definition M (A : Type) : Type := world -> outcome A * world.

Definition ret {A} (a : A) : M A := fun w => (Ok a, w).
Definition raise {A} (e : exn) : M A := fun w => (Raise e, w).
Definition bind {A B} (m : M A) (k : A -> M B) : M B :=
  fun w => match m w with
           | (Ok a, w') => k a w'
           | (Raise e, w') => (Raise e, w')
           end.
Definition lift {A} (o : outcome A) : M A := fun w => (o, w).

Global Instance M_bind : MBind M := fun A B k m => bind m k.
Global Instance M_ret : MRet M := fun A a => ret a.

(** [try: m  except httpx.HTTPStatusError as exc: h exc.response.status_code]. *)
Definition try_except_http {A} (m : M A) (h : Z -> M A) : M A :=
  fun w => match m w with
           | (Raise (HTTPStatusError st), w') => h st w'
           | r => r
           end.

Definition emit (e : event) : M unit :=
  fun w => (Ok tt, {| log := log w ++ [e]; files := files w |}).

(** [await asyncio.sleep(seconds)]. *)
Definition sleep (seconds : Q) : M unit := emit (Sleep seconds).

Section WithEnvironment.

Variable net : network.
Variable config : CrawlerConfig.

(** [await client.get(url, params=params, headers=headers)]. *)
Definition client_get (req : request) : M response :=
  fun w =>
    let w' := {| log := log w ++ [Get req]; files := files w |} in
    match net (log w) req with
    | Fails e => (Raise e, w')
    | Responds r => (Ok r, w')
    end.

(** [response.raise_for_status()]. *)
Definition raise_for_status (r : response) : M unit :=
  if (200 <=? status_code r) && (status_code r <? 300) then ret tt
  else raise (HTTPStatusError (status_code r)).

Definition q_truthy (q : Q) : bool := negb (Qeq_bool q 0).

(** ** [_request]

    The body of the [try] block: pacing delay, GET, status check. *)
Definition attempt_once (req : request) : M response :=
  _ ← (if q_truthy (sleep_interval config)
       then sleep (sleep_interval config) else ret tt);
  response ← client_get req;
  _ ← raise_for_status response;
  ret response.

(** The [while True] loop, entered with [attempts] failures so far.  An
    iteration that fails either re-raises or sleeps and loops; [fuel]
    bounds the iterations still allowed, and [_request] starts the loop
    with enough of it. *)
Fixpoint request_loop (fuel : nat) (req : request) (attempts : Z) : M response :=
  fun w =>
    match attempt_once req w with
    | (Ok response, w') => (Ok response, w')
    | (Raise exc, w') =>
        let attempts := attempts + 1 in
        if attempts >=? retry_attempts config then (Raise exc, w')
        else
          match sleep ((3 # 2) * inject_Z attempts)%Q w' with
          | (_, w'') =>
              match fuel with
              | O => (Raise exc, w'')
              | S fuel' => request_loop fuel' req attempts w''
              end
          end
    end.

Definition _request (req : request) : M response :=
  request_loop (Z.to_nat (retry_attempts config)) req 0.

Definition _request_json (req : request) : M pyval :=
  response ← _request req;
  match body_json response with
  | Some doc => ret doc
  | None => raise JSONDecodeError
  end.

Definition _build_video_headers (bvid : string) : list (string * string) :=
  map (fun kv => if String.eqb (fst kv) "Referer"
                 then (fst kv, "https://www.bilibili.com/video/" +:+ bvid)
                 else kv)
      (build_headers config).

(** ** [_search_keyword] *)

Definition search_request (keyword : string) (page : Z) : request :=
  {| url := SEARCH_API;
     params := [ ("search_type", PStr "video"); ("keyword", PStr keyword);
                 ("page", PInt page); ("order", PStr (order config)) ];
     headers := None |}.

Definition len {A} (l : list A) : Z := Z.of_nat (length l).

(** The inner [for item in items] loop with its [break]. *)
Fixpoint extend (per_keyword : Z) (results items : list pyval) : list pyval :=
  match items with
  | [] => results
  | item :: rest =>
      let results := results ++ [item] in
      if (len results >=? per_keyword) || (len results >=? max_videos config)
      then results
      else extend per_keyword results rest
  end.

(** [self.config.pages_per_keyword and page > self.config.pages_per_keyword]. *)
Definition ceiling_hit (page : Z) : bool :=
  match pages_per_keyword config with
  | Some n => negb (n =? 0) && (page >? n)
  | None => false
  end.

(** [(payload.get("data") or {}).get("result") or []]. *)
Definition result_items (payload : pyval) : outcome pyval :=
  data ← py_get "data" payload;
  result ← py_get "result" (py_or data (PDict []));
  Ok (py_or result (PList [])).

(** The [while len(results) < per_keyword] loop; [fuel] as in
    [request_loop]: every iteration that loops adds a result, and
    [_search_keyword] starts the loop with [per_keyword] of it. *)
Fixpoint search_loop (fuel : nat) (keyword : string) (per_keyword : Z)
    (results : list pyval) (page : Z) : M (list pyval) :=
  if len results <? per_keyword then
    payload ← _request_json (search_request keyword page);
    items ← lift (result_items payload);
    if negb (truthy items) then ret results
    else
      its ← lift (py_iter items);
      let results := extend per_keyword results its in
      let page := page + 1 in
      if ceiling_hit page then ret results
      else match fuel with
           | O => ret results
           | S fuel' => search_loop fuel' keyword per_keyword results page
           end
  else ret results.

Definition _search_keyword (keyword : string) (per_keyword : Z) : M (list pyval) :=
  results ← search_loop (Z.to_nat per_keyword) keyword per_keyword [] 1;
  ret (firstn (Z.to_nat per_keyword) results).

(** ** [_fetch_danmaku] *)

Definition _fetch_danmaku (cid : Z) (bvid : string) : M (list xml_node) :=
  response ← _request {| url := DM_LIST_API;
                         params := [("oid", PInt cid)];
                         headers := Some (_build_video_headers bvid) |};
  match body_xml response with
  | Some nodes => ret nodes
  | None => raise ParseError
  end.

(** ** [_collect_video_bundle] *)

(** [search_item.get("bvid")] as a short id: a falsy value is no id, and
    a short id is a [str]. *)
Definition item_bvid (search_item : pyval) : outcome (option string) :=
  v ← py_get "bvid" search_item;
  if negb (truthy v) then Ok None
  else match v with
       | PStr s => Ok (Some s)
       | _ => Raise (IllTyped "bvid")
       end.

Definition path_exists (path : string) : M bool :=
  fun w => (Ok (bool_decide (is_Some (files w !! path))), w).

Definition load_bundle_io (path : string) : M VideoDanmakuBundle :=
  fun w => (load_bundle (files w) path, w).

Definition dump_bundle_io (bundle : VideoDanmakuBundle) : M string :=
  fun w => let (p, fs) := dump_bundle bundle (files w) in
           (Ok p, {| log := log w; files := fs |}).

Definition _collect_video_bundle (search_item : pyval) (keyword : string)
    (ranking_index : Z) : M (option VideoDanmakuBundle) :=
  bvid0 ← lift (item_bvid search_item);
  match bvid0 with
  | None => ret None
  | Some bvid =>
      let cached_path := bundle_path bvid in
      hit ← path_exists cached_path;
      if enable_cache config && hit then
        b ← load_bundle_io cached_path; ret (Some b)
      else
        view ← try_except_http
                 (p ← _request_json
                        {| url := VIEW_API;
                           params := [("bvid", PStr bvid)];
                           headers := Some (_build_video_headers bvid) |};
                  ret (Some p))
                 (fun _ => ret None);
        match view with
        | None => ret None
        | Some view_payload =>
            data ← lift (py_get "data" view_payload);
            if negb (truthy data) then ret None
            else
              cid ← lift (py_get "cid" data);
              match cid with
              | PNone => ret None
              | _ =>
                  cid_int ← lift (py_int cid);
                  metadata ← lift (from_view_api data keyword cid_int
                                     (Some ranking_index));
                  cid_int' ← lift (py_int cid);
                  danmaku_nodes ←
                    try_except_http
                      (_fetch_danmaku cid_int' (Models.bvid metadata))
                      (fun _ => ret []);
                  danmaku_records ←
                    lift (omapM (fun node =>
                                   from_xml_node node (Models.bvid metadata)
                                     (Models.cid metadata))
                                danmaku_nodes);
                  let bundle := {| video := metadata; danmaku := danmaku_records |} in
                  _ ← (if enable_cache config
                       then (_ ← dump_bundle_io bundle; ret tt) else ret tt);
                  ret (Some bundle)
              end
        end
  end.

(** Runs [_collect_video_bundle] inside [async with self._semaphore]; the
    semaphore itself is the transition system of [Semaphore] below. *)
Definition _bounded_collect_video_bundle (search_item : pyval)
    (keyword : string) (ranking_index : Z) : M (option VideoDanmakuBundle) :=
  _collect_video_bundle search_item keyword ranking_index.

(** ** [crawl] *)

(** A scheduled unit: the arguments of one
    [_bounded_collect_video_bundle] call. *)
Record task : Type := mkTask {
  task_item : pyval;
  task_keyword : string;
  task_rank : Z
}.

(** The locals [tasks], [ranking_index] and [seen_bvids]. *)
Record sched : Type := mkSched {
  tasks : list task;
  rank : Z;
  seen_bvids : gset string
}.

Definition sched0 : sched := {| tasks := []; rank := 0; seen_bvids := ∅ |}.

(** One iteration of [for result in search_results]. *)
Definition scan_result (keyword : string) (st : sched) (result : pyval)
    : outcome sched :=
  bvid ← item_bvid result;
  match bvid with
  | None => Ok st
  | Some b =>
      if bool_decide (b ∈ seen_bvids st) then Ok st
      else
        let ranking_index := rank st + 1 in
        Ok {| tasks := tasks st ++ [mkTask result keyword ranking_index];
              rank := ranking_index;
              seen_bvids := ({[ b ]} ∪ seen_bvids st) |}
  end.

Fixpoint scan_results (keyword : string) (st : sched) (results : list pyval)
    : outcome sched :=
  match results with
  | [] => Ok st
  | r :: rest => st' ← scan_result keyword st r; scan_results keyword st' rest
  end.

Definition per_keyword_share : Z :=
  Z.max 1 (max_videos config / Z.max 1 (len (keywords config))).

(** The [for keyword in self.config.keywords_iter()] loop. *)
Fixpoint schedule_keywords (kws : list string) (st : sched) : M sched :=
  match kws with
  | [] => ret st
  | keyword :: rest =>
      search_results ← _search_keyword keyword per_keyword_share;
      st' ← lift (scan_results keyword st search_results);
      schedule_keywords rest st'
  end.

(** The [for coro in asyncio.as_completed(tasks)] loop over the units in
    the order they complete; here each unit runs to completion before the
    next one starts. *)
Fixpoint gather (completing : list task) (bundles : list VideoDanmakuBundle)
    : M (list VideoDanmakuBundle) :=
  match completing with
  | [] => ret bundles
  | t :: rest =>
      bundle ← _bounded_collect_video_bundle (task_item t) (task_keyword t)
                 (task_rank t);
      gather rest (match bundle with
                   | Some b => bundles ++ [b]
                   | None => bundles
                   end)
  end.

(** [crawl], with the completion order of the units chosen by
    [completion]. *)
Definition crawl (completion : list task -> list task)
    : M (list VideoDanmakuBundle) :=
  st ← schedule_keywords (keywords config) sched0;
  gather (completion (tasks st)) [].

End WithEnvironment.

End Crawler.

(* ===================================================================== *)
(** * The semaphore of [BilibiliCrawler] *)
(* ===================================================================== *)

(** [__init__] creates [asyncio.Semaphore(max(1, concurrent_requests))] and
    every unit runs as [async with self._semaphore: ...].  The units and
    the counter of the semaphore form a transition system: a waiting unit
    enters its body when the counter is positive and decrements it; a unit
    leaving its body (by return or by exception) increments it. *)
Module Semaphore.
Import Config.

Inductive phase : Type := Waiting | Running | Finished.

Record state : Type := mkState {
  value : Z;
  units : list phase
}.

Inductive action : Type :=
| Acquire (i : nat)
| Release (i : nat).

Definition limit (config : CrawlerConfig) : Z :=
  Z.max 1 (concurrent_requests config).

Definition init (config : CrawlerConfig) (n : nat) : state :=
  {| value := limit config; units := replicate n Waiting |}.

Definition step (s : state) (a : action) : option state :=
  match a with
  | Acquire i =>
      match units s !! i with
      | Some Waiting =>
          if 0 <? value s
          then Some {| value := value s - 1; units := <[i := Running]> (units s) |}
          else None
      | _ => None
      end
  | Release i =>
      match units s !! i with
      | Some Running =>
          Some {| value := value s + 1; units := <[i := Finished]> (units s) |}
      | _ => None
      end
  end.

Fixpoint run (s : state) (acts : list action) : option state :=
  match acts with
  | [] => Some s
  | a :: rest => s' ← step s a; run s' rest
  end.

Fixpoint running (us : list phase) : Z :=
  match us with
  | [] => 0
  | Running :: rest => 1 + running rest
  | _ :: rest => running rest
  end.

(** The units inside [async with self._semaphore]. *)
Definition in_flight (s : state) : Z := running (units s).

End Semaphore.

(* ===================================================================== *)
(** * Vocabulary of the properties *)
(* ===================================================================== *)

Module Spec.
Import Py Datetime Models Persistence Config Crawler.

(** ** Well-formed bundles: every time stamp passes the constructor's
    range checks *)

Definition valid_opt (o : option datetime) : bool :=
  match o with Some d => valid d | None => true end.

Definition wf_bundle (b : VideoDanmakuBundle) : Prop :=
  valid_opt (publish_time (video b)) = true /\
  Forall (fun r => valid (send_time r) = true) (danmaku b).

(** The world after some more events. *)
Definition add_events (w : world) (evs : list event) : world :=
  {| log := log w ++ evs; files := files w |}.

(** ** Retries *)

(** How an attempt fails, if it does. *)
Definition attempt_failure (a : attempt) : option exn :=
  match a with
  | Fails e => Some e
  | Responds r =>
      if (200 <=? status_code r) && (status_code r <? 300) then None
      else Some (HTTPStatusError (status_code r))
  end.

(** The events of one attempt: the pacing delay, if any, and the GET. *)
Definition attempt_events (config : CrawlerConfig) (req : request) : list event :=
  (if q_truthy (sleep_interval config) then [Sleep (sleep_interval config)] else [])
    ++ [Get req].

(** The wait after the failed attempt [k] of a client with ceiling [n]:
    [1.5 * k] seconds, and none after the last attempt. *)
Definition backoff_events (n k : Z) : list event :=
  if k <? n then [Sleep ((3 # 2) * inject_Z k)%Q] else [].

(** The events of the failed attempts [from, from+1, ..., n]. *)
Definition failed_events (config : CrawlerConfig) (req : request) (n from : Z)
    : list event :=
  flat_map (fun k => attempt_events config req ++ backoff_events n k)
           (seqZ from (n - from + 1)).

Fixpoint count_gets (l : list event) : Z :=
  match l with
  | [] => 0
  | Get _ :: rest => 1 + count_gets rest
  | Sleep _ :: rest => count_gets rest
  end.

Fixpoint total_sleep (l : list event) : Q :=
  match l with
  | [] => 0%Q
  | Sleep d :: rest => (d + total_sleep rest)%Q
  | Get _ :: rest => total_sleep rest
  end.

(** ** Pagination *)

Section Paging.
Variable net : network.
Variable config : CrawlerConfig.

(** One search page: the items of [page], [[]] for an empty page. *)
Definition fetch_page (keyword : string) (page : Z) : M (list pyval) :=
  payload ← _request_json net config (search_request config keyword page);
  items ← lift (result_items payload);
  if negb (truthy items) then ret [] else lift (py_iter items).

(** [fetched keyword p w pages w']: from world [w], the pages
    [p, p+1, ...] were fetched in turn, gave [pages], and left [w']. *)
Inductive fetched (keyword : string) : Z -> world -> list (list pyval) -> world -> Prop :=
| fetched_nil p w : fetched keyword p w [] w
| fetched_cons p w its w1 rest w2 :
    fetch_page keyword p w = (Ok its, w1) ->
    fetched keyword (p + 1) w1 rest w2 ->
    fetched keyword p w (its :: rest) w2.


(** After pages [page0, page0+1, ...] gave [pages], on top of [results0],
    a stop condition holds: the last page was empty, the share is met, or
    the page ceiling is hit. *)
Definition stops_after_from (per_keyword : Z) (results0 : list pyval) (page0 : Z)
    (pages : list (list pyval)) : bool :=
  match last pages with
  | Some [] => true
  | _ =>
      (per_keyword <=? len (fold_left (extend config per_keyword) pages results0))
      || ceiling_hit config (page0 + len pages)
  end.


(** The searches of [crawl] alone. *)
Fixpoint search_all (kws : list string) : M (list (string * list pyval)) :=
  match kws with
  | [] => ret []
  | keyword :: rest =>
      results ← _search_keyword net config keyword (per_keyword_share config);
      found ← search_all rest;
      ret ((keyword, results) :: found)
  end.

End Paging.

(** The info lookup of a unit. *)
Definition view_request (config : CrawlerConfig) (bvid : string) : request :=
  {| url := VIEW_API;
     params := [("bvid", PStr bvid)];
     headers := Some (_build_video_headers config bvid) |}.

(** The unit of a scheduled task. *)
Definition run_task (net : network) (config : CrawlerConfig) (t : task)
    : M (option VideoDanmakuBundle) :=
  _bounded_collect_video_bundle net config (task_item t) (task_keyword t)
    (task_rank t).

(** ** Discovery *)

(** The short id of a search result, if it has one. *)
Definition bvid_of (item : pyval) : option string :=
  match item_bvid item with
  | Ok (Some b) => Some b
  | _ => None
  end.

Definition task_bvid (t : task) : option string := bvid_of (task_item t).

(** The short ids among some search results. *)
Definition bvids_of (results : list pyval) : list string :=
  omap bvid_of results.

(** The short ids of some scheduled units. *)
Definition ids (ts : list task) : list string := omap task_bvid ts.

(** The scan of [crawl] over the results found for each keyword. *)
Fixpoint scan_all (found : list (string * list pyval)) (st : sched) : outcome sched :=
  match found with
  | [] => Ok st
  | (keyword, results) :: rest =>
      st' ← scan_results keyword st results; scan_all rest st'
  end.

(** All the short ids found, in discovery order: keyword by keyword, and
    in the order of the results of each keyword. *)
Definition discovered (found : list (string * list pyval)) : list string :=
  flat_map (fun kr => bvids_of (snd kr)) found.

(** The first occurrence of each element, in order. *)
Fixpoint first_occurrences (l : list string) : list string :=
  match l with
  | [] => []
  | b :: l' => b :: filter (fun x => x <> b) (first_occurrences l')
  end.

(** The first keyword whose results contain the short id [b]. *)
Fixpoint first_keyword (found : list (string * list pyval)) (b : string)
    : option string :=
  match found with
  | [] => None
  | (keyword, results) :: rest =>
      if bool_decide (b ∈ bvids_of results) then Some keyword
      else first_keyword rest b
  end.

End Spec.

(* ===================================================================== *)
(** * Concrete runs *)
(* ===================================================================== *)

Module Scenarios.
Import Py Datetime Models Persistence Config Crawler Spec.

(** A client that tries once, does not pace and does not cache. *)
Definition plain_config : CrawlerConfig :=
  {| keywords := ["LLM"];
     max_videos := 3;
     order := "totalrank";
     pages_per_keyword := None;
     concurrent_requests := 1;
     retry_attempts := 1;
     user_agent := "Mozilla/5.0";
     sleep_interval := 0;
     enable_cache := false;
     referer := "https://www.bilibili.com";
     accept_language := "zh-CN" |}.

(** The same with the default three attempts. *)
Definition retry_config : CrawlerConfig :=
  {| keywords := ["LLM"];
     max_videos := 3;
     order := "totalrank";
     pages_per_keyword := None;
     concurrent_requests := 1;
     retry_attempts := 3;
     user_agent := "Mozilla/5.0";
     sleep_interval := 0;
     enable_cache := false;
     referer := "https://www.bilibili.com";
     accept_language := "zh-CN" |}.

(** Two keywords and a cache. *)
Definition caching_config : CrawlerConfig :=
  {| keywords := ["LLM"; "GPT"];
     max_videos := 8;
     order := "totalrank";
     pages_per_keyword := None;
     concurrent_requests := 2;
     retry_attempts := 3;
     user_agent := "Mozilla/5.0";
     sleep_interval := 2 # 5;
     enable_cache := true;
     referer := "https://www.bilibili.com";
     accept_language := "zh-CN" |}.

Definition json_response (doc : pyval) : attempt :=
  Responds {| status_code := 200; body_json := Some doc; body_xml := None |}.

Definition xml_response (nodes : list xml_node) : attempt :=
  Responds {| status_code := 200; body_json := None; body_xml := Some nodes |}.

Definition status_response (status : Z) : attempt :=
  Responds {| status_code := status; body_json := None; body_xml := None |}.

Definition search_doc (items : list pyval) : pyval :=
  PDict [("data", PDict [("result", PList items)])].

Definition search_item (bvid : string) : pyval := PDict [("bvid", PStr bvid)].

(** A service whose first search page is [items] and whose later pages
    are empty, and which answers every info lookup with [view] and every
    comment request with [dm]. *)
Definition service (items : list pyval) (view dm : attempt) : network :=
  fun _ req =>
    if String.eqb (url req) SEARCH_API then
      match dict_lookup "page" (params req) with
      | Some (PInt 1) => json_response (search_doc items)
      | _ => json_response (search_doc [])
      end
    else if String.eqb (url req) VIEW_API then view
    else dm.

(** A service that is down. *)
Definition unreachable : network := fun _ _ => Fails (TransportError "ConnectError").

Definition empty_world : world := {| log := []; files := ∅ |}.

(** Search finds [BV1]; its info lookup cannot connect. *)
Definition view_unreachable : network :=
  service [search_item "BV1"] (Fails (TransportError "ConnectError")) (xml_response []).


(** Search finds [BV1]; the info payload carries an empty short id. *)
Definition view_without_id : network :=
  service [search_item "BV1"]
    (json_response
       (PDict [("data", PDict [("aid", PInt 1); ("bvid", PStr EmptyString);
                               ("cid", PInt 2)])]))
    (xml_response []).

(** Search finds [BV1], an item without short id, [BV2] and [BV1] again,
    under every keyword. *)
Definition two_videos : network :=
  service [search_item "BV1"; PDict [("title", PStr "x")]; search_item "BV2";
           search_item "BV1"]
    (status_response 404) (xml_response []).


(** A run of three units under the default limit of two. *)
Definition sample_actions : list Semaphore.action :=
  [Semaphore.Acquire 0; Semaphore.Acquire 1; Semaphore.Release 0;
   Semaphore.Acquire 2].

Definition sample_time : datetime :=
  {| year := 2023; month := 11; day := 14; hour := 22; minute := 13;
     second := 20; microsecond := 0; utcoffset := Some 0 |}.

Definition sample_record : DanmakuRecord :=
  {| video_bvid := "BV1"; video_cid := 2; content := "hello";
     appear_time := S754_finite false 7036874417766400 (-49);
     send_time := sample_time; mode := 1; font_size := 25;
     font_color := 16777215; author_hash := None; weight := None;
     pool := Some 0 |}.

(** A bundle with absent and present optional fields. *)
Definition sample_bundle : VideoDanmakuBundle :=
  {| video := {| aid := 1; bvid := "BV1"; cid := 2; title := "t";
                 keyword := "LLM"; duration := None;
                 publish_time := Some sample_time; owner_name := None;
                 view_count := Some 0; danmaku_count := None;
                 like_count := None; ranking_index := Some 1 |};
     danmaku := [sample_record; sample_record] |}.

(** A world whose cache holds [sample_bundle]. *)
Definition cached_world : world :=
  {| log := []; files := snd (dump_bundle sample_bundle ∅) |}.

End Scenarios.

(* ===================================================================== *)
(** * Further vocabulary: retries, file footprint, directory listing,
      semaphore progress, command line *)
(* ===================================================================== *)

Module Retry.
Import Py Models Persistence Config Crawler Spec.

(** The events of [count] failed attempts numbered from [from], each
    followed by its backoff of [1.5 * attempt] seconds. *)
Definition retry_events (config : CrawlerConfig) (req : request) (from count : Z)
    : list event :=
  flat_map (fun k => attempt_events config req ++ [Sleep ((3 # 2) * inject_Z k)%Q])
           (seqZ from count).

(** What the service sees when the next GET of [req] arrives after the
    events [evs]: the pacing delay has been slept, the GET is not yet
    logged. *)
Definition next_answer (net : network) (config : CrawlerConfig) (req : request)
    (w : world) (evs : list event) : attempt :=
  net (log w ++ evs ++ removelast (attempt_events config req)) req.

(** The request of [_fetch_danmaku]. *)
Definition danmaku_request (config : CrawlerConfig) (cid : Z) (bvid : string) : request :=
  {| url := DM_LIST_API;
     params := [("oid", PInt cid)];
     headers := Some (_build_video_headers config bvid) |}.

Definition is_success (r : response) : bool :=
  (200 <=? status_code r) && (status_code r <? 300).

End Retry.

Module Footprint.
Import Py Models Persistence Config Crawler Spec.



(** The cache file of a bundle: its name and its content. *)
Definition cache_name (b : VideoDanmakuBundle) : string :=
  bundle_path (bvid (video b)).

Definition cache_file (b : VideoDanmakuBundle) : file := JsonText (to_dict b).


(** A raw-data directory in which every file is the cache file of a
    well-formed bundle. *)
Definition consistent (fs : store) : Prop :=
  forall path f,
    fs !! path = Some f ->
    exists b, wf_bundle b /\ path = cache_name b /\ f = cache_file b.

End Footprint.

Module Directory.
Import Py Models Persistence.
Import stdpp.sorting.

(** [suffix] ends [s]. *)
Fixpoint ends_with (suffix s : string) : bool :=
  String.eqb s suffix ||
  match s with
  | EmptyString => false
  | String _ s' => ends_with suffix s'
  end.

(** [raw_dir.glob("*.json")]: the names of the directory that end in
    [.json], in no particular order. *)
Definition glob_json (fs : store) : list string :=
  filter (fun name => ends_with ".json" name = true) (elements (dom fs)).

(** The order of [sorted] on the paths of one directory: the names,
    character by character. *)
Definition name_le (a b : string) : Prop := String.leb a b = true.

Global Instance name_le_dec : RelDecision name_le :=
  fun a b => decide (String.leb a b = true).

(** [list(iter_bundles(raw_dir))]: the files are loaded in sorted order,
    and the first one that does not load ends the iteration with its
    exception. *)
Definition iter_bundles (fs : store) : outcome (list VideoDanmakuBundle) :=
  omapM (load_bundle fs) (merge_sort name_le (glob_json fs)).

(** [load_all]: a raw-data directory that does not exist holds no file,
    and gives the empty list as an empty directory does. *)
Definition load_all (fs : store) : outcome (list VideoDanmakuBundle) :=
  iter_bundles fs.

End Directory.

Module Progress.
Import Semaphore.

(** The steps the units still have to take: a waiting unit has to enter
    and to leave, a running one to leave. *)
Fixpoint pending (us : list phase) : nat :=
  match us with
  | [] => 0
  | Waiting :: rest => 2 + pending rest
  | Running :: rest => 1 + pending rest
  | Finished :: rest => pending rest
  end.

Definition all_finished (s : state) : Prop :=
  Forall (fun u => u = Finished) (units s).

End Progress.

Module Quiet.
Import Py Crawler.

Definition is_http (e : exn) : bool :=
  match e with
  | HTTPStatusError _ => true
  | _ => false
  end.

(** A result that is not an HTTP status error. *)
Definition quiet {A} (o : outcome A) : Prop :=
  match o with
  | Ok _ => True
  | Raise e => is_http e = false
  end.

(** A computation that never ends in an HTTP status error. *)
Definition no_http {A} (m : M A) : Prop := forall w, quiet (fst (m w)).

End Quiet.

Module Cli.
Import Py Models Persistence Config Crawler.

(** [CrawlerConfig] with its [cookie] field, which [Config.CrawlerConfig]
    leaves out. *)
Record CrawlerSettings : Type := mkSettings {
  knobs : CrawlerConfig;
  cookie : option string
}.

(** [x or d] for an optional [int]. *)
Definition int_or (x : option Z) (d : Z) : Z :=
  match x with
  | Some n => if n =? 0 then d else n
  | None => d
  end.

(** The truth value of an optional [str]. *)
Definition str_truthy (x : option string) : bool :=
  match x with
  | Some s => str_nonempty s
  | None => false
  end.

Definition is_given {A} (x : option A) : bool :=
  match x with Some _ => true | None => false end.

(** [_build_settings]; [extra_cookie] is [os.getenv("BILIBILI_COOKIE")]. *)
Definition _build_settings (settings : CrawlerSettings) (extra_cookie : option string)
    (max_videos : option Z) (enable_cache : bool) (concurrency : option Z)
    (sleep_interval : option Q) (pages : option Z) : CrawlerSettings :=
  let crawler_cfg := knobs settings in
  if is_given max_videos || negb enable_cache || str_truthy extra_cookie
     || is_given concurrency || is_given sleep_interval || is_given pages
  then
    {| knobs :=
         {| keywords := keywords crawler_cfg;
            max_videos := int_or max_videos (Config.max_videos crawler_cfg);
            order := order crawler_cfg;
            pages_per_keyword :=
              match pages with
              | Some p => Some p
              | None => pages_per_keyword crawler_cfg
              end;
            concurrent_requests :=
              int_or concurrency (concurrent_requests crawler_cfg);
            retry_attempts := retry_attempts crawler_cfg;
            user_agent := user_agent crawler_cfg;
            sleep_interval :=
              match sleep_interval with
              | Some q => q
              | None => Config.sleep_interval crawler_cfg
              end;
            enable_cache := enable_cache;
            referer := referer crawler_cfg;
            accept_language := accept_language crawler_cfg |};
       cookie := if str_truthy extra_cookie then extra_cookie else cookie settings |}
  else settings.


(** The options of [fetch]. *)
Record fetch_options : Type := mkFetchOptions {
  opt_max_videos : option Z;
  opt_concurrency : option Z;
  opt_sleep_interval : option Q;
  opt_pages : option Z;
  opt_no_cache : bool
}.

Definition fetch_config (settings : CrawlerSettings) (extra_cookie : option string)
    (o : fetch_options) : CrawlerConfig :=
  knobs (_build_settings settings extra_cookie (opt_max_videos o)
           (negb (opt_no_cache o)) (opt_concurrency o) (opt_sleep_interval o)
           (opt_pages o)).


End Cli.

Module Cookies.
Import Py.








End Cookies.

Module Cases.
Import Py Datetime Models Persistence Config Crawler Spec Scenarios Cli.

(** A service that times out until it has seen [n] requests, and then
    answers [r]. *)
Definition flaky (n : Z) (r : response) : network :=
  fun history _ =>
    if count_gets history <? n then Fails (TransportError "ReadTimeout")
    else Responds r.

Definition ok_json : response :=
  {| status_code := 200; body_json := Some (PDict []); body_xml := None |}.

(** A service whose answers are 200 with a body that is neither JSON nor
    XML. *)
Definition blank : network := fun _ _ => status_response 200.

(** A service that refuses every request with HTTP 412. *)
Definition refusing : network := fun _ _ => status_response 412.

Definition sample_node : xml_node :=
  {| attrib_p := Some "12.5,1,25,16777215,1700000000,abcd1234,0,5";
     text := Some "hello" |}.

(** A service on which every keyword finds one video, whose short id is
    the keyword; every video has one comment. *)
Definition echo : network :=
  fun _ req =>
    if String.eqb (url req) SEARCH_API then
      match dict_lookup "page" (params req), dict_lookup "keyword" (params req) with
      | Some (PInt 1), Some (PStr k) => json_response (search_doc [search_item k])
      | _, _ => json_response (search_doc [])
      end
    else if String.eqb (url req) VIEW_API then
      match dict_lookup "bvid" (params req) with
      | Some b =>
          json_response
            (PDict [("data", PDict [("aid", PInt 7); ("bvid", b); ("cid", PInt 9);
                                    ("pubdate", PInt 1700000000)])])
      | None => status_response 404
      end
    else xml_response [sample_node].

(** Three keywords for a [max_videos] of one, with the cache. *)
Definition crowded_config : CrawlerConfig :=
  {| keywords := ["A"; "B"; "C"];
     max_videos := 1;
     order := "totalrank";
     pages_per_keyword := Some 2;
     concurrent_requests := 0;
     retry_attempts := 3;
     user_agent := "Mozilla/5.0";
     sleep_interval := 0;
     enable_cache := true;
     referer := "https://www.bilibili.com";
     accept_language := "zh-CN" |}.

Definition default_settings : CrawlerSettings :=
  {| knobs := default_config; cookie := None |}.

(** [fetch --max-videos 0 --pages 0 --no-cache]. *)
Definition sample_options : fetch_options :=
  {| opt_max_videos := Some 0; opt_concurrency := None;
     opt_sleep_interval := None; opt_pages := Some 0; opt_no_cache := true |}.

End Cases.

(* ===================================================================== *)
(** * Facts about the Python layer *)
(* ===================================================================== *)

Section PyFacts.
Import Py.

Lemma split_nonempty sep s : split sep s <> [].
Proof.
  destruct s as [|c s]; simpl; [discriminate|].
  destruct (Ascii.eqb c sep); [discriminate|].
  destruct (split sep s); discriminate.
Qed.

(** A string splits into one field more than it has separators. *)
Lemma split_length sep s : length (split sep s) = S (count_char sep s).
Proof.
  induction s as [|c s IH]; simpl; [reflexivity|].
  destruct (Ascii.eqb c sep); simpl.
  - rewrite IH. reflexivity.
  - destruct (split sep s) as [|w ws] eqn:Hs; [destruct (split_nonempty _ _ Hs)|].
    simpl in *. exact IH.
Qed.

Lemma obind_ok {A B} (x : outcome A) (k : A -> outcome B) (b : B) :
  x ≫= k = Ok b -> exists a, x = Ok a /\ k a = Ok b.
Proof. destruct x as [a|e]; [eauto | discriminate]. Qed.

Lemma omapM_map {A B} (f : B -> outcome A) (g : A -> B) (l : list A) :
  Forall (fun x => f (g x) = Ok x) l -> omapM f (map g l) = Ok l.
Proof.
  induction 1 as [|x l Hx _ IH]; simpl; [reflexivity|].
  rewrite Hx, IH. reflexivity.
Qed.

End PyFacts.

(* ===================================================================== *)
(** * [isoformat] and [fromisoformat] are inverse *)
(* ===================================================================== *)

Section IsoFacts.
Import Py Datetime.

Lemma digit_of_digit_char d : 0 <= d < 10 -> digit_of (digit_char d) = Some d.
Proof.
  intros H.
  assert (d = 0 \/ d = 1 \/ d = 2 \/ d = 3 \/ d = 4 \/ d = 5 \/ d = 6 \/
          d = 7 \/ d = 8 \/ d = 9) as Hd by lia.
  repeat (destruct Hd as [-> | Hd]; [reflexivity|]). subst d. reflexivity.
Qed.

Lemma take_digits_app w1 w2 acc cs :
  take_digits (w1 + w2) acc cs =
  match take_digits w1 acc cs with
  | Some (a, r) => take_digits w2 a r
  | None => None
  end.
Proof.
  revert acc cs. induction w1 as [|w1 IH]; intros acc cs; simpl; [reflexivity|].
  destruct cs as [|c rest]; [reflexivity|].
  destruct (digit_of c); [apply IH | reflexivity].
Qed.

Lemma take_digits_pad w n acc rest :
  0 <= n < 10 ^ Z.of_nat w ->
  take_digits w acc (pad w n ++ rest) = Some (acc * 10 ^ Z.of_nat w + n, rest).
Proof.
  revert n acc rest. induction w as [|w IH]; intros n acc rest Hn.
  - simpl in *. do 2 f_equal. lia.
  - rewrite Nat2Z.inj_succ, Z.pow_succ_r in Hn by lia.
    replace (S w) with (w + 1)%nat by lia.
    rewrite take_digits_app.
    replace (pad (w + 1) n) with (pad w (n / 10) ++ [digit_char (n mod 10)])
      by (replace (w + 1)%nat with (S w) by lia; reflexivity).
    rewrite <- app_assoc. simpl app.
    rewrite IH by (split; [apply Z.div_pos; lia | apply Z.div_lt_upper_bound; lia]).
    simpl take_digits.
    rewrite digit_of_digit_char by (apply Z.mod_pos_bound; lia).
    do 2 f_equal.
    replace (Z.of_nat (w + 1)) with (Z.succ (Z.of_nat w)) by lia.
    rewrite Z.pow_succ_r by lia.
    pose proof (Z.div_mod n 10 ltac:(lia)). lia.
Qed.

Lemma take_digits_pad_bind {A} w n rest (k : Z * list ascii -> option A) :
  0 <= n < 10 ^ Z.of_nat w ->
  (take_digits w 0 (pad w n ++ rest) ≫= k) = k (n, rest).
Proof. intros H. rewrite take_digits_pad by assumption. reflexivity. Qed.

Lemma expect_bind {A} c rest (k : list ascii -> option A) :
  (expect c (c :: rest) ≫= k) = k rest.
Proof. unfold expect. rewrite Ascii.eqb_refl. reflexivity. Qed.

Lemma parse_offset_text o :
  match o with Some m => -1440 < m < 1440 | None => True end ->
  parse_offset (offset_text o) = Some o.
Proof.
  destruct o as [m|]; intros H; [|reflexivity].
  assert (0 <= Z.abs m / 60 < 24)
    by (split; [apply Z.div_pos; lia | apply Z.div_lt_upper_bound; lia]).
  assert (0 <= Z.abs m mod 60 < 60) by (apply Z.mod_pos_bound; lia).
  pose proof (Z.div_mod (Z.abs m) 60 ltac:(lia)) as Hdm.
  unfold offset_text, parse_offset.
  rewrite <- (app_nil_r (pad 2 (Z.abs m mod 60))).
  destruct (m <? 0) eqn:Hneg; cbn [Ascii.eqb Bool.eqb mbind option_bind];
    (rewrite take_digits_pad_bind by (change (10 ^ Z.of_nat 2) with 100; lia));
    cbv beta iota; rewrite expect_bind;
    (rewrite take_digits_pad_bind by (change (10 ^ Z.of_nat 2) with 100; lia));
    cbv beta iota;
    (replace (Z.abs m / 60 <? 24) with true by (symmetry; apply Z.ltb_lt; lia));
    (replace (Z.abs m mod 60 <? 60) with true by (symmetry; apply Z.ltb_lt; lia));
    cbn [andb]; do 2 f_equal.
  - apply Z.ltb_lt in Hneg. lia.
  - apply Z.ltb_ge in Hneg. lia.
Qed.

Lemma valid_bounds d :
  valid d = true ->
  0 <= year d < 10 ^ Z.of_nat 4 /\ 0 <= month d < 10 ^ Z.of_nat 2 /\
  0 <= day d < 10 ^ Z.of_nat 2 /\ 0 <= hour d < 10 ^ Z.of_nat 2 /\
  0 <= minute d < 10 ^ Z.of_nat 2 /\ 0 <= second d < 10 ^ Z.of_nat 2 /\
  0 <= microsecond d < 10 ^ Z.of_nat 6 /\
  match utcoffset d with Some m => -1440 < m < 1440 | None => True end.
Proof.
  unfold valid. intros H.
  repeat (apply andb_prop in H; destruct H as [H ?]).
  assert (days_in_month (year d) (month d) <= 31).
  { unfold days_in_month.
    repeat match goal with |- context [if ?b then _ else _] => destruct b end; lia. }
  change (10 ^ Z.of_nat 4) with 10000. change (10 ^ Z.of_nat 2) with 100.
  change (10 ^ Z.of_nat 6) with 1000000.
  repeat match goal with
         | H : (_ <=? _) = true |- _ => apply Z.leb_le in H
         | H : (_ <? _) = true |- _ => apply Z.ltb_lt in H
         end.
  repeat split; try lia.
  destruct (utcoffset d); [|exact I].
  match goal with H : (_ && _) = true |- _ =>
    apply andb_prop in H; destruct H as [Hlo Hhi];
    apply Z.ltb_lt in Hlo; apply Z.ltb_lt in Hhi end.
  lia.
Qed.

Lemma fromisoformat_isoformat d :
  valid d = true -> fromisoformat (isoformat d) = Ok d.
Proof.
  intros Hv. pose proof (valid_bounds d Hv) as (Hy & Hmo & Hd & Hh & Hmi & Hs & Hus & Ho).
  unfold fromisoformat, isoformat.
  rewrite list_ascii_of_string_of_list_ascii.
  unfold parse_iso.
  repeat (rewrite take_digits_pad_bind by assumption; cbv beta iota;
          rewrite expect_bind).
  rewrite take_digits_pad_bind by assumption; cbv beta iota.
  assert (forall {A} (k : Z * list ascii -> option A),
            (parse_fraction
               ((if microsecond d =? 0 then [] else "."%char :: pad 6 (microsecond d))
                  ++ offset_text (utcoffset d)) ≫= k)
            = k (microsecond d, offset_text (utcoffset d))) as Hfrac.
  { intros A k. destruct (microsecond d =? 0) eqn:Hz.
    - apply Z.eqb_eq in Hz. rewrite Hz, app_nil_l.
      destruct (utcoffset d) as [m|]; [|reflexivity].
      unfold offset_text. destruct (m <? 0); reflexivity.
    - rewrite <- app_comm_cons. unfold parse_fraction at 1.
      cbn [Ascii.eqb Bool.eqb].
      rewrite take_digits_pad by assumption. reflexivity. }
  rewrite Hfrac. rewrite parse_offset_text by assumption.
  cbn [mbind option_bind].
  destruct d; cbn [year month day hour minute second microsecond utcoffset] in *.
  rewrite Hv. reflexivity.
Qed.

Lemma isoformat_nonempty d : str_nonempty (isoformat d) = true.
Proof. reflexivity. Qed.

End IsoFacts.

(* ===================================================================== *)
(** * The bundle store *)
(* ===================================================================== *)

Section StoreFacts.
Import Py Datetime Models Persistence Spec.

Lemma as_opt_int_of_opt_int what o : as_opt_int what (of_opt_int o) = Ok o.
Proof. destruct o; reflexivity. Qed.

Lemma as_opt_str_of_opt_str what o : as_opt_str what (of_opt_str o) = Ok o.
Proof. destruct o; reflexivity. Qed.

(** Runs a decoder over the dictionary an encoder built. *)
Ltac decode :=
  repeat first
    [ rewrite as_opt_int_of_opt_int
    | rewrite as_opt_str_of_opt_str
    | rewrite isoformat_nonempty
    | rewrite fromisoformat_isoformat by assumption
    | progress cbn -[isoformat fromisoformat of_opt_int of_opt_str
                     as_opt_int as_opt_str] in * ].

Lemma record_round_trip r :
  valid (send_time r) = true -> record_from_dict (record_to_dict r) = Ok r.
Proof.
  intros Hv. destruct r. unfold record_from_dict, record_to_dict.
  decode. reflexivity.
Qed.

Lemma metadata_round_trip v :
  valid_opt (publish_time v) = true ->
  metadata_from_dict
    (match to_dict {| video := v; danmaku := [] |} with
     | PDict ((_, d) :: _) => d
     | _ => PNone
     end) = Ok v.
Proof.
  intros Hv. destruct v as [? ? ? ? ? ? [t|] ? ? ? ? ?];
    unfold metadata_from_dict, to_dict; decode; reflexivity.
Qed.

Lemma from_dict_to_dict b : wf_bundle b -> from_dict (to_dict b) = Ok b.
Proof.
  intros [Hp Hd]. destruct b as [v ds].
  pose proof (metadata_round_trip v Hp) as Hm.
  unfold from_dict.
  change (py_item "video" (to_dict {| video := v; danmaku := ds |}))
    with (Ok (match to_dict {| video := v; danmaku := [] |} with
              | PDict ((_, d) :: _) => d
              | _ => PNone
              end)).
  cbn [mbind outcome_bind obind].
  change (match to_dict {| video := v; danmaku := ds |} with
          | PDict d =>
              match dict_lookup "danmaku" d with
              | Some v0 => Ok v0
              | None => Ok (PList [])
              end
          | _ => Raise (AttributeError "object has no attribute 'get'")
          end) with (Ok (PList (map record_to_dict ds))).
  cbn [mbind outcome_bind obind]. rewrite Hm.
  cbn [mbind outcome_bind obind py_iter].
  rewrite omapM_map; [reflexivity|].
  eapply Forall_impl; [exact Hd|]. intros r Hr. apply record_round_trip, Hr.
Qed.


End StoreFacts.

(* ===================================================================== *)
(** * The fetch client *)
(* ===================================================================== *)

Section RequestFacts.
Import Py Models Persistence Config Crawler Spec.

Variable net : network.
Variable config : CrawlerConfig.

Lemma bind_ok_inv {A B} (m : M A) (k : A -> M B) w b w' :
  (m ≫= k) w = (Ok b, w') ->
  exists a w1, m w = (Ok a, w1) /\ k a w1 = (Ok b, w').
Proof.
  unfold mbind, M_bind, bind. destruct (m w) as [[a|e] w1]; [eauto | discriminate].
Qed.

Lemma bind_ok {A B} (m : M A) (k : A -> M B) w a w1 :
  m w = (Ok a, w1) -> (m ≫= k) w = k a w1.
Proof. unfold mbind, M_bind, bind. intros ->. reflexivity. Qed.


Lemma add_events_app w e1 e2 :
  add_events (add_events w e1) e2 = add_events w (e1 ++ e2).
Proof. unfold add_events. simpl. rewrite app_assoc. reflexivity. Qed.

(** An attempt that fails: its events, and the exception it raises. *)
Lemma attempt_once_fails req w e :
  attempt_failure (net (log w ++ removelast (attempt_events config req)) req) = Some e ->
  attempt_once net config req w = (Raise e, add_events w (attempt_events config req)).
Proof.
  unfold attempt_once, attempt_events, attempt_failure, add_events.
  destruct (q_truthy (sleep_interval config)); simpl;
    unfold mbind, M_bind, bind, sleep, emit, ret, client_get, raise_for_status, raise;
    simpl; rewrite ?app_nil_r;
    destruct (net _ req) as [e'|r]; simpl.
  - intros [= ->]. rewrite <- app_assoc. reflexivity.
  - destruct ((200 <=? status_code r) && (status_code r <? 300)); [discriminate|].
    intros [= <-]. rewrite <- app_assoc. reflexivity.
  - intros [= ->]. reflexivity.
  - destruct ((200 <=? status_code r) && (status_code r <? 300)); [discriminate|].
    intros [= <-]. reflexivity.
Qed.

Lemma attempt_events_last req :
  removelast (attempt_events config req ++ []) ++ [Get req]
  = attempt_events config req.
Proof. unfold attempt_events. destruct (q_truthy _); reflexivity. Qed.

Lemma failed_events_cons req n k :
  k <= n ->
  failed_events config req n k =
  attempt_events config req ++ backoff_events n k ++ failed_events config req n (k + 1).
Proof.
  intros H. unfold failed_events.
  rewrite seqZ_cons by lia. simpl flat_map.
  replace (Z.succ k) with (k + 1) by lia.
  replace (Z.pred (n - k + 1)) with (n - (k + 1) + 1) by lia.
  rewrite <- app_assoc. reflexivity.
Qed.

Lemma failed_events_nil req n k : n < k -> failed_events config req n k = [].
Proof.
  intros H. unfold failed_events. rewrite seqZ_nil by lia. reflexivity.
Qed.

Lemma failed_events_last req n :
  failed_events config req n n = attempt_events config req.
Proof.
  rewrite failed_events_cons, failed_events_nil by lia.
  unfold backoff_events. rewrite Z.ltb_irrefl, !app_nil_r. reflexivity.
Qed.

Lemma removelast_app_ne {A} (l1 l2 : list A) :
  l2 <> [] -> removelast (l1 ++ l2) = l1 ++ removelast l2.
Proof. apply removelast_app. Qed.

Lemma attempt_events_ne req : attempt_events config req <> [].
Proof. unfold attempt_events. destruct (q_truthy _); discriminate. Qed.

Lemma failed_events_ne req n k : k <= n -> failed_events config req n k <> [].
Proof.
  intros H. rewrite failed_events_cons by assumption.
  pose proof (attempt_events_ne req). destruct (attempt_events config req); [congruence | discriminate].
Qed.

(** The loop never runs out of fuel: more fuel than the attempts that are
    left changes nothing. *)
Lemma request_loop_fuel req :
  forall fuel attempts w,
    retry_attempts config - attempts - 1 <= Z.of_nat fuel ->
    request_loop net config (S fuel) req attempts w
    = request_loop net config fuel req attempts w.
Proof.
  induction fuel as [|fuel IH]; intros attempts w Hfuel.
  - simpl. destruct (attempt_once net config req w) as [[r|exc] w1]; [reflexivity|].
    replace (attempts + 1 >=? retry_attempts config) with true
      by (symmetry; rewrite Z.geb_leb; apply Z.leb_le; lia).
    reflexivity.
  - change (request_loop net config (S (S fuel)) req attempts w)
      with (match attempt_once net config req w with
            | (Ok response, w') => (Ok response, w')
            | (Raise exc, w') =>
                if attempts + 1 >=? retry_attempts config then (Raise exc, w')
                else match sleep ((3 # 2) * inject_Z (attempts + 1))%Q w' with
                     | (_, w'') =>
                         request_loop net config (S fuel) req (attempts + 1) w''
                     end
            end).
    change (request_loop net config (S fuel) req attempts w)
      with (match attempt_once net config req w with
            | (Ok response, w') => (Ok response, w')
            | (Raise exc, w') =>
                if attempts + 1 >=? retry_attempts config then (Raise exc, w')
                else match sleep ((3 # 2) * inject_Z (attempts + 1))%Q w' with
                     | (_, w'') =>
                         request_loop net config fuel req (attempts + 1) w''
                     end
            end).
    destruct (attempt_once net config req w) as [[r|exc] w1]; [reflexivity|].
    destruct (attempts + 1 >=? retry_attempts config) eqn:Hge; [reflexivity|].
    rewrite Z.geb_leb in Hge. apply Z.leb_gt in Hge.
    destruct (sleep _ w1) as [u w2]. apply IH. lia.
Qed.

(** With every attempt failing, the loop entered after [k - 1] failures
    makes the attempts [k .. n] and raises what the last one raised. *)
Lemma request_loop_exhausts req (Hfail : forall h, attempt_failure (net h req) <> None) :
  forall (m : nat) (fuel : nat) (k : Z) w,
    let n := retry_attempts config in
    1 <= k -> n = k + Z.of_nat m -> (m <= fuel)%nat ->
    exists e,
      request_loop net config fuel req (k - 1) w
        = (Raise e, add_events w (failed_events config req n k)) /\
      attempt_failure
        (net (log w ++ removelast (failed_events config req n k)) req) = Some e.
Proof.
  induction m as [|m IH]; intros fuel k w n Hk Hn Hfuel.
  - assert (n = k) as Hnk by lia. rewrite Hnk, failed_events_last.
    destruct (attempt_failure
                (net (log w ++ removelast (attempt_events config req)) req))
      as [e|] eqn:He; [|destruct (Hfail _ He)].
    exists e. split; [|reflexivity].
    destruct fuel; simpl; rewrite (attempt_once_fails _ _ _ He);
      replace (k - 1 + 1) with k by lia;
      fold n; rewrite Hnk;
      (replace (k >=? k) with true by (symmetry; apply Z.geb_le; lia));
      reflexivity.
  - destruct fuel as [|fuel]; [lia|].
    destruct (attempt_failure
                (net (log w ++ removelast (attempt_events config req)) req))
      as [e0|] eqn:He; [|destruct (Hfail _ He)].
    set (w1 := add_events (add_events w (attempt_events config req))
                 (backoff_events n k)).
    destruct (IH fuel (k + 1) w1 ltac:(lia) ltac:(lia) ltac:(lia)) as (e & Hrun & Hlast).
    exists e. split.
    + simpl. rewrite (attempt_once_fails _ _ _ He).
      replace (k - 1 + 1) with k by lia. fold n.
      replace (k >=? n) with false
        by (symmetry; rewrite Z.geb_leb; apply Z.leb_gt; lia).
      replace (k + 1 - 1) with k in Hrun by lia.
      unfold sleep, emit. simpl.
      replace {| log := (log w ++ attempt_events config req) ++ [Sleep ((3 # 2) * inject_Z k)%Q];
                 files := files w |} with w1.
      2:{ unfold w1, add_events, backoff_events. simpl.
          replace (k <? n) with true by (symmetry; apply Z.ltb_lt; lia). reflexivity. }
      rewrite Hrun. f_equal. unfold w1. rewrite !add_events_app.
      rewrite (failed_events_cons req n k) by lia. reflexivity.
    + rewrite (failed_events_cons req n k) by lia.
      rewrite app_assoc, removelast_app by (apply failed_events_ne; lia).
      unfold w1, add_events in Hlast. simpl in Hlast.
      rewrite <- !app_assoc in Hlast. rewrite <- !app_assoc. exact Hlast.
Qed.

Lemma count_gets_app l1 l2 : count_gets (l1 ++ l2) = count_gets l1 + count_gets l2.
Proof.
  induction l1 as [|[d|r] l1 IH]; simpl; [reflexivity | exact IH | lia].
Qed.

Lemma total_sleep_app l1 l2 :
  (total_sleep (l1 ++ l2) == total_sleep l1 + total_sleep l2)%Q.
Proof.
  induction l1 as [|[d|r] l1 IH]; simpl; [ring | rewrite IH; ring | exact IH].
Qed.

Lemma count_gets_attempt req : count_gets (attempt_events config req) = 1.
Proof. unfold attempt_events. destruct (q_truthy _); reflexivity. Qed.

Lemma total_sleep_attempt req :
  (total_sleep (attempt_events config req) == sleep_interval config)%Q.
Proof.
  unfold attempt_events, q_truthy.
  destruct (Qeq_bool (sleep_interval config) 0) eqn:Hz; simpl.
  - apply Qeq_bool_eq in Hz. rewrite Hz. reflexivity.
  - ring.
Qed.

Lemma count_gets_failed req :
  forall (m : nat) (n k : Z),
    n = k + Z.of_nat m -> count_gets (failed_events config req n k) = n - k + 1.
Proof.
  induction m as [|m IH]; intros n k Hn.
  - assert (n = k) as -> by lia. rewrite failed_events_last, count_gets_attempt. lia.
  - rewrite failed_events_cons, !count_gets_app, count_gets_attempt by lia.
    rewrite (IH n (k + 1)) by lia.
    unfold backoff_events. destruct (k <? n); simpl; lia.
Qed.

Lemma total_sleep_failed req :
  forall (m : nat) (n k : Z),
    n = k + Z.of_nat m ->
    (total_sleep (failed_events config req n k)
     == (inject_Z n - inject_Z k + 1) * sleep_interval config
        + (3 # 4) * (inject_Z n - inject_Z k) * (inject_Z n + inject_Z k - 1))%Q.
Proof.
  induction m as [|m IH]; intros n k Hn.
  - assert (n = k) as -> by lia.
    rewrite failed_events_last, total_sleep_attempt. ring.
  - rewrite failed_events_cons, !total_sleep_app, total_sleep_attempt by lia.
    rewrite (IH n (k + 1)) by lia.
    unfold backoff_events.
    replace (k <? n) with true by (symmetry; apply Z.ltb_lt; lia).
    simpl total_sleep. rewrite inject_Z_plus.
    change (inject_Z 1) with 1%Q. ring.
Qed.

(** C4.  With [retry_attempts = N >= 1] and every attempt failing,
    [_request] makes exactly [N] attempts, waits [1.5 * k] seconds after
    the failed attempt [k] for each [k < N] and not after the last one,
    and then raises what the last attempt raised.  All the waits together
    last [N] pacing delays plus [0.75 * N * (N - 1)] seconds of backoff,
    which is [4.5] seconds of backoff for [N = 3]. *)
Theorem C4_retry_exhaustion (req : request) (w : world) :
  1 <= retry_attempts config ->
  (forall h, attempt_failure (net h req) <> None) ->
  let N := retry_attempts config in
  let evs :=
    flat_map (fun k => attempt_events config req
                         ++ (if k <? N then [Sleep ((3 # 2) * inject_Z k)%Q] else []))
             (seqZ 1 N) in
  exists e,
    _request net config req w = (Raise e, {| log := log w ++ evs; files := files w |}) /\
    attempt_failure (net (log w ++ removelast evs) req) = Some e /\
    count_gets evs = N /\
    (total_sleep evs == inject_Z N * sleep_interval config
                        + (3 # 4) * inject_Z N * (inject_Z N - 1))%Q /\
    (N = 3 -> (total_sleep evs == 3 * sleep_interval config + (9 # 2))%Q).
Proof.
  intros HN Hfail N evs.
  assert (evs = failed_events config req N 1) as Hevs.
  { unfold evs, failed_events, backoff_events.
    replace (N - 1 + 1) with N by lia. reflexivity. }
  destruct (request_loop_exhausts req Hfail (Z.to_nat (N - 1)) (Z.to_nat N) 1 w
              ltac:(lia) ltac:(fold N; lia) ltac:(lia)) as (e & Hrun & Hlast).
  assert (total_sleep evs == inject_Z N * sleep_interval config
                        + (3 # 4) * inject_Z N * (inject_Z N - 1))%Q as Htotal.
  { rewrite Hevs, (total_sleep_failed req (Z.to_nat (N - 1))) by lia.
    change (inject_Z 1) with 1%Q. ring. }
  exists e. rewrite Hevs. repeat split.
  - exact Hrun.
  - exact Hlast.
  - rewrite (count_gets_failed req (Z.to_nat (N - 1))) by lia. lia.
  - rewrite <- Hevs. exact Htotal.
  - intros H3. rewrite <- Hevs, Htotal, H3.
    change (inject_Z 3) with 3%Q. ring.
Qed.

End RequestFacts.

(* ===================================================================== *)
(** * Pagination of the search *)
(* ===================================================================== *)

Section SearchFacts.
Import Py Models Persistence Config Crawler Spec.

Variable net : network.
Variable config : CrawlerConfig.

Lemma py_iter_truthy v l : truthy v = true -> py_iter v = Ok l -> l <> [].
Proof.
  destruct v as [| | | |s|l'|d]; simpl; try discriminate.
  - destruct s; [discriminate|]. intros _ [= <-]. discriminate.
  - destruct l'; [discriminate|]. intros _ [= <-]. discriminate.
  - destruct d; [discriminate|]. intros _ [= <-]. discriminate.
Qed.

Lemma extend_ge pk its : forall results,
  len results <= len (extend config pk results its).
Proof.
  unfold len. induction its as [|it its IH]; intros results; simpl; [lia|].
  destruct (_ || _).
  - rewrite length_app. simpl. lia.
  - specialize (IH (results ++ [it])). rewrite length_app in IH. simpl in IH. lia.
Qed.

Lemma extend_grows pk it its results :
  len results + 1 <= len (extend config pk results (it :: its)).
Proof.
  simpl. destruct (_ || _).
  - unfold len. rewrite length_app. simpl. lia.
  - pose proof (extend_ge pk its (results ++ [it])) as H.
    unfold len in *. rewrite length_app in H. simpl in H. lia.
Qed.

(** One iteration of the [while] loop, in terms of the page it fetches. *)
Lemma search_loop_step fuel keyword pk results page w :
  search_loop net config fuel keyword pk results page w =
  if len results <? pk then
    match fetch_page net config keyword page w with
    | (Raise e, w1) => (Raise e, w1)
    | (Ok [], w1) => (Ok results, w1)
    | (Ok its, w1) =>
        let results' := extend config pk results its in
        if ceiling_hit config (page + 1) then (Ok results', w1)
        else match fuel with
             | O => (Ok results', w1)
             | S fuel' =>
                 search_loop net config fuel' keyword pk results' (page + 1) w1
             end
    end
  else (Ok results, w).
Proof.
  destruct fuel; simpl; destruct (len results <? pk); try reflexivity;
    unfold fetch_page, mbind, M_bind, bind, lift, ret;
    destruct (_request_json net config (search_request config keyword page) w)
      as [[payload|e] w1]; try reflexivity;
    destruct (result_items payload) as [items|e]; try reflexivity;
    destruct (truthy items) eqn:Ht; simpl; try reflexivity;
    destruct (py_iter items) as [its|e] eqn:Hi; try reflexivity;
    pose proof (py_iter_truthy _ _ Ht Hi);
    (destruct its; [congruence|]);
    destruct (ceiling_hit config (page + 1)); reflexivity.
Qed.

Lemma stops_after_from_cons pk results page its pages :
  pages <> [] ->
  stops_after_from config pk results page (its :: pages)
  = stops_after_from config pk (extend config pk results its) (page + 1) pages.
Proof.
  intros Hne. unfold stops_after_from.
  replace (last (its :: pages)) with (last pages)
    by (destruct pages; [congruence | reflexivity]).
  cbn [fold_left].
  replace (page + len (its :: pages)) with (page + 1 + len pages)
    by (unfold len; simpl length; lia).
  reflexivity.
Qed.

(** The search never runs out of fuel either. *)
Lemma search_loop_fuel keyword pk :
  forall fuel results page w,
    pk - len results <= Z.of_nat fuel ->
    search_loop net config (S fuel) keyword pk results page w
    = search_loop net config fuel keyword pk results page w.
Proof.
  induction fuel as [|fuel IH]; intros results page w Hfuel;
    do 2 rewrite search_loop_step;
    destruct (len results <? pk) eqn:Hlt; try reflexivity;
    apply Z.ltb_lt in Hlt; [lia|].
  destruct (fetch_page net config keyword page w) as [[[|it its]|e] w1];
    try reflexivity.
  cbv zeta. destruct (ceiling_hit config (page + 1)); [reflexivity|].
  apply IH. pose proof (extend_grows pk it its results). lia.
Qed.

Lemma per_keyword_share_pos : 1 <= per_keyword_share config.
Proof. unfold per_keyword_share. lia. Qed.

Lemma search_loop_pages keyword pk :
  forall fuel results page w res w',
    pk - len results <= Z.of_nat fuel ->
    search_loop net config fuel keyword pk results page w = (Ok res, w') ->
    exists pages,
      fetched net config keyword page w pages w' /\
      res = fold_left (extend config pk) pages results /\
      (len results < pk -> pages <> []) /\
      (pk <= len results -> pages = []) /\
      (pages <> [] -> stops_after_from config pk results page pages = true) /\
      (forall k, (0 < k < length pages)%nat ->
                 stops_after_from config pk results page (firstn k pages) = false).
Proof.
  induction fuel as [|fuel IH]; intros results page w res w' Hfuel Hrun;
    rewrite search_loop_step in Hrun;
    (destruct (len results <? pk) eqn:Hlt;
     [ apply Z.ltb_lt in Hlt
     | apply Z.ltb_ge in Hlt; injection Hrun as <- <-;
       exists []; repeat split; try constructor; try lia; try congruence;
       simpl; intros; lia ]).
  - lia.
  - destruct (fetch_page net config keyword page w) as [[its|e] w1] eqn:Hf;
      [|discriminate].
    destruct its as [|it its].
    { injection Hrun as <- <-. exists [[]]. repeat split.
      - econstructor; [exact Hf | constructor].
      - intros _; discriminate.
      - lia.
      - simpl. intros; lia. }
    cbv zeta in Hrun.
    destruct (ceiling_hit config (page + 1)) eqn:Hc.
    { injection Hrun as <- <-. exists [it :: its]. repeat split.
      - econstructor; [exact Hf | constructor].
      - intros _; discriminate.
      - lia.
      - intros _. unfold stops_after_from. cbn [last].
        change (len [it :: its]) with 1. rewrite Hc. apply orb_true_r.
      - simpl. intros; lia. }
    pose proof (extend_grows pk it its results) as Hgrow.
    destruct (IH (extend config pk results (it :: its)) (page + 1) w1 res w'
                ltac:(lia) Hrun)
      as (pages & Hfetched & Hres & Hne & Hnil & Hstop & Hpre).
    exists ((it :: its) :: pages). repeat split.
    + econstructor; eassumption.
    + exact Hres.
    + intros _; discriminate.
    + lia.
    + intros _. destruct pages as [|p pages].
      * unfold stops_after_from. cbn [last fold_left].
        replace (pk <=? len (extend config pk results (it :: its))) with true;
          [reflexivity|].
        symmetry. apply Z.leb_le.
        destruct (Z.lt_ge_cases (len (extend config pk results (it :: its))) pk)
          as [Hl|Hl]; [destruct (Hne Hl eq_refl) | exact Hl].
      * rewrite stops_after_from_cons by discriminate. apply Hstop. discriminate.
    + intros k Hk. simpl length in Hk.
      destruct k as [|k]; [lia|]. simpl firstn.
      destruct k as [|k].
      * change (firstn 0 pages) with (@nil (list pyval)).
        unfold stops_after_from. cbn [last fold_left].
        change (len [it :: its]) with 1. rewrite Hc, orb_false_r.
        apply Z.leb_gt.
        destruct (Z.lt_ge_cases (len (extend config pk results (it :: its))) pk)
          as [Hl|Hl]; [exact Hl|].
        rewrite (Hnil Hl) in Hk. simpl in Hk. lia.
      * rewrite stops_after_from_cons.
        -- apply Hpre. lia.
        -- destruct pages; [simpl in Hk; lia | discriminate].
Qed.


End SearchFacts.

(* ===================================================================== *)
(** * Discovery: deduplication, attribution and ranks *)
(* ===================================================================== *)

Section DiscoveryFacts.
Import Py Models Persistence Config Crawler Spec.

Lemma first_occurrences_elem l b : b ∈ first_occurrences l <-> b ∈ l.
Proof.
  induction l as [|a l IH]; simpl; [reflexivity|].
  rewrite !elem_of_cons, list_elem_of_filter, IH.
  destruct (decide (b = a)); naive_solver.
Qed.

Lemma first_occurrences_NoDup l : NoDup (first_occurrences l).
Proof.
  induction l as [|a l IH]; simpl; [constructor|].
  apply NoDup_cons. split.
  - rewrite list_elem_of_filter. naive_solver.
  - apply NoDup_filter, IH.
Qed.

Lemma first_occurrences_app l1 l2 :
  first_occurrences (l1 ++ l2)
  = first_occurrences l1 ++ filter (fun b => b ∉ l1) (first_occurrences l2).
Proof.
  induction l1 as [|a l1 IH]; simpl.
  - symmetry. induction (first_occurrences l2) as [|x l IHl]; [reflexivity|].
    rewrite filter_cons_True by apply not_elem_of_nil. f_equal. exact IHl.
  - f_equal. rewrite IH, filter_app. f_equal.
    rewrite list_filter_filter. apply list_filter_iff.
    intros x. rewrite elem_of_cons. naive_solver.
Qed.

Lemma filter_all {A} (P : A -> Prop) `{forall x, Decision (P x)} (l : list A) :
  (forall x, P x) -> filter P l = l.
Proof.
  intros HP. induction l as [|x l IH]; [reflexivity|].
  rewrite filter_cons_True by apply HP. f_equal. exact IH.
Qed.

Lemma omap_length_le {A B} (f : A -> option B) (l : list A) :
  (length (omap f l) <= length l)%nat.
Proof.
  induction l as [|x l IH]; simpl; [lia|].
  change (list_omap A B f l) with (omap f l). destruct (f x); simpl; lia.
Qed.

Lemma omap_all_some {A B} (f : A -> option B) (l : list A) :
  length (omap f l) = length l -> Forall (fun x => is_Some (f x)) l.
Proof.
  induction l as [|x l IH]; simpl; [constructor|].
  pose proof (omap_length_le f l) as Hle.
  change (list_omap A B f l) with (omap f l).
  destruct (f x) eqn:Hx; simpl; intros H.
  - constructor; [eauto | apply IH; lia].
  - lia.
Qed.

Lemma bvid_of_nonempty item b : bvid_of item = Some b -> b <> EmptyString.
Proof.
  unfold bvid_of, item_bvid.
  destruct (py_get "bvid" item) as [v|e]; simpl; [|discriminate].
  destruct (truthy v) eqn:Ht; simpl; [|discriminate].
  destruct v; try discriminate. intros [= <-] ->. discriminate.
Qed.

(** What one iteration of the scan does. *)
Lemma scan_result_cases keyword st r st' :
  scan_result keyword st r = Ok st' ->
  (bvid_of r = None /\ st' = st) \/
  (exists b, bvid_of r = Some b /\ b ∈ seen_bvids st /\ st' = st) \/
  (exists b, bvid_of r = Some b /\ (b ∉ seen_bvids st) /\
             st' = {| tasks := tasks st ++ [mkTask r keyword (rank st + 1)];
                      rank := rank st + 1;
                      seen_bvids := ({[ b ]} ∪ seen_bvids st) |}).
Proof.
  unfold scan_result, bvid_of.
  destruct (item_bvid r) as [[b|]|e]; simpl; [| |discriminate].
  - case_bool_decide; intros [= <-]; [right; left | right; right]; eauto.
  - intros [= <-]. left. auto.
Qed.

Lemma seqZ_snoc_first a n : 0 <= n -> a :: seqZ (a + 1) n = seqZ a (n + 1).
Proof.
  intros H. rewrite (seqZ_cons a (n + 1)) by lia.
  replace (Z.succ a) with (a + 1) by lia.
  replace (Z.pred (n + 1)) with n by lia. reflexivity.
Qed.

Lemma scan_results_spec keyword :
  forall rs st st',
    scan_results keyword st rs = Ok st' ->
    exists new,
      tasks st' = tasks st ++ new /\
      rank st' = rank st + len new /\
      seen_bvids st' = list_to_set (ids new) ∪ seen_bvids st /\
      length (ids new) = length new /\
      ids new = filter (fun b => b ∉ seen_bvids st)
                       (first_occurrences (bvids_of rs)) /\
      map task_rank new = seqZ (rank st + 1) (len new) /\
      Forall (fun t => task_keyword t = keyword) new.
Proof.
  induction rs as [|r rs IH]; intros st st' Hscan.
  - injection Hscan as <-. exists []. unfold len. simpl.
    rewrite app_nil_r. repeat split; try constructor; try lia. set_solver.
  - simpl in Hscan. apply obind_ok in Hscan as (st1 & Hstep & Hrest).
    apply IH in Hrest as (new & Ht & Hr & Hs & Hl & Hi & Hk & Hkw).
    apply scan_result_cases in Hstep
      as [(Hb & ->) | [(b & Hb & Hin & ->) | (b & Hb & Hin & ->)]].
    + exists new. unfold bvids_of in *. simpl. rewrite Hb. auto 10.
    + exists new. unfold bvids_of in *. simpl. rewrite Hb. simpl.
      repeat split; try assumption.
      rewrite Hi, filter_cons_False by (intros Hn; exact (Hn Hin)).
      rewrite list_filter_filter. apply list_filter_iff.
      intros x. split; [|tauto]. intros Hx. split; [exact Hx|].
      intros ->. exact (Hx Hin).
    + simpl in *. exists (mkTask r keyword (rank st + 1) :: new).
      assert (ids (mkTask r keyword (rank st + 1) :: new) = b :: ids new) as Hids.
      { unfold ids, task_bvid. simpl. rewrite Hb. reflexivity. }
      rewrite Hids. repeat split.
      * rewrite Ht, <- app_assoc. reflexivity.
      * rewrite Hr. unfold len. simpl length. lia.
      * rewrite Hs. set_solver.
      * simpl. rewrite Hl. reflexivity.
      * unfold bvids_of in *. simpl. rewrite Hb. simpl.
        rewrite filter_cons_True by exact Hin. f_equal.
        rewrite Hi, list_filter_filter. apply list_filter_iff.
        intros x. set_solver.
      * simpl. rewrite Hk.
        replace (len (mkTask r keyword (rank st + 1) :: new)) with (len new + 1)
          by (unfold len; simpl length; lia).
        apply seqZ_snoc_first. unfold len. lia.
      * constructor; [reflexivity | exact Hkw].
Qed.

Lemma scan_all_spec :
  forall found st st',
    scan_all found st = Ok st' ->
    exists new,
      tasks st' = tasks st ++ new /\
      rank st' = rank st + len new /\
      seen_bvids st' = list_to_set (ids new) ∪ seen_bvids st /\
      length (ids new) = length new /\
      ids new = filter (fun b => b ∉ seen_bvids st)
                       (first_occurrences (discovered found)) /\
      map task_rank new = seqZ (rank st + 1) (len new) /\
      Forall (fun t => exists b, task_bvid t = Some b /\
                                 first_keyword found b = Some (task_keyword t)) new.
Proof.
  induction found as [|[keyword rs] found IH]; intros st st' Hscan.
  - injection Hscan as <-. exists []. unfold len. simpl.
    rewrite app_nil_r. repeat split; try constructor; try lia. set_solver.
  - simpl in Hscan. apply obind_ok in Hscan as (st1 & Hone & Hrest).
    apply scan_results_spec in Hone as (new1 & Ht1 & Hr1 & Hs1 & Hl1 & Hi1 & Hk1 & Hkw1).
    apply IH in Hrest as (new2 & Ht2 & Hr2 & Hs2 & Hl2 & Hi2 & Hk2 & Hkw2).
    assert (forall x, x ∉ seen_bvids st1 <-> (x ∉ seen_bvids st) /\ (x ∉ bvids_of rs))
      as Hseen.
    { intros x. rewrite Hs1, elem_of_union, elem_of_list_to_set, Hi1,
        list_elem_of_filter, first_occurrences_elem.
      destruct (decide (x ∈ seen_bvids st)); tauto. }
    exists (new1 ++ new2).
    assert (ids (new1 ++ new2) = ids new1 ++ ids new2) as Hids
      by apply omap_app.
    rewrite Hids. repeat split.
    + rewrite Ht2, Ht1, <- app_assoc. reflexivity.
    + rewrite Hr2, Hr1. unfold len. rewrite length_app. lia.
    + rewrite Hs2, Hs1, list_to_set_app_L. set_solver.
    + rewrite !length_app, Hl1, Hl2. reflexivity.
    + unfold discovered. simpl. fold (discovered found).
      rewrite first_occurrences_app, filter_app, Hi1, Hi2. f_equal.
      rewrite list_filter_filter. apply list_filter_iff. exact Hseen.
    + rewrite map_app, Hk1, Hk2, Hr1.
      replace (len (new1 ++ new2)) with (len new1 + len new2)
        by (unfold len; rewrite length_app; lia).
      rewrite seqZ_app by (unfold len; lia).
      do 2 f_equal. lia.
    + apply Forall_app. split.
      * pose proof (omap_all_some _ _ Hl1) as Hsome.
        rewrite Forall_forall in Hkw1, Hsome. apply Forall_forall.
        intros t Ht. destruct (Hsome t Ht) as [b Hb]. exists b. split; [exact Hb|].
        simpl. rewrite bool_decide_eq_true_2; [rewrite (Hkw1 t Ht); reflexivity|].
        assert (b ∈ ids new1) as Hin
          by (apply list_elem_of_omap; exists t; split; [exact Ht | exact Hb]).
        rewrite Hi1, list_elem_of_filter, first_occurrences_elem in Hin. tauto.
      * rewrite Forall_forall in Hkw2. apply Forall_forall.
        intros t Ht. destruct (Hkw2 t Ht) as (b & Hb & Hfk). exists b. split; [exact Hb|].
        simpl. rewrite bool_decide_eq_false_2; [exact Hfk|].
        assert (b ∈ ids new2) as Hin
          by (apply list_elem_of_omap; exists t; split; [exact Ht | exact Hb]).
        rewrite Hi2, list_elem_of_filter in Hin. apply Hseen. tauto.
Qed.

Variable net : network.
Variable config : CrawlerConfig.

(** The scheduling loop is the searches followed by the scan. *)
Lemma schedule_search_scan :
  forall kws st w st' w',
    schedule_keywords net config kws st w = (Ok st', w') ->
    exists found,
      search_all net config kws w = (Ok found, w') /\
      map fst found = kws /\
      scan_all found st = Ok st'.
Proof.
  induction kws as [|keyword kws IH]; intros st w st' w' Hrun; simpl in Hrun.
  - injection Hrun as <- <-. exists []. auto.
  - apply bind_ok_inv in Hrun as (rs & w1 & Hsearch & Hrun).
    apply bind_ok_inv in Hrun as (st1 & w1' & Hscan & Hrun).
    unfold lift in Hscan. injection Hscan as Hscan <-.
    apply IH in Hrun as (found & Hall & Hfst & Hscans).
    exists ((keyword, rs) :: found). simpl. repeat split.
    + rewrite (bind_ok _ _ _ _ _ Hsearch), (bind_ok _ _ _ _ _ Hall). reflexivity.
    + rewrite Hfst. reflexivity.
    + rewrite Hscan. exact Hscans.
Qed.

(** Every scheduled unit has a short id, and it is not empty. *)
Lemma scheduled_have_ids w st w' :
  schedule_keywords net config (keywords config) sched0 w = (Ok st, w') ->
  Forall (fun t => exists b, task_bvid t = Some b /\ b <> EmptyString) (tasks st).
Proof.
  intros Hrun.
  apply schedule_search_scan in Hrun as (found & _ & _ & Hscan).
  apply scan_all_spec in Hscan as (new & Ht & _ & _ & Hl & _).
  change (tasks sched0 ++ new) with new in Ht. rewrite Ht.
  eapply Forall_impl; [exact (omap_all_some _ _ Hl)|].
  intros t [b Hb]. exists b. split; [exact Hb | exact (bvid_of_nonempty _ _ Hb)].
Qed.

End DiscoveryFacts.

(* ===================================================================== *)
(** * The per-video unit and the collection loop *)
(* ===================================================================== *)

Section UnitFacts.
Import Py Models Persistence Config Crawler Spec.

Variable net : network.
Variable config : CrawlerConfig.

Lemma str_nonempty_true s : s <> EmptyString -> str_nonempty s = true.
Proof. destruct s; [congruence | reflexivity]. Qed.

Lemma item_bvid_str d b :
  dict_get "bvid" d = PStr b -> b <> EmptyString ->
  item_bvid (PDict d) = Ok (Some b).
Proof.
  intros Hd Hb. unfold item_bvid. simpl. rewrite Hd. simpl.
  rewrite (str_nonempty_true _ Hb). reflexivity.
Qed.

Lemma item_bvid_falsy d :
  truthy (dict_get "bvid" d) = false -> item_bvid (PDict d) = Ok None.
Proof. intros H. unfold item_bvid. simpl. rewrite H. reflexivity. Qed.

(** The unit up to its info lookup. *)
Lemma collect_no_hit d b keyword ranking_index w :
  dict_get "bvid" d = PStr b -> b <> EmptyString ->
  enable_cache config && bool_decide (is_Some (files w !! bundle_path b)) = false ->
  _collect_video_bundle net config (PDict d) keyword ranking_index w =
  match _request_json net config (view_request config b) w with
  | (Raise (HTTPStatusError _), w1) => (Ok None, w1)
  | (Raise e, w1) => (Raise e, w1)
  | (Ok view_payload, w1) =>
      (data ← lift (py_get "data" view_payload);
       if negb (truthy data) then ret None
       else
         cid ← lift (py_get "cid" data);
         match cid with
         | PNone => ret None
         | _ =>
             cid_int ← lift (py_int cid);
             metadata ← lift (from_view_api data keyword cid_int (Some ranking_index));
             cid_int' ← lift (py_int cid);
             danmaku_nodes ←
               try_except_http
                 (_fetch_danmaku net config cid_int' (Models.bvid metadata))
                 (fun _ => ret []);
             danmaku_records ←
               lift (omapM (fun node =>
                              from_xml_node node (Models.bvid metadata)
                                (Models.cid metadata))
                           danmaku_nodes);
             let bundle := {| video := metadata; danmaku := danmaku_records |} in
             _ ← (if enable_cache config
                  then (_ ← dump_bundle_io bundle; ret tt) else ret tt);
             ret (Some bundle)
         end) w1
  end.
Proof.
  intros Hd Hb Hhit. unfold _collect_video_bundle.
  rewrite (item_bvid_str _ _ Hd Hb).
  unfold mbind at 1. unfold M_bind, bind at 1. unfold lift at 1.
  unfold mbind at 1. unfold M_bind, bind at 1. unfold path_exists at 1.
  cbv beta iota. rewrite Hhit.
  unfold mbind at 1. unfold M_bind, bind at 1.
  unfold try_except_http, view_request.
  unfold mbind at 1. unfold M_bind, bind at 1.
  destruct (_request_json net config _ w) as [[payload|e] w1]; [reflexivity|].
  destruct e; reflexivity.
Qed.

Lemma bvid_of_dict item b :
  bvid_of item = Some b ->
  exists d, item = PDict d /\ dict_get "bvid" d = PStr b /\ b <> EmptyString.
Proof.
  intros H. pose proof (bvid_of_nonempty _ _ H) as Hne.
  unfold bvid_of, item_bvid in H.
  destruct item as [| | | | | |d]; try discriminate.
  simpl in H. destruct (truthy (dict_get "bvid" d)); simpl in H; [|discriminate].
  destruct (dict_get "bvid" d) eqn:Hd; try discriminate.
  injection H as ->. eauto.
Qed.

Lemma from_view_api_attribution data keyword c r metadata :
  from_view_api data keyword c r = Ok metadata ->
  Models.keyword metadata = keyword /\ ranking_index metadata = r /\
  Models.cid metadata = c.
Proof.
  unfold from_view_api. intros H.
  repeat (apply obind_ok in H as (? & _ & H)).
  injection H as <-. auto.
Qed.

(** A unit that fetches its video and yields a bundle attributes it to
    its own keyword and rank. *)
Lemma collect_fresh_attribution d b keyword ranking_index w bundle w' :
  dict_get "bvid" d = PStr b -> b <> EmptyString ->
  enable_cache config && bool_decide (is_Some (files w !! bundle_path b)) = false ->
  _collect_video_bundle net config (PDict d) keyword ranking_index w
    = (Ok (Some bundle), w') ->
  Models.keyword (video bundle) = keyword /\
  Models.ranking_index (video bundle) = Some ranking_index.
Proof.
  intros Hd Hb Hhit Hrun.
  rewrite (collect_no_hit _ _ _ _ _ Hd Hb Hhit) in Hrun.
  destruct (_request_json net config (view_request config b) w)
    as [[payload|e] w1]; [|destruct e; discriminate].
  apply bind_ok_inv in Hrun as (data & w2 & _ & Hrun).
  destruct (negb (truthy data)); [discriminate|].
  apply bind_ok_inv in Hrun as (cid & w3 & _ & Hrun).
  destruct cid; [discriminate| ..];
    apply bind_ok_inv in Hrun as (c & w4 & _ & Hrun);
    apply bind_ok_inv in Hrun as (metadata & w5 & Hmeta & Hrun);
    apply bind_ok_inv in Hrun as (c' & w6 & _ & Hrun);
    apply bind_ok_inv in Hrun as (nodes & w7 & _ & Hrun);
    apply bind_ok_inv in Hrun as (records & w8 & _ & Hrun);
    apply bind_ok_inv in Hrun as (u & w9 & _ & Hrun);
    injection Hrun as <- _;
    unfold lift in Hmeta; injection Hmeta as Hmeta _;
    apply from_view_api_attribution in Hmeta as (Hk & Hr & _);
    simpl; auto.
Qed.

(** C2.  Whatever the keywords and the search results, [crawl] schedules
    one unit per distinct short id, in the order of first discovery across
    all keywords; each unit carries the first keyword whose results
    contain its short id, and the ranks of the units are 1, 2, 3, ... in
    that order.  A unit that fetches its video (no cache hit) and yields a
    bundle puts its keyword and its rank in the bundle. *)
Theorem C2_dedup_and_ranking (w : world) (st : sched) (w' : world) :
  schedule_keywords net config (keywords config) sched0 w = (Ok st, w') ->
  exists found,
    search_all net config (keywords config) w = (Ok found, w') /\
    map fst found = keywords config /\
    length (ids (tasks st)) = length (tasks st) /\
    NoDup (ids (tasks st)) /\
    ids (tasks st) = first_occurrences (discovered found) /\
    (forall t b, t ∈ tasks st -> task_bvid t = Some b ->
                 first_keyword found b = Some (task_keyword t)) /\
    map task_rank (tasks st) = seqZ 1 (len (tasks st)) /\
    (forall t b w0 bundle w1,
        t ∈ tasks st -> task_bvid t = Some b ->
        enable_cache config && bool_decide (is_Some (files w0 !! bundle_path b)) = false ->
        run_task net config t w0 = (Ok (Some bundle), w1) ->
        keyword (video bundle) = task_keyword t /\
        ranking_index (video bundle) = Some (task_rank t)).
Proof.
  intros Hrun.
  apply schedule_search_scan in Hrun as (found & Hall & Hfst & Hscan).
  apply scan_all_spec in Hscan as (new & Ht & _ & _ & Hl & Hi & Hk & Hkw).
  change (rank sched0 + 1) with 1 in Hk.
  change (tasks sched0 ++ new) with new in Ht.
  rewrite filter_all in Hi by (intros x; apply not_elem_of_empty).
  rewrite Ht.
  exists found. repeat apply conj; try assumption.
  - rewrite Hi. apply first_occurrences_NoDup.
  - intros t b Hin Hb. rewrite Forall_forall in Hkw.
    destruct (Hkw t Hin) as (b' & Hb' & Hfk). congruence.
  - intros t b w0 bundle w1 _ Hb Hhit Hunit.
    destruct (bvid_of_dict _ _ Hb) as (d & Hd & Hget & Hne).
    unfold run_task, _bounded_collect_video_bundle in Hunit. rewrite Hd in Hunit.
    exact (collect_fresh_attribution d b _ _ w0 bundle w1 Hget Hne Hhit Hunit).
Qed.


(** C5.  With caching enabled and a persisted bundle for the short id,
    the unit makes no network call (it leaves the world, and so the log
    of requests, as it found it) and returns what [load_bundle] makes of
    the cached file. *)
Theorem C5_cache_short_circuit (d : list (string * pyval)) (b : string)
    (keyword : string) (ranking_index : Z) (w : world) :
  enable_cache config = true ->
  dict_get "bvid" d = PStr b -> b <> EmptyString ->
  is_Some (files w !! bundle_path b) ->
  _collect_video_bundle net config (PDict d) keyword ranking_index w
  = (bundle ← load_bundle (files w) (bundle_path b); Ok (Some bundle), w).
Proof.
  intros Hcache Hd Hb Hfile. unfold _collect_video_bundle.
  rewrite (item_bvid_str _ _ Hd Hb).
  unfold mbind at 1. unfold M_bind, bind at 1. unfold lift at 1.
  unfold mbind at 1. unfold M_bind, bind at 1. unfold path_exists at 1.
  cbv beta iota. rewrite Hcache, (bool_decide_eq_true_2 _ Hfile).
  cbn [andb]. unfold mbind, M_bind, bind, load_bundle_io, ret, outcome_bind, obind.
  destruct (load_bundle (files w) (bundle_path b)); reflexivity.
Qed.


(** C10, up to the scheduled units.  A search result whose ["bvid"] is
    missing, empty or otherwise falsy is skipped by the scan, which leaves
    the scheduled units, the rank counter and the seen ids as they were;
    [_collect_video_bundle] returns [None] for it without touching the
    world.  Consequently every unit that [crawl] schedules comes from a
    search result with a non-empty short id. *)
Theorem C10_falsy_bvid_skipped :
  (forall d keyword st,
      truthy (dict_get "bvid" d) = false ->
      scan_result keyword st (PDict d) = Ok st) /\
  (forall d keyword ranking_index w,
      truthy (dict_get "bvid" d) = false ->
      _collect_video_bundle net config (PDict d) keyword ranking_index w
        = (Ok None, w)) /\
  (forall w st w',
      schedule_keywords net config (keywords config) sched0 w = (Ok st, w') ->
      forall t, t ∈ tasks st ->
                exists b, task_bvid t = Some b /\ b <> EmptyString).
Proof.
  repeat split.
  - intros d keyword st H. unfold scan_result.
    rewrite (item_bvid_falsy _ H). reflexivity.
  - intros d keyword ranking_index w H. unfold _collect_video_bundle.
    rewrite (item_bvid_falsy _ H). reflexivity.
  - intros w st w' Hrun t Ht.
    pose proof (scheduled_have_ids net config w st w' Hrun) as Hids.
    rewrite Forall_forall in Hids. exact (Hids t Ht).
Qed.

End UnitFacts.

(* ===================================================================== *)
(** * The concurrency ceiling *)
(* ===================================================================== *)

Section SemaphoreFacts.
Import Config Semaphore.

Lemma running_replicate n : running (replicate n Waiting) = 0.
Proof. induction n as [|n IH]; simpl; [reflexivity | exact IH]. Qed.

Lemma running_enter : forall us i,
  us !! i = Some Waiting -> running (<[i := Running]> us) = running us + 1.
Proof.
  induction us as [|u us IH]; intros [|i] H; simpl in *; try discriminate.
  - injection H as ->. lia.
  - rewrite (IH i H). destruct u; lia.
Qed.

Lemma running_leave : forall us i,
  us !! i = Some Running -> running (<[i := Finished]> us) = running us - 1.
Proof.
  induction us as [|u us IH]; intros [|i] H; simpl in *; try discriminate.
  - injection H as ->. lia.
  - rewrite (IH i H). destruct u; lia.
Qed.

Lemma running_nonneg us : 0 <= running us.
Proof. induction us as [|[] us IH]; simpl; lia. Qed.

(** A step keeps the permits and the running units in balance. *)
Lemma step_balance s a s' k :
  step s a = Some s' ->
  0 <= value s -> value s + in_flight s = k ->
  0 <= value s' /\ value s' + in_flight s' = k.
Proof.
  unfold step, in_flight. destruct a as [i|i];
    destruct (units s !! i) as [[]|] eqn:Hi; try discriminate.
  - destruct (0 <? value s) eqn:Hpos; [|discriminate].
    apply Z.ltb_lt in Hpos. intros [= <-]. simpl.
    rewrite (running_enter _ _ Hi). lia.
  - intros [= <-]. simpl. rewrite (running_leave _ _ Hi). lia.
Qed.

Lemma run_balance acts : forall s s' k,
  run s acts = Some s' ->
  0 <= value s -> value s + in_flight s = k ->
  0 <= value s' /\ value s' + in_flight s' = k.
Proof.
  induction acts as [|a acts IH]; intros s s' k Hrun Hv Hk; simpl in Hrun.
  - injection Hrun as <-. auto.
  - destruct (step s a) as [s1|] eqn:Hstep; [|discriminate].
    destruct (step_balance _ _ _ _ Hstep Hv Hk) as [Hv1 Hk1].
    exact (IH _ _ _ Hrun Hv1 Hk1).
Qed.

(** C9.  However many units are scheduled and whatever they do, the
    number of units inside [async with self._semaphore] never exceeds
    [max(1, concurrent_requests)]. *)
Theorem C9_concurrency_ceiling (config : CrawlerConfig) (n : nat)
    (acts : list action) (s : state) :
  run (init config n) acts = Some s ->
  0 <= in_flight s <= Z.max 1 (concurrent_requests config).
Proof.
  intros Hrun.
  destruct (run_balance acts (init config n) s (limit config) Hrun) as [Hv Hk].
  - unfold init, limit. simpl. lia.
  - unfold init, in_flight. simpl. rewrite running_replicate. lia.
  - pose proof (running_nonneg (units s)). unfold in_flight, limit in *. lia.
Qed.

End SemaphoreFacts.

(* ===================================================================== *)
(** * Comment records and bundles *)
(* ===================================================================== *)

Section RecordFacts.
Import Py Datetime Models Persistence Spec.


(** C6.  A payload with fewer than 7 comma-separated fields makes
    [from_xml_node] raise the malformed-record error; no record is
    returned. *)
Theorem C6_short_payload_rejected (node : xml_node) (bvid : string) (cid : Z) :
  (length (attrs_of node) < 7)%nat ->
  from_xml_node node bvid cid = Raise MalformedRecord /\
  forall record, from_xml_node node bvid cid <> Ok record.
Proof.
  intros Hlen.
  assert (from_xml_node node bvid cid = Raise MalformedRecord) as H.
  { unfold from_xml_node.
    replace (Z.of_nat (length (attrs_of node)) <? 7) with true
      by (symmetry; apply Z.ltb_lt; lia).
    reflexivity. }
  split; [exact H|]. intros record. rewrite H. discriminate.
Qed.

(** C8.  The payload ["12.5,1,25,16777215,1700000000,abcd1234,0,5"] with
    text ["hello"] parses to the record with appear_time 12.5 (the float
    [25 * 2^48 * 2^-49]), mode 1, font size 25, colour 16777215, send
    time 2023-11-14T22:13:20 UTC, author hash ["abcd1234"], pool 0,
    weight 5 and content ["hello"]. *)
Theorem C8_comment_parsing (bvid : string) (cid : Z) :
  from_xml_node
    {| attrib_p := Some "12.5,1,25,16777215,1700000000,abcd1234,0,5";
       text := Some "hello" |} bvid cid
  = Ok {| video_bvid := bvid; video_cid := cid; content := "hello";
          appear_time := S754_finite false 7036874417766400 (-49);
          send_time := {| year := 2023; month := 11; day := 14;
                          hour := 22; minute := 13; second := 20;
                          microsecond := 0; utcoffset := Some 0 |};
          mode := 1; font_size := 25; font_color := 16777215;
          author_hash := Some "abcd1234"; weight := Some 5; pool := Some 0 |}
  /\ float_to_Q (S754_finite false 7036874417766400 (-49)) = 25 # 2
  /\ isoformat {| year := 2023; month := 11; day := 14;
                  hour := 22; minute := 13; second := 20;
                  microsecond := 0; utcoffset := Some 0 |}
     = "2023-11-14T22:13:20+00:00".
Proof. repeat split; vm_compute; reflexivity. Qed.

End RecordFacts.

(* ===================================================================== *)
(** * The properties on concrete runs *)
(* ===================================================================== *)

Section Runs.
Import Py Datetime Models Persistence Config Crawler Spec Scenarios.


(** Two keywords that both find [BV1] and [BV2]: two units, both under
    the first keyword, ranked 1 and 2. *)
Lemma C2_witness :
  exists st w',
    schedule_keywords two_videos caching_config (keywords caching_config)
      sched0 empty_world = (Ok st, w') /\
    ids (tasks st) = ["BV1"; "BV2"] /\
    map task_keyword (tasks st) = ["LLM"; "LLM"] /\
    map task_rank (tasks st) = [1; 2] /\
    exists found,
      NoDup (ids (tasks st)) /\
      ids (tasks st) = first_occurrences (discovered found) /\
      map task_rank (tasks st) = seqZ 1 (len (tasks st)).
Proof.
  eexists _, _. split; [vm_compute; reflexivity|].
  split; [vm_compute; reflexivity|].
  split; [vm_compute; reflexivity|].
  split; [vm_compute; reflexivity|].
  edestruct (C2_dedup_and_ranking two_videos caching_config empty_world)
    as (found & _ & _ & _ & Hnodup & Hids & _ & Hranks & _);
    [vm_compute; reflexivity|].
  exists found. split; [exact Hnodup | split; [exact Hids | exact Hranks]].
Defined.



(** Three attempts against a service that is down: three requests, waits
    of 1.5 and 3 seconds, 4.5 seconds of backoff in all. *)
Lemma C4_witness :
  exists e,
    _request unreachable retry_config (view_request retry_config "BV1") empty_world
    = (Raise e,
       add_events empty_world
         [Get (view_request retry_config "BV1"); Sleep ((3 # 2) * inject_Z 1)%Q;
          Get (view_request retry_config "BV1"); Sleep ((3 # 2) * inject_Z 2)%Q;
          Get (view_request retry_config "BV1")]) /\
    e = TransportError "ConnectError".
Proof.
  destruct (C4_retry_exhaustion unreachable retry_config
              (view_request retry_config "BV1") empty_world)
    as (e & Hrun & Hlast & _).
  - vm_compute. discriminate.
  - intros h. discriminate.
  - exists e. split; [exact Hrun|].
    simpl in Hlast. injection Hlast as <-. reflexivity.
Defined.

(** A unit whose bundle is cached returns it and requests nothing. *)
Lemma C5_witness :
  _collect_video_bundle unreachable caching_config (search_item "BV1") "LLM" 1
    cached_world
  = (Ok (Some sample_bundle), cached_world).
Proof.
  unfold search_item.
  rewrite (C5_cache_short_circuit unreachable caching_config
             [("bvid", PStr "BV1")] "BV1" "LLM" 1 cached_world).
  - vm_compute. reflexivity.
  - reflexivity.
  - reflexivity.
  - discriminate.
  - vm_compute. eauto.
Defined.

(** A payload of three fields. *)
Lemma C6_witness :
  from_xml_node {| attrib_p := Some "12.5,1,25"; text := Some "hello" |} "BV1" 2
  = Raise MalformedRecord.
Proof.
  apply (C6_short_payload_rejected
           {| attrib_p := Some "12.5,1,25"; text := Some "hello" |} "BV1" 2).
  vm_compute. lia.
Defined.


(** Three units under the default limit of two. *)
Lemma C9_witness :
  exists s,
    Semaphore.run (Semaphore.init default_config 3) sample_actions = Some s /\
    0 <= Semaphore.in_flight s <= 2.
Proof.
  eexists. split; [vm_compute; reflexivity|].
  apply (C9_concurrency_ceiling default_config 3 sample_actions).
  vm_compute. reflexivity.
Defined.

(** The info payload of a video found as [BV1] carries an empty short id:
    the crawl returns a bundle whose short id is empty. *)
Lemma C10_counterexample :
  fst (crawl view_without_id plain_config (fun l => l) empty_world)
  = Ok [ {| video := {| aid := 1; bvid := EmptyString; cid := 2;
                        title := EmptyString; keyword := "LLM";
                        duration := None; publish_time := None;
                        owner_name := None; view_count := None;
                        danmaku_count := None; like_count := None;
                        ranking_index := Some 1 |};
            danmaku := [] |} ].
Proof. vm_compute. reflexivity. Qed.

(** A search result without ["bvid"] is skipped. *)
Lemma C10_witness :
  scan_result "LLM" sched0 (PDict [("title", PStr "x")]) = Ok sched0 /\
  _collect_video_bundle unreachable plain_config (PDict [("title", PStr "x")])
    "LLM" 1 empty_world = (Ok None, empty_world).
Proof.
  destruct (C10_falsy_bvid_skipped unreachable plain_config) as (Hscan & Hunit & _).
  split; [apply Hscan | apply Hunit]; reflexivity.
Defined.

End Runs.

(* ===================================================================== *)
(** * The fetch client: success after retries *)
(* ===================================================================== *)

Section RetryFacts.
Import Py Models Persistence Config Crawler Spec Scenarios Retry.

Variable net : network.
Variable config : CrawlerConfig.

Lemma attempt_once_world req w :
  snd (attempt_once net config req w) = add_events w (attempt_events config req).
Proof.
  unfold attempt_once, attempt_events, add_events.
  destruct (q_truthy (sleep_interval config)); simpl;
    unfold mbind, M_bind, bind, sleep, emit, ret, client_get, raise_for_status, raise;
    simpl; rewrite ?app_nil_r;
    destruct (net _ req) as [e'|r]; simpl; rewrite <- ?app_assoc; try reflexivity;
    destruct ((200 <=? status_code r) && (status_code r <? 300)); reflexivity.
Qed.

Lemma attempt_once_succeeds req w r :
  net (log w ++ removelast (attempt_events config req)) req = Responds r ->
  is_success r = true ->
  attempt_once net config req w = (Ok r, add_events w (attempt_events config req)).
Proof.
  unfold attempt_once, attempt_events, add_events, is_success.
  destruct (q_truthy (sleep_interval config)); simpl;
    unfold mbind, M_bind, bind, sleep, emit, ret, client_get, raise_for_status, raise;
    simpl; rewrite ?app_nil_r; intros -> Hs; simpl; rewrite Hs;
    rewrite <- ?app_assoc; reflexivity.
Qed.

Lemma attempt_once_ok req w r w' :
  attempt_once net config req w = (Ok r, w') -> is_success r = true.
Proof.
  unfold attempt_once, is_success.
  unfold mbind, M_bind, bind, sleep, emit, ret, client_get, raise_for_status, raise.
  destruct (q_truthy (sleep_interval config)); simpl;
    destruct (net _ req) as [e'|r0]; simpl; try discriminate;
    destruct ((200 <=? status_code r0) && (status_code r0 <? 300)) eqn:Hs;
    try discriminate; intros [= <- _]; exact Hs.
Qed.

Lemma retry_events_cons req a m :
  0 <= m ->
  retry_events config req a (m + 1)
  = attempt_events config req ++ Sleep ((3 # 2) * inject_Z a)%Q
      :: retry_events config req (a + 1) m.
Proof.
  intros Hm. unfold retry_events. rewrite seqZ_cons by lia. simpl flat_map.
  replace (Z.succ a) with (a + 1) by lia.
  replace (Z.pred (m + 1)) with m by lia.
  rewrite <- app_assoc. reflexivity.
Qed.

Lemma retry_events_zero req a : retry_events config req a 0 = [].
Proof. reflexivity. Qed.

(** The loop entered after [a] failures, when the next [m] attempts fail
    and the one after them succeeds. *)
Lemma request_loop_succeeds req r :
  forall (m : nat) (fuel : nat) (a : Z) w,
    0 <= a -> (m = 0%nat \/ a + Z.of_nat m < retry_attempts config) ->
    (m <= fuel)%nat ->
    (forall i, 0 <= i < Z.of_nat m ->
       attempt_failure
         (next_answer net config req w (retry_events config req (a + 1) i)) <> None) ->
    next_answer net config req w (retry_events config req (a + 1) (Z.of_nat m))
      = Responds r ->
    is_success r = true ->
    request_loop net config fuel req a w
    = (Ok r, add_events w (retry_events config req (a + 1) (Z.of_nat m)
                             ++ attempt_events config req)).
Proof.
  induction m as [|m IH]; intros fuel a w Ha Hlim Hfuel Hfail Hok Hs.
  - unfold next_answer in Hok. simpl in Hok.
    destruct fuel; simpl; rewrite (attempt_once_succeeds _ _ _ Hok Hs); reflexivity.
  - destruct fuel as [|fuel]; [lia|].
    destruct Hlim as [Hlim|Hlim]; [discriminate|].
    destruct (attempt_failure
                (net (log w ++ removelast (attempt_events config req)) req))
      as [e0|] eqn:He.
    2:{ exfalso. apply (Hfail 0 ltac:(lia)). unfold next_answer.
        rewrite retry_events_zero. exact He. }
    simpl. rewrite (attempt_once_fails net config _ _ _ He).
    replace (a + 1 >=? retry_attempts config) with false
      by (symmetry; rewrite Z.geb_leb; apply Z.leb_gt; lia).
    unfold sleep, emit. cbv beta iota.
    set (w1 := {| log := log (add_events w (attempt_events config req))
                           ++ [Sleep ((3 # 2) * inject_Z (a + 1))%Q];
                  files := files (add_events w (attempt_events config req)) |}).
    assert (forall evs,
              next_answer net config req w1 evs
              = next_answer net config req w
                  (attempt_events config req
                     ++ Sleep ((3 # 2) * inject_Z (a + 1))%Q :: evs)) as Hshift.
    { intros evs. unfold next_answer, w1, add_events. simpl.
      f_equal. rewrite <- !app_assoc. reflexivity. }
    rewrite (IH fuel (a + 1) w1).
    + f_equal. unfold w1, add_events. simpl. f_equal.
      replace (Z.of_nat (S m)) with (Z.of_nat m + 1) by lia.
      rewrite (retry_events_cons req (a + 1) (Z.of_nat m)) by lia.
      rewrite <- !app_assoc. reflexivity.
    + lia.
    + destruct m; [left; reflexivity | right; lia].
    + lia.
    + intros i Hi. rewrite Hshift.
      rewrite <- (retry_events_cons req (a + 1) i) by lia.
      apply Hfail. lia.
    + rewrite Hshift.
      rewrite <- (retry_events_cons req (a + 1) (Z.of_nat m)) by lia.
      replace (Z.of_nat m + 1) with (Z.of_nat (S m)) by lia. exact Hok.
    + exact Hs.
Qed.

(** X1.  If the attempts before the [k]-th fail and the [k]-th gets a 2xx
    response, with [k] within the ceiling (or [k = 1]), [_request] returns
    that response after exactly those [k] attempts, having waited
    [1.5 * i] seconds after each failed attempt [i]. *)
Theorem X1_request_first_success (req : request) (w : world) (k : Z) (r : response) :
  1 <= k -> k <= Z.max 1 (retry_attempts config) ->
  (forall i, 1 <= i < k ->
     attempt_failure
       (next_answer net config req w (retry_events config req 1 (i - 1))) <> None) ->
  next_answer net config req w (retry_events config req 1 (k - 1)) = Responds r ->
  is_success r = true ->
  _request net config req w
  = (Ok r, add_events w (retry_events config req 1 (k - 1)
                           ++ attempt_events config req)).
Proof.
  intros Hk Hmax Hfail Hok Hs. unfold _request.
  replace (k - 1) with (Z.of_nat (Z.to_nat (k - 1))) in * by lia.
  apply (request_loop_succeeds req r (Z.to_nat (k - 1))
           (Z.to_nat (retry_attempts config)) 0 w); try assumption; try lia.
  intros i Hi. specialize (Hfail (i + 1) ltac:(lia)).
  replace (i + 1 - 1) with i in Hfail by lia. exact Hfail.
Qed.

(** The loop's footprint, whatever the service does. *)
Lemma request_loop_footprint req :
  forall fuel a w,
    exists evs,
      snd (request_loop net config fuel req a w) = add_events w evs /\
      1 <= count_gets evs <= Z.max 1 (retry_attempts config - a).
Proof.
  induction fuel as [|fuel IH]; intros a w;
    pose proof (attempt_once_world req w) as Hw;
    pose proof (count_gets_attempt config req) as Hc;
    simpl; destruct (attempt_once net config req w) as [[r|exc] w1]; simpl in Hw;
    subst w1.
  1,3: exists (attempt_events config req); split; [reflexivity | lia].
  - destruct (a + 1 >=? retry_attempts config).
    + exists (attempt_events config req). split; [reflexivity | lia].
    + exists (attempt_events config req ++ [Sleep ((3 # 2) * inject_Z (a + 1))%Q]).
      split; [unfold sleep, emit, add_events; simpl; rewrite <- app_assoc; reflexivity|].
      rewrite count_gets_app. simpl. lia.
  - destruct (a + 1 >=? retry_attempts config) eqn:Hge.
    + exists (attempt_events config req). split; [reflexivity | lia].
    + rewrite Z.geb_leb in Hge. apply Z.leb_gt in Hge.
      unfold sleep, emit. cbv beta iota.
      destruct (IH (a + 1)
                  {| log := log (add_events w (attempt_events config req))
                              ++ [Sleep ((3 # 2) * inject_Z (a + 1))%Q];
                     files := files (add_events w (attempt_events config req)) |})
        as (evs & Hevs & Hcount).
      exists (attempt_events config req
                ++ Sleep ((3 # 2) * inject_Z (a + 1))%Q :: evs).
      split.
      * rewrite Hevs. unfold add_events. simpl. f_equal.
        rewrite <- !app_assoc. reflexivity.
      * rewrite count_gets_app. simpl. lia.
Qed.

Lemma request_loop_ok_success req :
  forall fuel a w r w',
    request_loop net config fuel req a w = (Ok r, w') -> is_success r = true.
Proof.
  induction fuel as [|fuel IH]; intros a w0 r w'; simpl;
    destruct (attempt_once net config req w0) as [[r0|exc] w1] eqn:Hat.
  1,3: intros [= <- _]; exact (attempt_once_ok _ _ _ _ Hat).
  - destruct (a + 1 >=? retry_attempts config); discriminate.
  - destruct (a + 1 >=? retry_attempts config); [discriminate|].
    unfold sleep, emit. cbv beta iota. apply IH.
Qed.

(** X2.  Whatever the service answers, [_request] sends at least one and
    at most [max(1, retry_attempts)] GETs, leaves the files alone, and
    returns only responses with a 2xx status.  With [retry_attempts <= 1],
    zero and negative values included, it is a single attempt. *)
Theorem X2_request_bounds (req : request) (w : world) :
  (exists evs,
      snd (_request net config req w) = add_events w evs /\
      1 <= count_gets evs <= Z.max 1 (retry_attempts config)) /\
  (forall r w', _request net config req w = (Ok r, w') -> is_success r = true) /\
  (retry_attempts config <= 1 ->
   _request net config req w = attempt_once net config req w).
Proof.
  repeat apply conj.
  - destruct (request_loop_footprint req (Z.to_nat (retry_attempts config)) 0 w)
      as (evs & Hevs & Hcount).
    exists evs. split; [exact Hevs|]. rewrite Z.sub_0_r in Hcount. exact Hcount.
  - intros r w'. apply request_loop_ok_success.
  - intros Hle. unfold _request.
    destruct (Z.to_nat (retry_attempts config)); simpl;
      destruct (attempt_once net config req w) as [[r|exc] w1]; try reflexivity;
      replace (0 + 1 >=? retry_attempts config) with true
        by (symmetry; rewrite Z.geb_leb; apply Z.leb_le; lia);
      reflexivity.
Qed.

Lemma request_first_attempt req w r :
  next_answer net config req w [] = Responds r ->
  is_success r = true ->
  _request net config req w = (Ok r, add_events w (attempt_events config req)).
Proof.
  intros Hok Hs. unfold _request.
  exact (request_loop_succeeds req r 0 _ 0 w ltac:(lia) (or_introl eq_refl)
           ltac:(lia) ltac:(intros; lia) Hok Hs).
Qed.

(** X3.  A 2xx response is never requested again, whatever its body: when
    the first attempt gets a 2xx response, [_request_json] makes that
    single GET and returns the JSON document or, if the body is not JSON,
    raises the decode error; [_fetch_danmaku] likewise returns the nodes
    or raises the parse error of a body that is not XML. *)
Theorem X3_decode_errors_not_retried (req : request) (w : world) (r : response) :
  next_answer net config req w [] = Responds r ->
  is_success r = true ->
  _request_json net config req w
  = (match body_json r with
     | Some doc => Ok doc
     | None => Raise JSONDecodeError
     end, add_events w (attempt_events config req)) /\
  (forall cid bvid,
      req = danmaku_request config cid bvid ->
      _fetch_danmaku net config cid bvid w
      = (match body_xml r with
         | Some nodes => Ok nodes
         | None => Raise ParseError
         end, add_events w (attempt_events config req))).
Proof.
  intros Hok Hs. pose proof (request_first_attempt req w r Hok Hs) as Hreq.
  split.
  - unfold _request_json. rewrite (bind_ok _ _ _ _ _ Hreq).
    destruct (body_json r); reflexivity.
  - intros cid bvid ->. unfold _fetch_danmaku.
    unfold danmaku_request in Hreq. rewrite (bind_ok _ _ _ _ _ Hreq).
    destruct (body_xml r); reflexivity.
Qed.

End RetryFacts.

(* ===================================================================== *)
(** * The results of a search *)
(* ===================================================================== *)

Section ShareFacts.
Import Py Models Persistence Config Crawler Spec.
Variable net : network.
Variable config : CrawlerConfig.

(** While the share is not met, the inner loop of a search appends the
    items up to the share: the global ceiling never cuts earlier. *)
Lemma extend_take pk :
  pk <= max_videos config \/ pk <= 1 ->
  forall items results,
    len results < pk ->
    extend config pk results items
    = results ++ firstn (Z.to_nat (pk - len results)) items.
Proof.
  intros Hfit. induction items as [|it rest IH]; intros results Hlt.
  - rewrite firstn_nil, app_nil_r. reflexivity.
  - cbn [extend].
    assert (Hlen : len (results ++ [it]) = len results + 1).
    { unfold len. rewrite length_app. simpl. lia. }
    replace (Z.to_nat (pk - len results))
      with (S (Z.to_nat (pk - len (results ++ [it])))) by lia.
    cbn [firstn].
    destruct (len (results ++ [it]) >=? pk) eqn:Hpk.
    + rewrite Z.geb_leb in Hpk. apply Z.leb_le in Hpk.
      replace (Z.to_nat (pk - len (results ++ [it]))) with 0%nat by lia.
      reflexivity.
    + rewrite Z.geb_leb in Hpk. apply Z.leb_gt in Hpk.
      destruct (len (results ++ [it]) >=? max_videos config) eqn:Hmv.
      * rewrite Z.geb_leb in Hmv. apply Z.leb_le in Hmv. unfold len in *. lia.
      * cbn [orb]. rewrite IH by lia. rewrite <- app_assoc. reflexivity.
Qed.

Lemma per_keyword_share_fits :
  per_keyword_share config <= max_videos config \/ per_keyword_share config <= 1.
Proof.
  unfold per_keyword_share.
  destruct (Z_lt_le_dec (max_videos config / Z.max 1 (len (keywords config))) 1)
    as [Hsmall|Hbig]; [right; lia|left].
  rewrite Z.max_r by lia.
  assert (0 <= max_videos config).
  { destruct (Z_lt_le_dec (max_videos config) 0) as [Hneg|]; [|lia].
    assert (max_videos config / Z.max 1 (len (keywords config)) < 0)
      by (apply Z.div_lt_upper_bound; lia).
    lia. }
  apply Z.div_le_upper_bound; [lia|]. nia.
Qed.

(** The pages of a search, taken together: while no stop condition holds
    after a proper prefix, the accumulated results are the concatenation
    of the pages cut at the share, every page but the last is not empty,
    and there are at most as many pages as the share has room for. *)
Lemma accumulate_concat pk :
  pk <= max_videos config \/ pk <= 1 ->
  forall pages results page0,
    len results < pk ->
    (forall k, (0 < k < length pages)%nat ->
               stops_after_from config pk results page0 (firstn k pages) = false) ->
    fold_left (extend config pk) pages results
    = firstn (Z.to_nat pk) (results ++ concat pages) /\
    len pages <= Z.max 1 (pk - len results).
Proof.
  intros Hfit. induction pages as [|p ps IH]; intros results page0 Hlt Hgo.
  - cbn [fold_left concat]. rewrite app_nil_r. split.
    + symmetry. apply firstn_all2. unfold len in Hlt. lia.
    + unfold len. simpl. lia.
  - cbn [fold_left concat]. rewrite (extend_take pk Hfit) by assumption.
    destruct ps as [|p' ps'].
    + cbn [fold_left concat]. rewrite app_nil_r. split.
      * rewrite firstn_app. rewrite (firstn_all2 results) by (unfold len in Hlt; lia).
        f_equal. f_equal. unfold len. lia.
      * unfold len. simpl. lia.
    + pose proof (Hgo 1%nat ltac:(simpl; lia)) as H1.
      unfold stops_after_from in H1. cbn [firstn last] in H1.
      change (last [p]) with (Some p) in H1.
      cbn [fold_left] in H1. rewrite (extend_take pk Hfit) in H1 by assumption.
      destruct p as [|x p1]; [discriminate|].
      apply orb_false_iff in H1 as [H1 _]. apply Z.leb_gt in H1.
      assert (Hwhole : firstn (Z.to_nat (pk - len results)) (x :: p1) = x :: p1).
      { apply firstn_all2. revert H1. unfold len.
        rewrite length_app, length_firstn. lia. }
      rewrite Hwhole. rewrite Hwhole in H1.
      assert (Hlen : len (results ++ x :: p1) = len results + 1 + len p1).
      { unfold len. rewrite length_app. simpl. lia. }
      destruct (IH (results ++ x :: p1) (page0 + 1) H1) as [Hacc Hcount].
      { intros k Hk. pose proof (Hgo (S k) ltac:(simpl in Hk |- *; lia)) as Hs.
        cbn [firstn] in Hs.
        rewrite stops_after_from_cons in Hs
          by (destruct k; [lia|discriminate]).
        rewrite (extend_take pk Hfit), Hwhole in Hs by assumption.
        exact Hs. }
      split.
      * rewrite Hacc. rewrite <- app_assoc. reflexivity.
      * rewrite Hlen in H1, Hcount. revert H1 Hcount. unfold len. simpl length. lia.
Qed.

Lemma search_keyword_length keyword pk w res w' :
  _search_keyword net config keyword pk w = (Ok res, w') ->
  len res <= Z.max 0 pk.
Proof.
  unfold _search_keyword. intros Hrun.
  apply bind_ok_inv in Hrun as (results & w1 & _ & Hret).
  injection Hret as <- _. unfold len. rewrite length_firstn. lia.
Qed.

(** X4.  A search that returns gives the results of the pages it fetched,
    in page order, cut at the keyword's share: nothing is dropped,
    reordered or repeated by the accumulation.  It fetched at least one
    page and at most as many pages as the share; with a non-zero
    [pages_per_keyword] it fetched at most that many pages, and one page
    when that number is negative. *)
Theorem X4_search_results_are_page_prefix keyword w res w' :
  _search_keyword net config keyword (per_keyword_share config) w = (Ok res, w') ->
  exists pages,
    fetched net config keyword 1 w pages w' /\
    res = firstn (Z.to_nat (per_keyword_share config)) (concat pages) /\
    1 <= len pages <= per_keyword_share config /\
    (forall c, pages_per_keyword config = Some c -> c <> 0 ->
               len pages <= Z.max 1 c).
Proof.
  intros Hrun. unfold _search_keyword in Hrun.
  apply bind_ok_inv in Hrun as (results & w1 & Hloop & Hret).
  injection Hret as <- <-.
  pose proof (per_keyword_share_pos config) as Hpos.
  apply search_loop_pages in Hloop
    as (pages & Hfetched & -> & Hsome & _ & _ & Hgo); [|unfold len; simpl; lia].
  assert (Hne : pages <> []) by (apply Hsome; unfold len; simpl; lia).
  destruct (accumulate_concat _ per_keyword_share_fits pages [] 1) as [Hacc Hcount];
    [unfold len; simpl; lia|exact Hgo|].
  exists pages. split; [exact Hfetched|]. split.
  { rewrite Hacc. cbn [app]. rewrite firstn_firstn. f_equal. lia. }
  split.
  { split; [destruct pages; [congruence|unfold len; simpl; lia]|].
    revert Hcount. unfold len. simpl. lia. }
  intros c Hc Hc0.
  destruct (Nat.le_gt_cases (length pages) 1) as [Hone|Hmore];
    [unfold len; lia|].
  pose proof (Hgo (length pages - 1)%nat ltac:(lia)) as Hs.
  unfold stops_after_from in Hs.
  destruct (last (firstn (length pages - 1) pages)) as [[|]|];
    [discriminate| |];
    apply orb_false_iff in Hs as [_ Hs];
    unfold ceiling_hit in Hs; rewrite Hc in Hs;
    (destruct (c =? 0) eqn:E; [apply Z.eqb_eq in E; congruence|]);
    cbn [negb andb] in Hs; rewrite Z.gtb_ltb in Hs; apply Z.ltb_ge in Hs;
    unfold len in *; rewrite length_firstn in Hs; lia.
Qed.

End ShareFacts.

(* ===================================================================== *)
(** * The size of a crawl *)
(* ===================================================================== *)

Section SizeFacts.
Import Py Models Persistence Config Crawler Spec.
Variable net : network.
Variable config : CrawlerConfig.

Lemma scan_results_count keyword :
  forall rs st st',
    scan_results keyword st rs = Ok st' ->
    len (tasks st') <= len (tasks st) + len rs.
Proof.
  induction rs as [|r rs IH]; intros st st' Hscan.
  - injection Hscan as <-. unfold len. simpl. lia.
  - cbn [scan_results] in Hscan.
    destruct (scan_result keyword st r) as [st1|e] eqn:Hone; [|discriminate].
    apply IH in Hscan.
    assert (len (tasks st1) <= len (tasks st) + 1).
    { apply scan_result_cases in Hone
        as [[_ ->]|[(b & _ & _ & ->)|(b & _ & _ & ->)]];
        unfold len; cbn [tasks]; rewrite ?length_app; simpl; lia. }
    revert Hscan. unfold len in *. simpl length. lia.
Qed.

Lemma schedule_count :
  forall kws st w st' w',
    schedule_keywords net config kws st w = (Ok st', w') ->
    len (tasks st') <= len (tasks st) + len kws * per_keyword_share config.
Proof.
  induction kws as [|kw kws IH]; intros st w st' w' Hrun.
  - injection Hrun as <- _. unfold len. simpl. lia.
  - cbn [schedule_keywords] in Hrun.
    apply bind_ok_inv in Hrun as (rs & w1 & Hsearch & Hrun).
    apply bind_ok_inv in Hrun as (st1 & w2 & Hscan & Hrun).
    unfold lift in Hscan. injection Hscan as Hscan <-.
    apply search_keyword_length in Hsearch.
    apply scan_results_count in Hscan. apply IH in Hrun.
    pose proof (per_keyword_share_pos config).
    revert Hsearch Hscan Hrun. unfold len. simpl length. nia.
Qed.

Lemma gather_length :
  forall completing bundles w bs w',
    gather net config completing bundles w = (Ok bs, w') ->
    (length bs <= length bundles + length completing)%nat.
Proof.
  induction completing as [|t rest IH]; intros bundles w bs w' Hrun.
  - injection Hrun as <- _. simpl. lia.
  - cbn [gather] in Hrun.
    apply bind_ok_inv in Hrun as (bundle & w1 & _ & Hrun).
    apply IH in Hrun. destruct bundle; rewrite ?length_app in Hrun; simpl in *; lia.
Qed.

Lemma share_total :
  len (keywords config) * per_keyword_share config
  <= Z.max (len (keywords config)) (max_videos config).
Proof.
  unfold per_keyword_share.
  assert (0 <= len (keywords config)) by (unfold len; lia).
  destruct (Z.eq_dec (len (keywords config)) 0) as [->|Hn]; [lia|].
  rewrite (Z.max_r 1 (len (keywords config))) by lia.
  destruct (Z_lt_le_dec (max_videos config / len (keywords config)) 1).
  - rewrite Z.max_l by lia. lia.
  - rewrite Z.max_r by lia.
    pose proof (Z.mul_div_le (max_videos config) (len (keywords config))
                  ltac:(lia)). lia.
Qed.

Lemma schedule_size w st w' :
  schedule_keywords net config (keywords config) sched0 w = (Ok st, w') ->
  len (tasks st) <= Z.max (len (keywords config)) (max_videos config).
Proof.
  intros Hrun. apply schedule_count in Hrun.
  pose proof share_total. revert Hrun. unfold len in *. simpl length. lia.
Qed.

Lemma crawl_size completion w bs w' :
  (forall ts, (length (completion ts) <= length ts)%nat) ->
  crawl net config completion w = (Ok bs, w') ->
  len bs <= Z.max (len (keywords config)) (max_videos config).
Proof.
  intros Hcompl Hrun. unfold crawl in Hrun.
  apply bind_ok_inv in Hrun as (st & w1 & Hs & Hg).
  apply schedule_size in Hs. apply gather_length in Hg.
  specialize (Hcompl (tasks st)). revert Hs Hg Hcompl. unfold len. simpl length. lia.
Qed.

(** X5.  A crawl schedules at most [max(len(keywords), max_videos)]
    units, and returns at most that many bundles: every keyword gets a
    share of at least one video, so [max_videos] bounds the crawl only
    when it is at least the number of keywords. *)
Theorem X5_crawl_size w :
  (forall st w', schedule_keywords net config (keywords config) sched0 w = (Ok st, w') ->
                 len (tasks st) <= Z.max (len (keywords config)) (max_videos config)) /\
  (forall completion bs w',
      (forall ts, (length (completion ts) <= length ts)%nat) ->
      crawl net config completion w = (Ok bs, w') ->
      len bs <= Z.max (len (keywords config)) (max_videos config)).
Proof.
  split.
  - intros st w'. apply schedule_size.
  - intros completion bs w'. apply crawl_size.
Qed.

End SizeFacts.

(* ===================================================================== *)
(** * Time stamps are dates of the calendar *)
(* ===================================================================== *)

Section TimeFacts.
Import Py Datetime Models Persistence Spec.

Lemma yoe_bounds doe :
  0 <= doe <= 146096 ->
  let yoe := (doe - doe / 1460 + doe / 36524 - doe / 146096) / 365 in
  let doy := doe - (365 * yoe + yoe / 4 - yoe / 100) in
  0 <= yoe <= 399 /\ 0 <= doy <= 365 /\
  (doy = 365 -> yoe mod 4 = 3 /\ (yoe mod 100 <> 99 \/ yoe = 399)).
Proof.
  intros H yoe doy. subst doy yoe. Z.div_mod_to_equations. lia.
Qed.

Lemma month_day doy :
  0 <= doy <= 365 ->
  let mp := (5 * doy + 2) / 153 in
  let d := doy - (153 * mp + 2) / 5 + 1 in
  0 <= mp <= 11 /\ 1 <= d /\
  (mp = 11 -> d <= 29 /\ (d = 29 -> doy = 365)) /\
  (mp = 1 \/ mp = 3 \/ mp = 6 \/ mp = 8 -> d <= 30) /\
  d <= 31.
Proof.
  intros H mp d. subst d mp. Z.div_mod_to_equations. lia.
Qed.

(** The calendar date of a day count is a date of the calendar: the month
    is one of the twelve and the day exists in that month of that year. *)
Lemma civil_from_days_valid days :
  let '(y, m, d) := civil_from_days days in
  1 <= m <= 12 /\ 1 <= d <= days_in_month y m.
Proof.
  unfold civil_from_days.
  set (z := days + 719468). set (era := z / 146097).
  set (doe := z - era * 146097).
  assert (Hdoe : 0 <= doe <= 146096).
  { subst doe era. Z.div_mod_to_equations. lia. }
  pose proof (yoe_bounds doe Hdoe) as Hy. cbv zeta in Hy.
  set (yoe := (doe - doe / 1460 + doe / 36524 - doe / 146096) / 365) in *.
  set (doy := doe - (365 * yoe + yoe / 4 - yoe / 100)) in *.
  destruct Hy as (Hyoe & Hdoy & Hleap).
  pose proof (month_day doy Hdoy) as Hm. cbv zeta in Hm.
  set (mp := (5 * doy + 2) / 153) in *.
  set (d := doy - (153 * mp + 2) / 5 + 1) in *.
  destruct Hm as (Hmp & Hd1 & Hfeb & H30 & H31).
  unfold days_in_month, is_leap.
  destruct (mp <? 10) eqn:Emp; [apply Z.ltb_lt in Emp|apply Z.ltb_ge in Emp].
  - replace (mp + 3 <=? 2) with false by (symmetry; apply Z.leb_gt; lia).
    replace (mp + 3 =? 2) with false by (symmetry; apply Z.eqb_neq; lia).
    split; [lia|split; [lia|]].
    destruct ((mp + 3 =? 4) || (mp + 3 =? 6) || (mp + 3 =? 9) || (mp + 3 =? 11)) eqn:E30;
      [|lia].
    apply H30. repeat (apply orb_true_iff in E30 as [E30|E30]);
      apply Z.eqb_eq in E30; lia.
  - replace (mp - 9 <=? 2) with true by (symmetry; apply Z.leb_le; lia).
    split; [lia|split; [lia|]].
    destruct (mp - 9 =? 2) eqn:E2; [apply Z.eqb_eq in E2|apply Z.eqb_neq in E2].
    + assert (Hmp11 : mp = 11) by lia. destruct (Hfeb Hmp11) as [H29 Hlast].
      match goal with |- d <= (if ?c then _ else _) => destruct c eqn:El end; [lia|].
      destruct (Z.eq_dec d 29) as [E29|]; [|lia]. exfalso.
      destruct (Hleap (Hlast E29)) as [H4 H100].
      apply orb_false_iff in El as [El1 El2].
      apply Z.eqb_neq in El2.
      apply andb_false_iff in El1 as [El1|El1].
      * apply Z.eqb_neq in El1. revert El1 H4. Z.div_mod_to_equations. lia.
      * apply negb_false_iff, Z.eqb_eq in El1.
        revert El1 El2 H100 H4. Z.div_mod_to_equations. lia.
    + replace ((mp - 9 =? 4) || (mp - 9 =? 6) || (mp - 9 =? 9) || (mp - 9 =? 11))
        with false; [lia|].
      symmetry. repeat (apply orb_false_iff; split); apply Z.eqb_neq; lia.
Qed.

Lemma of_epoch_micros_valid us d :
  of_epoch_micros us = Ok d -> valid d = true /\ utcoffset d = Some 0.
Proof.
  unfold of_epoch_micros.
  pose proof (civil_from_days_valid (us / 1000000 / 86400)) as Hc.
  destruct (civil_from_days (us / 1000000 / 86400)) as [[y m] dd].
  destruct Hc as [Hm Hd].
  destruct ((1 <=? y) && (y <=? 9999)) eqn:Hy; [|discriminate].
  intros [= <-]. split; [|reflexivity].
  apply andb_true_iff in Hy as [Hy1 Hy2].
  unfold valid; cbn [year month day hour minute second microsecond utcoffset].
  rewrite Hy1, Hy2.
  repeat (apply andb_true_iff; split); try reflexivity;
    first [apply Z.leb_le | apply Z.ltb_lt]; try lia;
    Z.div_mod_to_equations; lia.
Qed.

Lemma fromtimestamp_utc_valid t d :
  fromtimestamp_utc t = Ok d -> valid d = true /\ utcoffset d = Some 0.
Proof.
  destruct t; simpl; try discriminate; try apply of_epoch_micros_valid.
  destruct (micros_of_float f); simpl; [apply of_epoch_micros_valid|discriminate].
Qed.

Lemma fromisoformat_valid s d : fromisoformat s = Ok d -> valid d = true.
Proof.
  unfold fromisoformat.
  destruct (parse_iso (list_ascii_of_string s)) as [d'|] eqn:E; [|discriminate].
  intros [= <-]. unfold parse_iso in E.
  repeat match type of E with
         | mbind _ ?x = Some _ =>
             let H := fresh "H" in
             destruct x as [[? ?]|] eqn:H; cbn [mbind option_bind] in E;
             [|discriminate]
         | mbind _ ?x = Some _ =>
             let H := fresh "H" in
             destruct x as [?|] eqn:H; cbn [mbind option_bind] in E;
             [|discriminate]
         end.
  match type of E with
  | (if valid ?dt then _ else _) = _ => destruct (valid dt) eqn:Hv; [|discriminate]
  end.
  injection E as <-. exact Hv.
Qed.

Lemma omapM_Forall {A B} (f : A -> outcome B) (P : B -> Prop) :
  (forall x y, f x = Ok y -> P y) ->
  forall l ys, omapM f l = Ok ys -> Forall P ys.
Proof.
  intros Hf. induction l as [|x l IH]; intros ys H.
  - injection H as <-. constructor.
  - cbn [omapM] in H. destruct (f x) as [y|] eqn:Hx; [|discriminate].
    cbn [obind] in H. destruct (omapM f l) as [ys'|]; [|discriminate].
    injection H as <-. constructor; [eapply Hf; eauto | apply IH; reflexivity].
Qed.

Lemma omapM_length {A B} (f : A -> outcome B) :
  forall l ys, omapM f l = Ok ys -> length ys = length l.
Proof.
  induction l as [|x l IH]; intros ys H.
  - injection H as <-. reflexivity.
  - cbn [omapM] in H. destruct (f x) as [y|]; [|discriminate].
    cbn [obind] in H. destruct (omapM f l) as [ys'|]; [|discriminate].
    injection H as <-. simpl. f_equal. apply IH. reflexivity.
Qed.

Lemma from_xml_node_invariants node b c r :
  from_xml_node node b c = Ok r ->
  valid (send_time r) = true /\ utcoffset (send_time r) = Some 0 /\
  video_bvid r = b /\ video_cid r = c /\
  author_hash r <> Some EmptyString /\
  (7 <= length (attrs_of node))%nat.
Proof.
  unfold from_xml_node. cbv zeta. intros H.
  destruct (Z.of_nat (length (attrs_of node)) <? 7) eqn:Hlen; [discriminate|].
  apply Z.ltb_ge in Hlen.
  do 7 (apply obind_ok in H as (? & _ & H)).
  apply obind_ok in H as (st & Hst & H).
  injection H as <-. cbn.
  apply fromtimestamp_utc_valid in Hst as [Hv Ho].
  repeat apply conj; try assumption; try reflexivity; [|lia].
  destruct (nth 5 (attrs_of node) EmptyString); simpl; congruence.
Qed.

Lemma from_view_api_invariants payload keyword c r metadata :
  from_view_api payload keyword c r = Ok metadata ->
  valid_opt (publish_time metadata) = true /\
  duration metadata <> Some 0.
Proof.
  unfold from_view_api. intros H.
  do 3 (apply obind_ok in H as (? & _ & H)).
  apply obind_ok in H as (pt & Hpt & H).
  repeat (apply obind_ok in H as (? & _ & H)).
  injection H as <-. cbn. split.
  - destruct (truthy _); [|injection Hpt as <-; reflexivity].
    apply obind_ok in Hpt as (t & Ht & Hpt). injection Hpt as <-.
    apply fromtimestamp_utc_valid in Ht as [Hv _]. exact Hv.
  - match goal with |- (if ?n =? 0 then _ else _) <> _ =>
      destruct (n =? 0) eqn:E; [discriminate|apply Z.eqb_neq in E; congruence] end.
Qed.

Lemma record_from_dict_valid item r :
  record_from_dict item = Ok r -> valid (send_time r) = true.
Proof.
  unfold record_from_dict. intros H.
  do 9 (apply obind_ok in H as (? & _ & H)).
  apply obind_ok in H as (st & Hst & H).
  repeat (apply obind_ok in H as (? & _ & H)).
  injection H as <-. cbn.
  unfold fromisoformat_val in Hst.
  match type of Hst with match ?v with _ => _ end = _ => destruct v; try discriminate end.
  eapply fromisoformat_valid; eauto.
Qed.

Lemma metadata_from_dict_valid v m :
  metadata_from_dict v = Ok m -> valid_opt (publish_time m) = true.
Proof.
  unfold metadata_from_dict. intros H.
  do 13 (apply obind_ok in H as (? & _ & H)).
  apply obind_ok in H as (pt & Hpt & H).
  repeat (apply obind_ok in H as (? & _ & H)).
  injection H as <-. cbn.
  destruct (truthy _); [|injection Hpt as <-; reflexivity].
  apply obind_ok in Hpt as (raw & _ & Hpt).
  apply obind_ok in Hpt as (t & Ht & Hpt). injection Hpt as <-.
  unfold fromisoformat_val in Ht. destruct raw; try discriminate.
  simpl. eapply fromisoformat_valid; eauto.
Qed.

Lemma from_dict_wf payload b : from_dict payload = Ok b -> wf_bundle b.
Proof.
  unfold from_dict. intros H.
  do 2 (apply obind_ok in H as (? & _ & H)).
  apply obind_ok in H as (m & Hm & H).
  apply obind_ok in H as (items & _ & H).
  apply obind_ok in H as (records & Hrs & H).
  injection H as <-. split; cbn.
  - eapply metadata_from_dict_valid; eauto.
  - eapply omapM_Forall; [|exact Hrs]. apply record_from_dict_valid.
Qed.

Lemma load_bundle_wf fs path b : load_bundle fs path = Ok b -> wf_bundle b.
Proof.
  unfold load_bundle. destruct (fs !! path) as [[doc|]|]; try discriminate.
  apply from_dict_wf.
Qed.

End TimeFacts.

(* ===================================================================== *)
(** * The file footprint of a unit *)
(* ===================================================================== *)

Section FootprintFacts.
Import Py Models Persistence Config Crawler Spec Footprint.
Variable net : network.
Variable config : CrawlerConfig.













(** A unit that returns a bundle returns a well-formed one, fetched or
    read from the cache. *)
Lemma collect_wf search_item keyword ranking_index w b w' :
  _collect_video_bundle net config search_item keyword ranking_index w
    = (Ok (Some b), w') ->
  wf_bundle b.
Proof.
  unfold _collect_video_bundle. intros H.
  apply bind_ok_inv in H as (bvid0 & w1 & _ & H).
  destruct bvid0 as [bvid|]; [|discriminate].
  apply bind_ok_inv in H as (hit & w2 & _ & H).
  destruct (enable_cache config && hit).
  { apply bind_ok_inv in H as (b0 & w3 & Hload & H).
    injection H as <- _. unfold load_bundle_io in Hload.
    injection Hload as Hload _. eapply load_bundle_wf; eauto. }
  apply bind_ok_inv in H as (view & w3 & _ & H).
  destruct view as [view_payload|]; [|discriminate].
  apply bind_ok_inv in H as (data & w4 & _ & H).
  destruct (negb (truthy data)); [discriminate|].
  apply bind_ok_inv in H as (cid & w5 & _ & H).
  destruct cid; [discriminate| ..];
    apply bind_ok_inv in H as (c & w6 & _ & H);
    apply bind_ok_inv in H as (metadata & w7 & Hmeta & H);
    apply bind_ok_inv in H as (c' & w8 & _ & H);
    apply bind_ok_inv in H as (nodes & w9 & _ & H);
    apply bind_ok_inv in H as (records & w10 & Hrec & H);
    apply bind_ok_inv in H as (u & w11 & _ & H);
    injection H as <- _;
    unfold lift in Hmeta, Hrec; injection Hmeta as Hmeta _;
    injection Hrec as Hrec _;
    (split; cbn;
     [ exact (proj1 (from_view_api_invariants _ _ _ _ _ Hmeta))
     | eapply omapM_Forall; [|exact Hrec];
       intros x y Hy; exact (proj1 (from_xml_node_invariants _ _ _ _ Hy)) ]).
Qed.



End FootprintFacts.

(* ===================================================================== *)
(** * The file footprint of a crawl *)
(* ===================================================================== *)

Section CrawlFootprint.
Import Py Models Persistence Config Crawler Spec Footprint.
Variable net : network.
Variable config : CrawlerConfig.






Lemma gather_Forall (P : VideoDanmakuBundle -> Prop) :
  (forall item keyword r w b w',
      _collect_video_bundle net config item keyword r w = (Ok (Some b), w') -> P b) ->
  forall completing bundles w bs w',
    gather net config completing bundles w = (Ok bs, w') ->
    Forall P bundles -> Forall P bs.
Proof.
  intros HP. induction completing as [|t rest IH]; intros bundles w bs w' Hrun Hall.
  - injection Hrun as <- _. exact Hall.
  - cbn [gather] in Hrun.
    apply bind_ok_inv in Hrun as (o & w1 & Hunit & Hrun).
    apply IH in Hrun; [exact Hrun|].
    destruct o as [b|]; [|exact Hall].
    apply Forall_app. split; [exact Hall|]. repeat constructor.
    eapply HP. exact Hunit.
Qed.

(** X6.  Every bundle a unit returns, fetched or read from the cache, has
    time stamps that are dates of the calendar with a time of day in
    range, and so is read back from its dictionary unchanged: the bundles
    [crawl] returns all survive the round trip through the cache. *)
Theorem X6_crawl_output_round_trips :
  (forall item keyword r w b w',
      _collect_video_bundle net config item keyword r w = (Ok (Some b), w') ->
      wf_bundle b /\ from_dict (to_dict b) = Ok b) /\
  (forall completion w bs w',
      crawl net config completion w = (Ok bs, w') ->
      Forall (fun b => wf_bundle b /\ from_dict (to_dict b) = Ok b) bs).
Proof.
  assert (Hunit : forall item keyword r w b w',
             _collect_video_bundle net config item keyword r w = (Ok (Some b), w') ->
             wf_bundle b /\ from_dict (to_dict b) = Ok b).
  { intros item keyword r w b w' Hrun.
    pose proof (collect_wf net config _ _ _ _ _ _ Hrun) as Hwf.
    split; [exact Hwf | apply from_dict_to_dict, Hwf]. }
  split; [exact Hunit|].
  intros completion w bs w' Hrun. unfold crawl in Hrun.
  apply bind_ok_inv in Hrun as (st & w1 & _ & Hrun).
  eapply gather_Forall in Hrun; [exact Hrun | exact Hunit | constructor].
Qed.



End CrawlFootprint.

(* ===================================================================== *)
(** * Replay from the cache *)
(* ===================================================================== *)

Section CacheFacts.
Import Py Models Persistence Config Crawler Spec Footprint.
Variable net : network.
Variable config : CrawlerConfig.







End CacheFacts.

(* ===================================================================== *)
(** * [iter_bundles] and [load_all] *)
(* ===================================================================== *)

Section DirectoryFacts.
Import Py Models Persistence Spec Footprint Directory.
Import stdpp.sorting.

Lemma ends_with_append suffix : forall s, ends_with suffix (s +:+ suffix) = true.
Proof.
  induction s as [|c s IH].
  - change (EmptyString +:+ suffix) with suffix.
    destruct suffix; simpl; [reflexivity|].
    rewrite Ascii.eqb_refl, String.eqb_refl. reflexivity.
  - change (String c s +:+ suffix) with (String c (s +:+ suffix)).
    cbn [ends_with]. rewrite IH. apply orb_true_r.
Qed.

Lemma compare_le_trans : forall a b c,
  String.compare a b <> Gt -> String.compare b c <> Gt -> String.compare a c <> Gt.
Proof.
  induction a as [|x a IH]; intros [|y b] [|z c]; simpl; try congruence.
  unfold Ascii.compare.
  destruct (N.compare_spec (Ascii.N_of_ascii x) (Ascii.N_of_ascii y)) as [Exy|Lxy|Gxy],
           (N.compare_spec (Ascii.N_of_ascii y) (Ascii.N_of_ascii z)) as [Eyz|Lyz|Gyz],
           (N.compare_spec (Ascii.N_of_ascii x) (Ascii.N_of_ascii z)) as [Exz|Lxz|Gxz];
    try congruence; try lia.
  apply IH.
Qed.

Global Instance name_le_total : Total name_le.
Proof. intros a b. apply String.leb_total. Qed.

Global Instance name_le_trans : Transitive name_le.
Proof.
  intros a b c. unfold name_le, String.leb. intros Hab Hbc.
  pose proof (compare_le_trans a b c) as H.
  destruct (String.compare a b); try discriminate;
    destruct (String.compare b c); try discriminate;
    destruct (String.compare a c); try reflexivity;
    exfalso; apply H; congruence.
Qed.

Global Instance name_le_antisym : AntiSymm (=) name_le.
Proof. intros a b. apply String.leb_antisym. Qed.

Lemma merge_sort_perm (l1 l2 : list string) :
  l1 ≡ₚ l2 -> merge_sort name_le l1 = merge_sort name_le l2.
Proof.
  intros Hp. apply (Sorted_unique name_le).
  - apply Sorted_merge_sort, _.
  - apply Sorted_merge_sort, _.
  - rewrite !merge_sort_Permutation. exact Hp.
Qed.

Lemma omapM_ext {A B} (f g : A -> outcome B) l :
  (forall x, x ∈ l -> f x = g x) -> omapM f l = omapM g l.
Proof.
  induction l as [|x l IH]; intros H; [reflexivity|].
  cbn [omapM]. rewrite (H x) by left.
  rewrite IH; [reflexivity|]. intros y Hy. apply H. right. exact Hy.
Qed.

Lemma omapM_all {A B} (f : A -> outcome B) (g : B -> A) l :
  (forall x, x ∈ l -> exists y, f x = Ok y /\ g y = x) ->
  exists ys, omapM f l = Ok ys /\ map g ys = l /\ Forall (fun y => f (g y) = Ok y) ys.
Proof.
  induction l as [|x l IH]; intros H.
  - exists []. repeat split. constructor.
  - destruct (H x ltac:(left)) as (y & Hy & Hg).
    destruct IH as (ys & Hys & Hmap & Hall); [intros z Hz; apply H; right; exact Hz|].
    exists (y :: ys). cbn [omapM]. rewrite Hy, Hys. cbn. rewrite Hg, Hmap.
    repeat split. constructor; [congruence | exact Hall].
Qed.

Lemma omapM_raises {A B} (f : A -> outcome B) l x e :
  x ∈ l -> f x = Raise e -> exists e', omapM f l = Raise e'.
Proof.
  induction l as [|y l IH]; intros Hin Hx; [inversion Hin|].
  cbn [omapM]. destruct (f y) as [b|e0] eqn:Hy; [|eexists; reflexivity].
  assert (Hl : x ∈ l).
  { apply elem_of_cons in Hin as [->|Hin]; [congruence | exact Hin]. }
  destruct (IH Hl Hx) as [e' ->]. eexists. reflexivity.
Qed.

Lemma glob_json_elem fs name :
  name ∈ glob_json fs <-> ends_with ".json" name = true /\ is_Some (fs !! name).
Proof.
  unfold glob_json. rewrite list_elem_of_filter, elem_of_elements, elem_of_dom.
  reflexivity.
Qed.

Lemma filter_all_in {A} (P : A -> Prop) `{forall x, Decision (P x)} (l : list A) :
  (forall x, x ∈ l -> P x) -> filter P l = l.
Proof.
  induction l as [|x l IH]; intros Hall; [reflexivity|].
  rewrite filter_cons_True by (apply Hall; left).
  f_equal. apply IH. intros y Hy. apply Hall. right. exact Hy.
Qed.

Lemma consistent_names fs name :
  consistent fs -> is_Some (fs !! name) -> ends_with ".json" name = true.
Proof.
  intros Hfs [f Hf]. destruct (Hfs _ _ Hf) as (b & _ & -> & _).
  apply ends_with_append.
Qed.

Lemma glob_json_consistent fs : consistent fs -> glob_json fs = elements (dom fs).
Proof.
  intros Hfs. unfold glob_json. apply filter_all_in.
  intros name Hin. apply elem_of_elements, elem_of_dom in Hin.
  eapply consistent_names; eauto.
Qed.

(** X10.  [load_all] reads the files named [*.json] in the order of their
    names and nothing else.  On a directory in which every file is the
    cache file of a well-formed bundle (as every crawl leaves it) it
    succeeds and returns one bundle per file, each the bundle of its
    file, ordered by file name without repetition.  A file with another
    name is ignored, whatever it holds; a [*.json] file that is not JSON
    makes [load_all] raise. *)
Theorem X10_load_all_reads_the_cache (fs : store) :
  (consistent fs ->
   exists bs,
     load_all fs = Ok bs /\
     length bs = size fs /\
     Sorted name_le (map cache_name bs) /\
     NoDup (map cache_name bs) /\
     Forall (fun b => wf_bundle b /\ fs !! cache_name b = Some (cache_file b)) bs) /\
  (forall name f,
      ends_with ".json" name = false ->
      load_all (<[name := f]> fs) = load_all fs) /\
  (forall name,
      ends_with ".json" name = true -> fs !! name = Some Garbled ->
      exists e, load_all fs = Raise e).
Proof.
  repeat apply conj.
  - intros Hfs. unfold load_all, iter_bundles.
    rewrite (glob_json_consistent fs Hfs).
    set (names := merge_sort name_le (elements (dom fs))).
    assert (Hperm : names ≡ₚ elements (dom fs)) by apply merge_sort_Permutation.
    destruct (omapM_all (load_bundle fs) cache_name names)
      as (bs & Hbs & Hmap & Hall).
    { intros name Hin. rewrite Hperm in Hin.
      apply elem_of_elements, elem_of_dom in Hin as [f Hf].
      destruct (Hfs _ _ Hf) as (b & Hwf & -> & ->).
      exists b. split; [|reflexivity].
      unfold load_bundle. rewrite Hf. apply from_dict_to_dict, Hwf. }
    exists bs. repeat apply conj.
    + exact Hbs.
    + rewrite <- (length_map cache_name), Hmap, Hperm.
      rewrite <- size_dom. reflexivity.
    + rewrite Hmap. apply Sorted_merge_sort, _.
    + rewrite Hmap, Hperm. apply NoDup_elements.
    + assert (Hin : forall b, b ∈ bs -> is_Some (fs !! cache_name b)).
      { intros b Hb. apply elem_of_dom, elem_of_elements. rewrite <- Hperm, <- Hmap.
        apply list_elem_of_fmap. exists b. auto. }
      rewrite Forall_forall in Hall. apply Forall_forall. intros b Hb.
      destruct (Hin b Hb) as [f Hf].
      destruct (Hfs _ _ Hf) as (b' & Hwf & Hname & ->).
      pose proof (Hall b Hb) as Hload. unfold load_bundle in Hload.
      rewrite Hf in Hload. unfold cache_file in Hload.
      rewrite (from_dict_to_dict _ Hwf) in Hload. injection Hload as ->.
      split; [exact Hwf | exact Hf].
  - intros name f Hname. unfold load_all, iter_bundles.
    assert (Hglob : glob_json (<[name := f]> fs) ≡ₚ glob_json fs).
    { apply NoDup_Permutation.
      - apply NoDup_filter, NoDup_elements.
      - apply NoDup_filter, NoDup_elements.
      - intros x. rewrite !glob_json_elem.
        destruct (decide (x = name)) as [->|Hne].
        + rewrite Hname. split; intros [? _]; discriminate.
        + rewrite lookup_insert_ne by congruence. reflexivity. }
    rewrite (merge_sort_perm _ _ Hglob).
    apply omapM_ext. intros x Hx.
    rewrite merge_sort_Permutation in Hx. apply glob_json_elem in Hx as [Hx _].
    unfold load_bundle. rewrite lookup_insert_ne; [reflexivity|].
    intros ->. congruence.
  - intros name Hname Hfile. unfold load_all, iter_bundles.
    apply (omapM_raises _ _ name JSONDecodeError).
    + rewrite merge_sort_Permutation. apply glob_json_elem. rewrite Hfile. eauto.
    + unfold load_bundle. rewrite Hfile. reflexivity.
Qed.

End DirectoryFacts.

(* ===================================================================== *)
(** * The parsers of [models.py] *)
(* ===================================================================== *)

Section ParserFacts.
Import Py Datetime Models Spec.

Lemma int_of_str_raises s e : int_of_str s = Raise e -> exists msg, e = ValueError msg.
Proof.
  unfold int_of_str. destruct (read_sign _) as [neg cs].
  destruct (digit_run cs) as [[|d ds] [|c rest]]; intros [= <-]; eauto.
Qed.

Lemma safe_int_str s :
  _safe_int (PStr s)
  = Ok (match int_of_str s with Ok n => Some n | Raise _ => None end).
Proof.
  unfold _safe_int. cbn [py_int].
  destruct (int_of_str s) as [n|e] eqn:E; [reflexivity|].
  destruct (int_of_str_raises _ _ E) as [msg ->]. reflexivity.
Qed.

(** X11.  [_safe_int] gives [int(value)] when that is defined and [None]
    when [int] raises a type or value error, which is all a string can
    raise; the one failure it lets through is the overflow error of an
    infinite float. *)
Theorem X11_safe_int_defaults :
  (forall s, _safe_int (PStr s)
             = Ok (match int_of_str s with Ok n => Some n | Raise _ => None end)) /\
  (forall v n, _safe_int v = Ok (Some n) <-> py_int v = Ok n) /\
  (forall v e, _safe_int v = Raise e <->
               exists sign, v = PFloat (S754_infinity sign) /\ py_int v = Raise e).
Proof.
  repeat apply conj.
  - exact safe_int_str.
  - intros v n. unfold _safe_int.
    destruct (py_int v) as [k|[]]; split; intros H; try discriminate; congruence.
  - intros v e. split.
    + intros H. destruct v as [|b|n|f|s|l|d]; try discriminate.
      * destruct f as [sg|sg| |sg mant ex]; try discriminate.
        exists sg. split; [reflexivity|]. unfold _safe_int in H.
        simpl in H |- *. injection H as <-. reflexivity.
      * rewrite safe_int_str in H. discriminate.
    + intros (sign & -> & H). simpl in H. injection H as <-. reflexivity.
Qed.


(** X13.  Metadata is built only from an info payload that is a [dict]
    with the keys [aid] and [bvid]; it carries [int(aid)], [str(bvid)]
    and the keyword, cid and rank it was given.  A duration of 0 and a
    falsy [pubdate] (0 included) are stored as absent, a missing title as
    the empty string, and a publish time, when present, is a time stamp of
    the years 1 to 9999 in UTC. *)
Theorem X13_metadata_fields payload keyword c r m :
  from_view_api payload keyword c r = Ok m ->
  exists d,
    payload = PDict d /\
    dict_lookup "aid" d <> None /\ dict_lookup "bvid" d <> None /\
    py_int (dict_get "aid" d) = Ok (aid m) /\
    py_str (dict_get "bvid" d) = Ok (bvid m) /\
    Models.keyword m = keyword /\ cid m = c /\ ranking_index m = r /\
    duration m <> Some 0 /\
    valid_opt (publish_time m) = true /\
    (truthy (dict_get "pubdate" d) = false <-> publish_time m = None) /\
    (dict_lookup "title" d = None -> title m = EmptyString).
Proof.
  intros H.
  pose proof (from_view_api_invariants _ _ _ _ _ H) as [Hv Hdur].
  unfold from_view_api in H.
  destruct payload as [| | | | | |d]; try discriminate.
  exists d. split; [reflexivity|].
  cbn [py_get py_item mbind outcome_bind obind] in H.
  apply obind_ok in H as (pt & Hpt & H).
  unfold dict_item in H.
  destruct (dict_lookup "aid" d) as [va|] eqn:Haid; [|discriminate].
  cbn [obind mbind outcome_bind] in H.
  apply obind_ok in H as (a & Ha & H).
  destruct (dict_lookup "bvid" d) as [vb|] eqn:Hbvid; [|discriminate].
  cbn [obind mbind outcome_bind] in H.
  apply obind_ok in H as (bv & Hbv & H).
  apply obind_ok in H as (ti & Hti & H).
  repeat (apply obind_ok in H as (? & _ & H)).
  injection H as <-. cbn in Hv, Hdur |- *.
  assert (Hga : dict_get "aid" d = va) by (unfold dict_get; rewrite Haid; reflexivity).
  assert (Hgb : dict_get "bvid" d = vb) by (unfold dict_get; rewrite Hbvid; reflexivity).
  rewrite Hga, Hgb.
  repeat apply conj; try congruence; try reflexivity; try assumption.
  - intros Hf. rewrite Hf in Hpt. injection Hpt as <-. reflexivity.
  - intros ->. destruct (truthy (dict_get "pubdate" d)); [|reflexivity].
    apply obind_ok in Hpt as (? & _ & Hpt). discriminate.
  - intros Hnt. rewrite Hnt in Hti. injection Hti as <-. reflexivity.
Qed.

End ParserFacts.

(* ===================================================================== *)
(** * Progress under the semaphore *)
(* ===================================================================== *)

Section ProgressFacts.
Import Config Semaphore Progress.

Lemma pending_zero us : pending us = 0%nat -> Forall (fun u => u = Finished) us.
Proof.
  induction us as [|[] us IH]; simpl; intros H; try discriminate; constructor; auto.
Qed.

Lemma find_running us : 0 < running us -> exists i, us !! i = Some Running.
Proof.
  induction us as [|u us IH]; simpl; [lia|]. intros H.
  destruct u; try (destruct (IH H) as [i Hi]; exists (S i); exact Hi).
  exists 0%nat. reflexivity.
Qed.

Lemma find_waiting us :
  running us = 0 -> pending us <> 0%nat -> exists i, us !! i = Some Waiting.
Proof.
  induction us as [|u us IH]; simpl; [congruence|]. intros Hr Hp.
  destruct u.
  - exists 0%nat. reflexivity.
  - pose proof (running_nonneg us). lia.
  - destruct (IH Hr Hp) as [i Hi]. exists (S i). exact Hi.
Qed.

Lemma pending_enter : forall us i,
  us !! i = Some Waiting -> pending (<[i := Running]> us) = (pending us - 1)%nat.
Proof.
  induction us as [|u us IH]; intros [|i] H; simpl in *; try discriminate.
  - injection H as ->. lia.
  - rewrite (IH i H).
    assert (0 < pending us)%nat.
    { clear IH. revert i H. induction us as [|v us IHus]; intros [|i] H;
        simpl in *; try discriminate.
      - injection H as ->. lia.
      - specialize (IHus i H). destruct v; lia. }
    destruct u; lia.
Qed.

Lemma pending_leave : forall us i,
  us !! i = Some Running -> pending (<[i := Finished]> us) = (pending us - 1)%nat.
Proof.
  induction us as [|u us IH]; intros [|i] H; simpl in *; try discriminate.
  - injection H as ->. lia.
  - rewrite (IH i H).
    assert (0 < pending us)%nat.
    { clear IH. revert i H. induction us as [|v us IHus]; intros [|i] H;
        simpl in *; try discriminate.
      - injection H as ->. lia.
      - specialize (IHus i H). destruct v; lia. }
    destruct u; lia.
Qed.

(** From a state with a permit in hand or a unit inside, the units can
    all be driven to the end. *)
Lemma drain : forall (m : nat) s,
  pending (units s) = m ->
  0 <= value s -> 1 <= value s + in_flight s ->
  exists acts s',
    run s acts = Some s' /\ all_finished s' /\
    length acts = m /\ length (units s') = length (units s).
Proof.
  induction m as [|m IH]; intros s Hm Hv Hk.
  - exists [], s. repeat split. apply pending_zero, Hm.
  - destruct (Z_lt_le_dec 0 (in_flight s)) as [Hrun|Hidle].
    + destruct (find_running _ Hrun) as [i Hi].
      set (s1 := {| value := value s + 1; units := <[i := Finished]> (units s) |}).
      assert (Hstep : step s (Release i) = Some s1).
      { unfold step. rewrite Hi. reflexivity. }
      destruct (step_balance _ _ _ _ Hstep Hv eq_refl) as [Hv1 Hk1].
      destruct (IH s1) as (acts & s' & Hacts & Hfin & Hlen & Hunits).
      { subst s1. cbn [units]. rewrite (pending_leave _ _ Hi). lia. }
      { exact Hv1. } { lia. }
      exists (Release i :: acts), s'. cbn [run]. rewrite Hstep. cbn.
      repeat split; auto. rewrite Hunits. subst s1. cbn [units].
      apply length_insert.
    + assert (Hr0 : running (units s) = 0).
      { pose proof (running_nonneg (units s)). unfold in_flight in Hidle. lia. }
      destruct (find_waiting _ Hr0 ltac:(lia)) as [i Hi].
      set (s1 := {| value := value s - 1; units := <[i := Running]> (units s) |}).
      assert (Hstep : step s (Acquire i) = Some s1).
      { unfold step. rewrite Hi.
        replace (0 <? value s) with true; [reflexivity|].
        symmetry. apply Z.ltb_lt. unfold in_flight in Hk. lia. }
      destruct (step_balance _ _ _ _ Hstep Hv eq_refl) as [Hv1 Hk1].
      destruct (IH s1) as (acts & s' & Hacts & Hfin & Hlen & Hunits).
      { subst s1. cbn [units]. rewrite (pending_enter _ _ Hi). lia. }
      { exact Hv1. } { lia. }
      exists (Acquire i :: acts), s'. cbn [run]. rewrite Hstep. cbn.
      repeat split; auto. rewrite Hunits. subst s1. cbn [units].
      apply length_insert.
Qed.

(** X14.  The semaphore never blocks the crawl: whatever the configured
    concurrency (zero and negative values included, thanks to
    [max(1, ...)]) and whatever has happened so far, a unit that has not
    finished means that some unit can enter or leave, and the units can
    all be run to the end, in as many steps as they have left. *)
Theorem X14_semaphore_progress (config : CrawlerConfig) (n : nat)
    (acts : list action) (s : state) :
  run (init config n) acts = Some s ->
  (all_finished s \/ exists a s', step s a = Some s') /\
  exists rest s',
    run s rest = Some s' /\ all_finished s' /\
    length rest = pending (units s) /\ length (units s') = n.
Proof.
  intros Hrun.
  destruct (run_balance acts (init config n) s (limit config) Hrun) as [Hv Hk].
  { unfold init, limit. simpl. lia. }
  { unfold init, in_flight. simpl. rewrite running_replicate. lia. }
  assert (Hn : length (units s) = n).
  { clear Hv Hk. assert (Hgen : forall acts s0 s1,
      run s0 acts = Some s1 -> length (units s1) = length (units s0)).
    { clear. induction acts as [|a acts IH]; intros s0 s1 H; simpl in H.
      - injection H as <-. reflexivity.
      - destruct (step s0 a) as [s2|] eqn:Hs; [|discriminate].
        rewrite (IH _ _ H). unfold step in Hs.
        destruct a as [i|i]; destruct (units s0 !! i) as [[]|]; try discriminate.
        + destruct (0 <? value s0); [|discriminate]. injection Hs as <-.
          apply length_insert.
        + injection Hs as <-. apply length_insert. }
    rewrite (Hgen _ _ _ Hrun). unfold init. simpl. apply length_replicate. }
  destruct (drain (pending (units s)) s eq_refl Hv) as (rest & s' & Hr & Hf & Hl & Hu).
  { unfold limit in Hk. lia. }
  split.
  - destruct rest as [|a rest].
    + left. injection Hr as <-. exact Hf.
    + right. cbn [run] in Hr. destruct (step s a) as [s1|] eqn:Hs; [|discriminate].
      eauto.
  - exists rest, s'. rewrite Hu, Hn. auto.
Qed.

End ProgressFacts.

(* ===================================================================== *)
(** * Where HTTP status errors come from *)
(* ===================================================================== *)

Section QuietFacts.
Import Py Datetime Models Persistence Config Crawler Spec Quiet.

Lemma quiet_bind {A B} (x : outcome A) (k : A -> outcome B) :
  quiet x -> (forall a, quiet (k a)) -> quiet (x ≫= k).
Proof. destruct x; simpl; auto. Qed.

Ltac quiet_cases :=
  repeat first
    [ exact I
    | reflexivity
    | match goal with
      | |- quiet (match ?x with _ => _ end) => destruct x
      | |- quiet (if ?c then _ else _) => destruct c
      end ].

Lemma quiet_py_get k v : quiet (py_get k v).
Proof. unfold py_get. quiet_cases. Qed.

Lemma quiet_py_item k v : quiet (py_item k v).
Proof. unfold py_item, dict_item. quiet_cases. Qed.

Lemma quiet_int_of_str s : quiet (int_of_str s).
Proof.
  destruct (int_of_str s) as [n|e] eqn:E; [exact I|].
  destruct (int_of_str_raises _ _ E) as [msg ->]. reflexivity.
Qed.

Lemma quiet_float_of_str s : quiet (float_of_str s).
Proof.
  unfold float_of_str. destruct (read_sign _) as [neg cs]. cbv zeta.
  destruct (String.eqb _ _ || String.eqb _ _); [exact I|].
  destruct (String.eqb _ _); [exact I|].
  destruct (digit_run cs) as [ip r1].
  match goal with |- quiet (let (_, _) := ?x in _) => destruct x as [fp r2] end.
  destruct (ip ++ fp); [reflexivity|].
  destruct (read_exponent r2) as [[ex [|]]|]; quiet_cases.
Qed.

Lemma quiet_py_int v : quiet (py_int v).
Proof.
  destruct v as [|b|n|f|s|l|d]; simpl; try exact I; try reflexivity.
  - destruct f; simpl; quiet_cases.
  - apply quiet_int_of_str.
Qed.

Lemma quiet_py_str v : quiet (py_str v).
Proof. unfold py_str. quiet_cases. Qed.

Lemma quiet_py_iter v : quiet (py_iter v).
Proof. unfold py_iter. quiet_cases. Qed.

Lemma quiet_safe_int v : quiet (_safe_int v).
Proof.
  unfold _safe_int. pose proof (quiet_py_int v) as H.
  destruct (py_int v) as [n|[]]; simpl in *; auto.
Qed.

Lemma quiet_of_epoch_micros us : quiet (of_epoch_micros us).
Proof.
  unfold of_epoch_micros. destruct (civil_from_days _) as [[y m] d]. quiet_cases.
Qed.

Lemma quiet_fromtimestamp t : quiet (fromtimestamp_utc t).
Proof.
  destruct t as [|b|n|f|s|l|d]; simpl; try reflexivity;
    try apply quiet_of_epoch_micros.
  destruct f as [sg|sg| |sg m e]; simpl; try reflexivity;
    try apply quiet_of_epoch_micros.
  destruct (0 <=? e); simpl; apply quiet_of_epoch_micros.
Qed.

Lemma quiet_fromisoformat_val v : quiet (fromisoformat_val v).
Proof. unfold fromisoformat_val, fromisoformat. quiet_cases. Qed.

Lemma quiet_omapM {A B} (f : A -> outcome B) l :
  (forall x, quiet (f x)) -> quiet (omapM f l).
Proof.
  intros Hf. induction l as [|x l IH]; [exact I|].
  cbn [omapM]. pose proof (Hf x) as Hx.
  destruct (f x); simpl in *; [|exact Hx].
  destruct (omapM f l); simpl in *; [exact I | exact IH].
Qed.

Lemma quiet_as_int what v : quiet (as_int what v).
Proof. unfold as_int. quiet_cases. Qed.
Lemma quiet_as_str what v : quiet (as_str what v).
Proof. unfold as_str. quiet_cases. Qed.
Lemma quiet_as_float what v : quiet (as_float what v).
Proof. unfold as_float. quiet_cases. Qed.
Lemma quiet_as_opt_int what v : quiet (as_opt_int what v).
Proof. unfold as_opt_int. quiet_cases. Qed.
Lemma quiet_as_opt_str what v : quiet (as_opt_str what v).
Proof. unfold as_opt_str. quiet_cases. Qed.

Ltac quiet_chain :=
  repeat first
    [ exact I
    | reflexivity
    | apply quiet_py_get | apply quiet_py_item | apply quiet_py_int
    | apply quiet_py_str | apply quiet_py_iter | apply quiet_safe_int
    | apply quiet_int_of_str | apply quiet_float_of_str
    | apply quiet_fromtimestamp | apply quiet_fromisoformat_val
    | apply quiet_as_int | apply quiet_as_str | apply quiet_as_float
    | apply quiet_as_opt_int | apply quiet_as_opt_str
    | (apply quiet_bind; [|intros ?])
    | match goal with
      | |- quiet (match ?x with _ => _ end) => destruct x
      | |- quiet (if ?c then _ else _) => destruct c
      end ].

Lemma quiet_from_xml_node node b c : quiet (from_xml_node node b c).
Proof. unfold from_xml_node, _parse_timestamp. cbv zeta. quiet_chain. Qed.

Lemma quiet_from_view_api payload keyword c r : quiet (from_view_api payload keyword c r).
Proof. unfold from_view_api, _parse_timestamp. quiet_chain. Qed.

Lemma quiet_record_from_dict item : quiet (record_from_dict item).
Proof. unfold record_from_dict. quiet_chain. Qed.

Lemma quiet_metadata_from_dict v : quiet (metadata_from_dict v).
Proof. unfold metadata_from_dict. quiet_chain. Qed.

Lemma quiet_from_dict payload : quiet (from_dict payload).
Proof.
  unfold from_dict.
  apply quiet_bind; [apply quiet_py_item|]. intros video.
  apply quiet_bind; [quiet_chain|]. intros dl.
  apply quiet_bind; [apply quiet_metadata_from_dict|]. intros m.
  apply quiet_bind; [apply quiet_py_iter|]. intros items.
  apply quiet_bind; [apply quiet_omapM, quiet_record_from_dict|]. intros rs.
  exact I.
Qed.

Lemma quiet_load_bundle fs path : quiet (load_bundle fs path).
Proof.
  unfold load_bundle. destruct (fs !! path) as [[doc|]|]; try reflexivity.
  apply quiet_from_dict.
Qed.

Lemma quiet_item_bvid item : quiet (item_bvid item).
Proof. unfold item_bvid. quiet_chain. Qed.

Variable net : network.
Variable config : CrawlerConfig.

Lemma no_http_ret {A} (a : A) : no_http (ret a).
Proof. intros w. exact I. Qed.

Lemma no_http_lift {A} (o : outcome A) : quiet o -> no_http (lift o).
Proof. intros H w. exact H. Qed.

Lemma no_http_bind {A B} (m : M A) (k : A -> M B) :
  no_http m -> (forall a, no_http (k a)) -> no_http (m ≫= k).
Proof.
  intros Hm Hk w. specialize (Hm w). unfold mbind, M_bind, bind.
  destruct (m w) as [[a|e] w1]; simpl in *; [apply Hk | exact Hm].
Qed.

(** Whatever the body raises, the handler takes the HTTP status errors. *)
Lemma no_http_try {A} (m : M A) (h : Z -> M A) :
  (forall st, no_http (h st)) -> no_http (try_except_http m h).
Proof.
  intros Hh w. unfold try_except_http.
  destruct (m w) as [[a|e] w1]; [exact I|].
  destruct e; try reflexivity. apply Hh.
Qed.

Lemma no_http_collect search_item keyword ranking_index :
  no_http (_collect_video_bundle net config search_item keyword ranking_index).
Proof.
  unfold _collect_video_bundle.
  apply no_http_bind; [apply no_http_lift, quiet_item_bvid|].
  intros [bvid|]; [|apply no_http_ret].
  apply no_http_bind; [intros w; exact I|]. intros hit.
  destruct (enable_cache config && hit).
  { apply no_http_bind; [|intros; apply no_http_ret].
    intros w. apply quiet_load_bundle. }
  apply no_http_bind; [apply no_http_try; intros; apply no_http_ret|].
  intros [view_payload|]; [|apply no_http_ret].
  apply no_http_bind; [apply no_http_lift, quiet_py_get|]. intros data.
  destruct (negb (truthy data)); [apply no_http_ret|].
  apply no_http_bind; [apply no_http_lift, quiet_py_get|]. intros cid.
  assert (Hrest :
    no_http
      (cid_int ← lift (py_int cid);
       metadata ← lift (from_view_api data keyword cid_int (Some ranking_index));
       cid_int' ← lift (py_int cid);
       danmaku_nodes ←
         try_except_http
           (_fetch_danmaku net config cid_int' (Models.bvid metadata))
           (fun _ => ret []);
       danmaku_records ←
         lift (omapM (fun node =>
                        from_xml_node node (Models.bvid metadata)
                          (Models.cid metadata))
                     danmaku_nodes);
       let bundle := {| video := metadata; danmaku := danmaku_records |} in
       _ ← (if enable_cache config
            then (_ ← dump_bundle_io bundle; ret tt) else ret tt);
       ret (Some bundle))).
  { apply no_http_bind; [apply no_http_lift, quiet_py_int|]. intros cid_int.
    apply no_http_bind; [apply no_http_lift, quiet_from_view_api|]. intros metadata.
    apply no_http_bind; [apply no_http_lift, quiet_py_int|]. intros cid_int'.
    apply no_http_bind; [apply no_http_try; intros; apply no_http_ret|].
    intros nodes.
    apply no_http_bind.
    { apply no_http_lift, quiet_omapM. intros x. apply quiet_from_xml_node. }
    intros records. cbv zeta.
    apply no_http_bind; [|intros; apply no_http_ret].
    destruct (enable_cache config); [|apply no_http_ret].
    apply no_http_bind; [|intros; apply no_http_ret].
    intros w. unfold dump_bundle_io. simpl. exact I. }
  destruct cid; try exact Hrest. apply no_http_ret.
Qed.

Lemma no_http_gather :
  forall completing bundles, no_http (gather net config completing bundles).
Proof.
  induction completing as [|t rest IH]; intros bundles; cbn [gather].
  - apply no_http_ret.
  - apply no_http_bind; [apply no_http_collect|]. intros b. apply IH.
Qed.

Lemma crawl_http_from_search completion w status w' :
  crawl net config completion w = (Raise (HTTPStatusError status), w') ->
  schedule_keywords net config (keywords config) sched0 w
  = (Raise (HTTPStatusError status), w').
Proof.
  intros H. unfold crawl, mbind, M_bind, bind in H.
  destruct (schedule_keywords net config (keywords config) sched0 w)
    as [[st|e] w1]; [|injection H as -> ->; reflexivity].
  pose proof (no_http_gather (completion (tasks st)) [] w1) as Hq.
  rewrite H in Hq. discriminate.
Qed.

(** X15.  A unit never ends in an HTTP status error: those of its two
    requests are caught, and nothing else in it raises one.  So when
    [crawl] raises an HTTP status error, a search request raised it, after
    its retries, before any unit ran. *)
Theorem X15_status_errors_come_from_search :
  (forall item keyword r w status w',
      _collect_video_bundle net config item keyword r w
      <> (Raise (HTTPStatusError status), w')) /\
  (forall completion w status w',
      crawl net config completion w = (Raise (HTTPStatusError status), w') ->
      schedule_keywords net config (keywords config) sched0 w
      = (Raise (HTTPStatusError status), w')).
Proof.
  split.
  - intros item keyword r w status w' H.
    pose proof (no_http_collect item keyword r w) as Hq.
    rewrite H in Hq. discriminate.
  - exact crawl_http_from_search.
Qed.

End QuietFacts.

(* ===================================================================== *)
(** * [_build_settings] and [fetch] *)
(* ===================================================================== *)

Section CliFacts.
Import Py Models Persistence Config Crawler Spec Footprint Cli.


Lemma build_settings_fields (settings : CrawlerSettings)
    (extra_cookie : option string) (max_videos : option Z) (enable_cache : bool)
    (concurrency : option Z) (sleep_interval : option Q) (pages : option Z) :
  let built := _build_settings settings extra_cookie max_videos enable_cache
                 concurrency sleep_interval pages in
  keywords (knobs built) = keywords (knobs settings) /\
  order (knobs built) = order (knobs settings) /\
  retry_attempts (knobs built) = retry_attempts (knobs settings) /\
  build_headers (knobs built) = build_headers (knobs settings) /\
  Config.max_videos (knobs built)
    = int_or max_videos (Config.max_videos (knobs settings)) /\
  concurrent_requests (knobs built)
    = int_or concurrency (concurrent_requests (knobs settings)) /\
  Config.sleep_interval (knobs built)
    = match sleep_interval with
      | Some q => q
      | None => Config.sleep_interval (knobs settings)
      end /\
  pages_per_keyword (knobs built)
    = match pages with
      | Some p => Some p
      | None => pages_per_keyword (knobs settings)
      end /\
  (enable_cache = false -> Config.enable_cache (knobs built) = false) /\
  cookie built = (if str_truthy extra_cookie then extra_cookie else cookie settings).
Proof.
  cbv zeta. unfold _build_settings.
  destruct max_videos as [mv|], enable_cache, (str_truthy extra_cookie),
    concurrency as [cc|], sleep_interval as [si|], pages as [pg|];
    cbn [is_given negb orb knobs cookie keywords order retry_attempts
         Config.max_videos concurrent_requests Config.sleep_interval
         pages_per_keyword Config.enable_cache int_or];
    repeat apply conj; try reflexivity; try discriminate.
Qed.

(** X16.  [_build_settings] leaves the keywords, the order, the retry
    ceiling and the request headers alone.  A [max_videos] or
    [concurrency] option of 0 is taken as not given and the configured
    value stays, so the limit of the semaphore stays too; any other value
    is applied.  A [sleep_interval] or [pages] option is applied also
    when it is 0: the crawler then does not pace its requests, and has no
    page ceiling.  An empty [BILIBILI_COOKIE] is taken as unset.  With
    [enable_cache] false the cache is off in the result. *)
Theorem X16_build_settings_overrides (settings : CrawlerSettings)
    (extra_cookie : option string) (max_videos : option Z) (enable_cache : bool)
    (concurrency : option Z) (sleep_interval : option Q) (pages : option Z) :
  let built := _build_settings settings extra_cookie max_videos enable_cache
                 concurrency sleep_interval pages in
  (keywords (knobs built) = keywords (knobs settings) /\
   order (knobs built) = order (knobs settings) /\
   retry_attempts (knobs built) = retry_attempts (knobs settings) /\
   build_headers (knobs built) = build_headers (knobs settings)) /\
  (forall n, max_videos = Some n -> n <> 0 -> Config.max_videos (knobs built) = n) /\
  (max_videos = None \/ max_videos = Some 0 ->
   Config.max_videos (knobs built) = Config.max_videos (knobs settings)) /\
  (forall n, concurrency = Some n -> n <> 0 -> concurrent_requests (knobs built) = n) /\
  (concurrency = None \/ concurrency = Some 0 ->
   Semaphore.limit (knobs built) = Semaphore.limit (knobs settings)) /\
  (forall q, sleep_interval = Some q -> Config.sleep_interval (knobs built) = q) /\
  (sleep_interval = Some 0%Q ->
   forall req, attempt_events (knobs built) req = [Get req]) /\
  (forall p, pages = Some p -> pages_per_keyword (knobs built) = Some p) /\
  (pages = Some 0 -> forall page, ceiling_hit (knobs built) page = false) /\
  (enable_cache = false -> Config.enable_cache (knobs built) = false) /\
  (str_truthy extra_cookie = false -> cookie built = cookie settings) /\
  (str_truthy extra_cookie = true -> cookie built = extra_cookie).
Proof.
  cbv zeta.
  destruct (build_settings_fields settings extra_cookie max_videos enable_cache
              concurrency sleep_interval pages)
    as (Hk & Ho & Hr & Hh & Hmv & Hcc & Hsi & Hpg & Hec & Hck).
  set (built := _build_settings settings extra_cookie max_videos enable_cache
                  concurrency sleep_interval pages) in *.
  repeat apply conj; try assumption.
  - intros n -> Hn. rewrite Hmv. unfold int_or.
    destruct (n =? 0) eqn:E; [apply Z.eqb_eq in E; congruence | reflexivity].
  - intros [->| ->]; rewrite Hmv; reflexivity.
  - intros n -> Hn. rewrite Hcc. unfold int_or.
    destruct (n =? 0) eqn:E; [apply Z.eqb_eq in E; congruence | reflexivity].
  - intros [->| ->]; unfold Semaphore.limit; rewrite Hcc; reflexivity.
  - intros q ->. exact Hsi.
  - intros -> req. unfold attempt_events. rewrite Hsi. reflexivity.
  - intros p ->. exact Hpg.
  - intros -> page. unfold ceiling_hit. rewrite Hpg. reflexivity.
  - intros Hf. rewrite Hck, Hf. reflexivity.
  - intros Ht. rewrite Hck, Ht. reflexivity.
Qed.


End CliFacts.

(* ===================================================================== *)
(** * [build_cookies] *)
(* ===================================================================== *)

Section CookieFacts.
Import Py Cookies.













End CookieFacts.

(* ===================================================================== *)
(** * Further concrete runs *)
(* ===================================================================== *)

Section MoreRuns.
Import Py Datetime Models Persistence Config Crawler Spec Scenarios.
Import Retry Footprint Directory Progress Quiet Cli Cookies Cases.

(** Two time-outs, then an answer: three requests and waits of 1.5 and 3
    seconds. *)
Lemma X1_witness :
  _request (flaky 2 ok_json) retry_config (view_request retry_config "BV1") empty_world
  = (Ok ok_json,
     add_events empty_world
       [Get (view_request retry_config "BV1"); Sleep ((3 # 2) * inject_Z 1)%Q;
        Get (view_request retry_config "BV1"); Sleep ((3 # 2) * inject_Z 2)%Q;
        Get (view_request retry_config "BV1")]).
Proof.
  apply (X1_request_first_success (flaky 2 ok_json) retry_config
           (view_request retry_config "BV1") empty_world 3 ok_json).
  - lia.
  - vm_compute. discriminate.
  - intros i Hi. assert (i = 1 \/ i = 2) as [-> | ->] by lia;
      vm_compute; discriminate.
  - vm_compute. reflexivity.
  - reflexivity.
Defined.

(** A client with a ceiling of one attempt makes a single attempt. *)
Lemma X2_witness :
  _request unreachable plain_config (view_request plain_config "BV1") empty_world
  = attempt_once unreachable plain_config (view_request plain_config "BV1")
      empty_world.
Proof.
  apply (X2_request_bounds unreachable plain_config
           (view_request plain_config "BV1") empty_world).
  vm_compute. discriminate.
Defined.

(** A 200 whose body is not JSON: one request, then the decode error. *)
Lemma X3_witness :
  _request_json blank retry_config (view_request retry_config "BV1") empty_world
  = (Raise JSONDecodeError,
     add_events empty_world [Get (view_request retry_config "BV1")]).
Proof.
  apply (X3_decode_errors_not_retried blank retry_config
           (view_request retry_config "BV1") empty_world
           {| status_code := 200; body_json := None; body_xml := None |}).
  - reflexivity.
  - reflexivity.
Defined.

(** A share of four met by the first page. *)
Lemma X4_witness :
  exists pages,
    fetched two_videos caching_config "LLM" 1 empty_world pages
      (add_events empty_world
         [Sleep (2 # 5); Get (search_request caching_config "LLM" 1)]) /\
    1 <= len pages <= 4.
Proof.
  destruct (X4_search_results_are_page_prefix two_videos caching_config "LLM"
              empty_world
              [search_item "BV1"; PDict [("title", PStr "x")]; search_item "BV2";
               search_item "BV1"]
              (add_events empty_world
                 [Sleep (2 # 5); Get (search_request caching_config "LLM" 1)]))
    as (pages & Hfetched & _ & Hcount & _).
  - vm_compute. reflexivity.
  - exists pages. split; [exact Hfetched | exact Hcount].
Defined.

(** Three keywords and [max_videos = 1]: three bundles. *)
Lemma X5_witness :
  exists bs w',
    crawl echo crowded_config (fun l => l) empty_world = (Ok bs, w') /\
    map (fun b => bvid (video b)) bs = ["A"; "B"; "C"] /\
    len bs <= Z.max (len (keywords crowded_config)) (max_videos crowded_config).
Proof.
  eexists _, _. split; [vm_compute; reflexivity|].
  split; [vm_compute; reflexivity|].
  eapply (proj2 (X5_crawl_size echo crowded_config empty_world) (fun l => l)).
  - intros ts. lia.
  - vm_compute. reflexivity.
Defined.

(** The bundles of a crawl survive the round trip. *)
Lemma X6_witness :
  exists bs w',
    crawl echo crowded_config (fun l => l) empty_world = (Ok bs, w') /\
    length bs = 3%nat /\
    Forall (fun b => wf_bundle b /\ from_dict (to_dict b) = Ok b) bs.
Proof.
  eexists _, _. split; [vm_compute; reflexivity|].
  split; [reflexivity|].
  eapply (proj2 (X6_crawl_output_round_trips echo crowded_config) (fun l => l)
            empty_world).
  vm_compute. reflexivity.
Defined.


Lemma cached_world_consistent : consistent (files cached_world).
Proof.
  intros path f H. exists sample_bundle.
  unfold cached_world, dump_bundle in H. cbn [snd files] in H.
  apply lookup_insert_Some in H as [[<- <-]|[_ H]].
  - split; [split; [reflexivity | repeat constructor]|]. split; reflexivity.
  - rewrite lookup_empty in H. discriminate.
Qed.



(** A directory that holds one cached bundle. *)
Lemma X10_witness :
  exists bs, load_all (files cached_world) = Ok bs /\ length bs = 1%nat.
Proof.
  destruct (proj1 (X10_load_all_reads_the_cache (files cached_world))
              cached_world_consistent) as (bs & Hload & Hlen & _).
  exists bs. split; [exact Hload|]. rewrite Hlen. vm_compute. reflexivity.
Defined.

(** A numeral and a word. *)
Lemma X11_witness :
  _safe_int (PStr " 7 ") = Ok (Some 7) /\ _safe_int (PStr "x") = Ok None.
Proof.
  split.
  - apply (proj1 (proj2 X11_safe_int_defaults)). vm_compute. reflexivity.
  - rewrite (proj1 X11_safe_int_defaults). vm_compute. reflexivity.
Defined.


(** An info payload with a zero duration and a zero [pubdate]. *)
Lemma X13_witness :
  exists m,
    from_view_api
      (PDict [("aid", PStr "7"); ("bvid", PStr "BV1"); ("duration", PInt 0);
              ("pubdate", PInt 0)]) "LLM" 9 (Some 1) = Ok m /\
    aid m = 7 /\ duration m = None /\ publish_time m = None.
Proof.
  eexists. split; [vm_compute; reflexivity|].
  edestruct (X13_metadata_fields
               (PDict [("aid", PStr "7"); ("bvid", PStr "BV1"); ("duration", PInt 0);
                       ("pubdate", PInt 0)]) "LLM" 9 (Some 1))
    as (d & Hd & _); [vm_compute; reflexivity|].
  repeat split.
Defined.

(** Three units under a configured concurrency of 0: after the first has
    entered, five steps remain and can be taken. *)
Lemma X14_witness :
  exists s rest s',
    Semaphore.run (Semaphore.init crowded_config 3) [Semaphore.Acquire 0] = Some s /\
    Semaphore.run s rest = Some s' /\ all_finished s' /\ length rest = 5%nat.
Proof.
  eexists. 
  edestruct (X14_semaphore_progress crowded_config 3 [Semaphore.Acquire 0])
    as (_ & rest & s' & Hrun & Hfin & Hlen & _); [vm_compute; reflexivity|].
  exists rest, s'. repeat split; [exact Hrun | exact Hfin | exact Hlen].
Defined.

(** A search refused with HTTP 412 ends the crawl. *)
Lemma X15_witness :
  exists w',
    crawl refusing plain_config (fun l => l) empty_world
    = (Raise (HTTPStatusError 412), w') /\
    schedule_keywords refusing plain_config (keywords plain_config) sched0 empty_world
    = (Raise (HTTPStatusError 412), w').
Proof.
  eexists. split; [vm_compute; reflexivity|].
  apply (proj2 (X15_status_errors_come_from_search refusing plain_config)
           (fun l => l)).
  vm_compute. reflexivity.
Defined.

(** [--max-videos 0 --pages 0]: the configured 360 videos, and no page
    ceiling. *)
Lemma X16_witness :
  max_videos (fetch_config default_settings None sample_options) = 360 /\
  forall page, ceiling_hit (fetch_config default_settings None sample_options) page
               = false.
Proof.
  pose proof (X16_build_settings_overrides default_settings None (Some 0) false
                None None (Some 0)) as H.
  cbv zeta in H. destruct H as (_ & _ & Hmv & _ & _ & _ & _ & _ & Hpages & _).
  split.
  - unfold fetch_config, sample_options. cbn [opt_max_videos opt_no_cache negb
      opt_concurrency opt_sleep_interval opt_pages].
    rewrite Hmv; [reflexivity | right; reflexivity].
  - apply Hpages. reflexivity.
Defined.



End MoreRuns.
